(** * Gemini Slingshot: the game engine of [GeminiSlingshot.tsx] and the
      advisory fallback of [geminiService.ts], embedded and verified.

    Conventions of the embedding.
    - Grid coordinates, scores, counters and [Date.now()] are integers ([Z]).
    - Pixel positions, velocities and [performance.now()] are JavaScript
      numbers; they are modelled as real numbers ([R]): arithmetic is exact,
      the rounding of IEEE doubles is not modelled.
    - [bubbles.current] is a JavaScript array of objects that are mutated in
      place and referred to from other variables ([startBubble], [matches],
      [toCheck]); the array is the store (a [list Bubble]) and an object
      reference is an index into it.
    - A [Set<string>] is a list of strings read through a membership test.
    - Rendering, particles and the outward robot notifications change no
      state that the game logic reads back; they are left out. *)

From Stdlib Require Import ZArith List String Ascii Bool Lia.
From Stdlib Require Import QArith Qround DecimalString.
From Stdlib Require Import Reals Lra.
From Stdlib Require Import Permutation Sorted.
From Stdlib Require DecimalFacts DecimalPos DecimalZ.
Import ListNotations.

#[local] Open Scope string_scope.
#[local] Open Scope Z_scope.

(* ================================================================== *)
(** * Part I. The embedding                                            *)
(* ================================================================== *)

(** ** Constants (GeminiSlingshot.tsx, lines 27-51) *)

Definition PINCH_THRESHOLD : R := 0.05.
Definition GRAVITY : R := 0.0.
Definition FRICTION : R := 0.998.

Definition BUBBLE_RADIUS : R := 22.
Definition ROW_HEIGHT : R := BUBBLE_RADIUS * sqrt 3.
Definition GRID_COLS : Z := 12.
Definition GRID_ROWS : Z := 8.
Definition SLINGSHOT_BOTTOM_OFFSET : R := 220.

Definition MAX_DRAG_DIST : R := 180.
Definition MIN_FORCE_MULT : R := 0.15.
Definition MAX_FORCE_MULT : R := 0.45.

(** ** Data model (types.ts is not in the sources; the fields are the ones
       the component reads and writes) *)

Inductive BubbleColor : Set :=
  red | blue | green | yellow | purple | orange.

Definition BubbleColor_eqb (c d : BubbleColor) : bool :=
  match c, d with
  | red, red | blue, blue | green, green
  | yellow, yellow | purple, purple | orange, orange => true
  | _, _ => false
  end.

(** [COLOR_CONFIG[c].points] *)
Definition points (c : BubbleColor) : Z :=
  match c with
  | red => 100 | blue => 150 | green => 200
  | yellow => 250 | purple => 300 | orange => 500
  end.

(** The key of a colour, as the string the [BubbleColor] type holds. *)
Definition colorKey (c : BubbleColor) : string :=
  match c with
  | red => "red" | blue => "blue" | green => "green"
  | yellow => "yellow" | purple => "purple" | orange => "orange"
  end.

Definition COLOR_KEYS : list BubbleColor :=
  [red; blue; green; yellow; purple; orange].

Module Point.
Record t : Type := mk { x : R; y : R }.
End Point.
Abbreviation Point := Point.t.

Module Bubble.
Record t : Type := mk {
  id : string;
  row : Z;
  col : Z;
  x : R;
  y : R;
  color : BubbleColor;
  active : bool
}.
(** [b.active = false] on the object [b]. *)
Definition deactivate (b : t) : t :=
  mk (id b) (row b) (col b) (x b) (y b) (color b) false.
End Bubble.
Abbreviation Bubble := Bubble.t.

(** Template literals print numbers in decimal. *)
Definition showZ (z : Z) : string := NilZero.string_of_int (Z.to_int z).

(** ** Grid geometry *)

(** JavaScript's [%] truncates towards zero: [Z.rem]. *)
Definition isOddRow (r : Z) : bool := negb (Z.rem r 2 =? 0).

(** [getBubblePos] (lines 129-135). *)
Definition getBubblePos (r c : Z) (width : R) : Point :=
  let xOffset := ((width - IZR GRID_COLS * BUBBLE_RADIUS * 2) / 2 + BUBBLE_RADIUS)%R in
  let isOdd := isOddRow r in
  let x := (xOffset + IZR c * (BUBBLE_RADIUS * 2) + (if isOdd then BUBBLE_RADIUS else 0))%R in
  let y := (BUBBLE_RADIUS + IZR r * ROW_HEIGHT)%R in
  Point.mk x y.

(** [isNeighbor] (lines 363-373). *)
Definition isNeighbor (a b : Bubble) : bool :=
  let dr := Bubble.row b - Bubble.row a in
  let dc := Bubble.col b - Bubble.col a in
  if Z.abs dr >? 1 then false
  else if dr =? 0 then Z.abs dc =? 1
  else if isOddRow (Bubble.row a) then (dc =? 0) || (dc =? 1)
  else (dc =? -1) || (dc =? 0).

(** The six neighbour directions of the spec, as (row, column) offsets from
    a cell whose row is odd ([true]) or even ([false]). *)
Definition hexDirections (odd : bool) : list (Z * Z) :=
  if odd
  then [(0, -1); (0, 1); (-1, 0); (-1, 1); (1, 0); (1, 1)]
  else [(0, -1); (0, 1); (-1, -1); (-1, 0); (1, -1); (1, 0)].

(** The adjacency of the spec, in its words: same row and columns one apart,
    or rows one apart and the column offset 0 or 1 from an odd row, -1 or 0
    from an even row. *)
Definition hexAdjacent (a b : Bubble) : Prop :=
  let dc := Bubble.col b - Bubble.col a in
  (Bubble.row b = Bubble.row a /\ Z.abs dc = 1)
  \/ (Z.abs (Bubble.row b - Bubble.row a) = 1
      /\ (Z.odd (Bubble.row a) = true -> dc = 0 \/ dc = 1)
      /\ (Z.even (Bubble.row a) = true -> dc = -1 \/ dc = 0)).

(** ** Cluster analysis: [checkMatches] (lines 292-361) *)

(** [visited.has(s)] *)
Definition setHas (visited : list string) (s : string) : bool :=
  existsb (String.eqb s) visited.

(** [bubbles.current.filter(p)]: the references to the elements that satisfy
    [p], in array order. *)
Definition refsWhere (p : Bubble -> bool) (bs : list Bubble) : list nat :=
  filter (fun i => match nth_error bs i with Some b => p b | None => false end)
         (seq 0 (List.length bs)).

(** The [while (toCheck.length > 0)] loop. [toCheck] is a stack whose top is
    the head of the list: [pop] takes the head, [push(...neighbors)] leaves
    the last neighbour on top. One unit of fuel is one iteration; [None] is
    fuel exhausted. A reference outside the array is never on the stack; the
    model skips it. *)
Fixpoint floodFill (fuel : nat) (bs : list Bubble) (targetColor : BubbleColor)
  (toCheck : list nat) (visited : list string) (matches : list nat)
  : option (list nat) :=
  match fuel with
  | O => None
  | S fuel' =>
    match toCheck with
    | [] => Some matches
    | cur :: rest =>
      match nth_error bs cur with
      | None => floodFill fuel' bs targetColor rest visited matches
      | Some current =>
        if setHas visited (Bubble.id current)
        then floodFill fuel' bs targetColor rest visited matches
        else
          let visited' := Bubble.id current :: visited in
          if BubbleColor_eqb (Bubble.color current) targetColor
          then
            let neighbors :=
              refsWhere (fun b => Bubble.active b
                                  && negb (setHas visited' (Bubble.id b))
                                  && isNeighbor current b) bs in
            floodFill fuel' bs targetColor (rev neighbors ++ rest) visited'
                      (matches ++ [cur])
          else floodFill fuel' bs targetColor rest visited' matches
      end
    end
  end.

(** Iterations that always suffice for an array [bs] (see [floodFill_total]). *)
Definition floodFuel (bs : list Bubble) : nat :=
  S (S (List.length bs * S (List.length bs))).

(** Assignment through a reference: [bs[i] = f(bs[i])]. *)
Fixpoint updateAt (i : nat) (f : Bubble -> Bubble) (bs : list Bubble) : list Bubble :=
  match bs, i with
  | [], _ => []
  | b :: t, O => f b :: t
  | b :: t, S i' => b :: updateAt i' f t
  end.

(** What [checkMatches] leaves behind: the array, [scoreRef],
    [bubblesEliminatedRef] and its return value. *)
Record MatchOutcome : Type := mkOutcome {
  mo_bubbles : list Bubble;
  mo_score : Z;
  mo_eliminated : Z;
  mo_matched : bool
}.

(** [multiplier = matches.length > 3 ? 1.5 : 1.0] *)
Definition multiplier (n : Z) : Q := if n >? 3 then 1.5%Q else 1.0%Q.

(** [matches.forEach(b => { b.active = false; ...; points += basePoints })] *)
Definition popMatches (basePoints : Z) (matches : list nat) (bs : list Bubble)
  : list Bubble * Z :=
  fold_left (fun acc m => (updateAt m Bubble.deactivate (fst acc), snd acc + basePoints))
            matches (bs, 0).

Definition checkMatches (bs : list Bubble) (startBubble : nat)
  (score eliminated : Z) : MatchOutcome :=
  match nth_error bs startBubble with
  | None => mkOutcome bs score eliminated false
  | Some start =>
    let targetColor := Bubble.color start in
    match floodFill (floodFuel bs) bs targetColor [startBubble] [] [] with
    | None => mkOutcome bs score eliminated false
    | Some matches =>
      let n := Z.of_nat (List.length matches) in
      if n >=? 3 then
        let basePoints := points targetColor in
        let '(bs', pts) := popMatches basePoints matches bs in
        mkOutcome bs'
                  (score + Qfloor (inject_Z pts * multiplier n))
                  (eliminated + n)
                  true
      else mkOutcome bs score eliminated false
    end
  end.

(** The same-colour component of the spec: what flood fill from [start]
    reaches through active bubbles of colour [c], each adjacent to the one
    before. *)
Inductive inCluster (bs : list Bubble) (c : BubbleColor) (start : nat) : nat -> Prop :=
| cluster_start : inCluster bs c start start
| cluster_step i j bi bj :
    inCluster bs c start i ->
    nth_error bs i = Some bi ->
    nth_error bs j = Some bj ->
    isNeighbor bi bj = true ->
    Bubble.active bj = true ->
    Bubble.color bj = c ->
    inCluster bs c start j.

(** ** Advisory service: [getStrategicHint] (geminiService.ts, the version
       with the local heuristic) *)

Module TargetCandidate.
Record t : Type := mk {
  id : string;
  color : string;
  size : Z;
  row : Z;
  col : Z;
  pointsPerBubble : Z;
  description : string
}.
End TargetCandidate.
Abbreviation TargetCandidate := TargetCandidate.t.

Module StrategicHint.
Record t : Type := mk {
  message : string;
  rationale : option string;
  targetRow : option Z;
  targetCol : option Z;
  recommendedColor : option string
}.
End StrategicHint.
Abbreviation StrategicHint := StrategicHint.t.

(** [AiResponse]: the hint, and of the debug record the [error] field. *)
Record AiResponse : Type := mkAiResponse {
  hint : StrategicHint;
  debug_error : option string
}.

(** [String.prototype.toUpperCase] / [toLowerCase] on ASCII letters (the
    colour keys hold no other letters). *)
Definition upperAscii (c : ascii) : ascii :=
  let n := nat_of_ascii c in
  if ((97 <=? n) && (n <=? 122))%nat then ascii_of_nat (n - 32) else c.

Definition lowerAscii (c : ascii) : ascii :=
  let n := nat_of_ascii c in
  if ((65 <=? n) && (n <=? 90))%nat then ascii_of_nat (n + 32) else c.

Fixpoint mapString (f : ascii -> ascii) (s : string) : string :=
  match s with
  | EmptyString => EmptyString
  | String c t => String (f c) (mapString f t)
  end.

Definition toUpperCase : string -> string := mapString upperAscii.
Definition toLowerCase : string -> string := mapString lowerAscii.

(** [Array.prototype.sort(compare)] is stable; the model is the stable
    insertion sort: an element goes before the first element it does not
    compare greater than. *)
Fixpoint insertBy {A} (compare : A -> A -> Z) (a : A) (l : list A) : list A :=
  match l with
  | [] => [a]
  | b :: t => if compare a b <=? 0 then a :: b :: t else b :: insertBy compare a t
  end.

Definition sortBy {A} (compare : A -> A -> Z) (l : list A) : list A :=
  fold_right (insertBy compare) [] l.

(** [a.size * a.pointsPerBubble] *)
Definition potentialScore (a : TargetCandidate) : Z :=
  TargetCandidate.size a * TargetCandidate.pointsPerBubble a.

(** The comparator of the heuristic:
    [(scoreB - scoreA) || (a.row - b.row)]. *)
Definition compareTargets (a b : TargetCandidate) : Z :=
  let scoreA := potentialScore a in
  let scoreB := potentialScore b in
  if scoreB - scoreA =? 0
  then TargetCandidate.row a - TargetCandidate.row b
  else scoreB - scoreA.

(** [getBestLocalTarget] (lines 53-72). *)
Definition getBestLocalTarget (validTargets : list TargetCandidate) (msg : string)
  : StrategicHint :=
  match sortBy compareTargets validTargets with
  | best :: _ =>
      StrategicHint.mk
        ("Fallback: Select " ++ toUpperCase (TargetCandidate.color best)
           ++ " at Row " ++ showZ (TargetCandidate.row best))
        (Some "Selected based on highest potential cluster score available locally.")
        (Some (TargetCandidate.row best))
        (Some (TargetCandidate.col best))
        (Some (TargetCandidate.color best))
  | [] => StrategicHint.mk msg (Some "No valid clusters found to target.")
                           None None None
  end.

(** A field of the parsed response, as the code tests it: falsy, a
    non-empty string, or another truthy value. *)
Inductive JsField : Type :=
| Falsy
| Str (s : string)
| Truthy.

(** The object [JSON.parse] returned, read as the code reads it:
    [Number(json.targetRow)] and [Number(json.targetCol)] ([None] is NaN;
    the prompt asks for integers), and the three text fields. *)
Record ParsedJson : Type := mkJson {
  json_message : option string;
  json_rationale : option string;
  json_targetRow : option Z;
  json_targetCol : option Z;
  json_recommendedColor : JsField
}.

(** What the external service did with one request. *)
Inductive ServiceOutcome : Type :=
| Unreachable (error : string)   (* [generateContent] rejected: outer catch *)
| Unparseable (error : string)   (* [JSON.parse] threw: inner catch *)
| Parsed (json : ParsedJson).

(** [getStrategicHint] (lines 30-204). [ai] is whether the client was
    created (an API key was present). *)
Definition getStrategicHint (ai : bool) (validTargets : list TargetCandidate)
  (outcome : ServiceOutcome) : AiResponse :=
  if negb ai then
    mkAiResponse (StrategicHint.mk "API Key missing." None None None None)
                 (Some "API Key Missing")
  else
    match outcome with
    | Unreachable error =>
        mkAiResponse (getBestLocalTarget validTargets "AI Service Unreachable")
                     (Some error)
    | Unparseable error =>
        mkAiResponse (getBestLocalTarget validTargets "AI response parse error")
                     (Some ("JSON Parse Error: " ++ error))
    | Parsed json =>
        match json_targetRow json, json_targetCol json, json_recommendedColor json with
        | Some r, Some c, Str color =>
            mkAiResponse
              (StrategicHint.mk
                 (match json_message json with
                  | Some m => m | None => "Good shot available!" end)
                 (json_rationale json) (Some r) (Some c)
                 (Some (toLowerCase color)))
              None
        | Some r, Some c, Truthy =>
            (* [json.recommendedColor.toLowerCase] is not a function: the
               TypeError is caught by the inner catch *)
            mkAiResponse (getBestLocalTarget validTargets "AI response parse error")
                         (Some "JSON Parse Error: json.recommendedColor.toLowerCase is not a function")
        | _, _, _ =>
            mkAiResponse (getBestLocalTarget validTargets "AI returned invalid coordinates")
                         (Some "Invalid Coordinates in JSON")
        end
    end.

(** ** Game state: the refs of the component (lines 78-102), the canvas
       size, and the asynchronous work that is outstanding

    [initTimerPending]: the [setTimeout(..., 2000)] of [initGrid] has not
    fired yet. [analysesScheduled]: the [setTimeout(() =>
    performAiAnalysis(screenshot), 0)] callbacks that have not run yet.
    [requestsInFlight]: the promises of [getStrategicHint] that have not
    settled yet. *)

Record Game : Type := mkGame {
  ballPos : Point;
  ballVel : Point;
  anchorPos : Point;
  isPinching : bool;
  isFlying : bool;
  flightStartTime : R;
  bubbles : list Bubble;
  scoreRef : Z;
  isAiThinkingRef : bool;
  captureRequestRef : bool;
  selectedColorRef : BubbleColor;
  shotsFiredRef : Z;
  bubblesEliminatedRef : Z;
  canvas_width : R;
  canvas_height : R;
  initTimerPending : bool;
  analysesScheduled : nat;
  requestsInFlight : nat
}.

(** Assignments to one ref. *)

Definition set_ballPos (v : Point) (g : Game) : Game :=
  mkGame v (ballVel g) (anchorPos g) (isPinching g) (isFlying g)
    (flightStartTime g) (bubbles g) (scoreRef g) (isAiThinkingRef g)
    (captureRequestRef g) (selectedColorRef g) (shotsFiredRef g)
    (bubblesEliminatedRef g) (canvas_width g) (canvas_height g)
    (initTimerPending g) (analysesScheduled g) (requestsInFlight g).

Definition set_ballVel (v : Point) (g : Game) : Game :=
  mkGame (ballPos g) v (anchorPos g) (isPinching g) (isFlying g)
    (flightStartTime g) (bubbles g) (scoreRef g) (isAiThinkingRef g)
    (captureRequestRef g) (selectedColorRef g) (shotsFiredRef g)
    (bubblesEliminatedRef g) (canvas_width g) (canvas_height g)
    (initTimerPending g) (analysesScheduled g) (requestsInFlight g).

Definition set_anchorPos (v : Point) (g : Game) : Game :=
  mkGame (ballPos g) (ballVel g) v (isPinching g) (isFlying g)
    (flightStartTime g) (bubbles g) (scoreRef g) (isAiThinkingRef g)
    (captureRequestRef g) (selectedColorRef g) (shotsFiredRef g)
    (bubblesEliminatedRef g) (canvas_width g) (canvas_height g)
    (initTimerPending g) (analysesScheduled g) (requestsInFlight g).

Definition set_isPinching (v : bool) (g : Game) : Game :=
  mkGame (ballPos g) (ballVel g) (anchorPos g) v (isFlying g)
    (flightStartTime g) (bubbles g) (scoreRef g) (isAiThinkingRef g)
    (captureRequestRef g) (selectedColorRef g) (shotsFiredRef g)
    (bubblesEliminatedRef g) (canvas_width g) (canvas_height g)
    (initTimerPending g) (analysesScheduled g) (requestsInFlight g).

Definition set_isFlying (v : bool) (g : Game) : Game :=
  mkGame (ballPos g) (ballVel g) (anchorPos g) (isPinching g) v
    (flightStartTime g) (bubbles g) (scoreRef g) (isAiThinkingRef g)
    (captureRequestRef g) (selectedColorRef g) (shotsFiredRef g)
    (bubblesEliminatedRef g) (canvas_width g) (canvas_height g)
    (initTimerPending g) (analysesScheduled g) (requestsInFlight g).

Definition set_flightStartTime (v : R) (g : Game) : Game :=
  mkGame (ballPos g) (ballVel g) (anchorPos g) (isPinching g) (isFlying g) v
    (bubbles g) (scoreRef g) (isAiThinkingRef g) (captureRequestRef g)
    (selectedColorRef g) (shotsFiredRef g) (bubblesEliminatedRef g)
    (canvas_width g) (canvas_height g) (initTimerPending g)
    (analysesScheduled g) (requestsInFlight g).

Definition set_bubbles (v : list Bubble) (g : Game) : Game :=
  mkGame (ballPos g) (ballVel g) (anchorPos g) (isPinching g) (isFlying g)
    (flightStartTime g) v (scoreRef g) (isAiThinkingRef g)
    (captureRequestRef g) (selectedColorRef g) (shotsFiredRef g)
    (bubblesEliminatedRef g) (canvas_width g) (canvas_height g)
    (initTimerPending g) (analysesScheduled g) (requestsInFlight g).

Definition set_scoreRef (v : Z) (g : Game) : Game :=
  mkGame (ballPos g) (ballVel g) (anchorPos g) (isPinching g) (isFlying g)
    (flightStartTime g) (bubbles g) v (isAiThinkingRef g) (captureRequestRef
    g) (selectedColorRef g) (shotsFiredRef g) (bubblesEliminatedRef g)
    (canvas_width g) (canvas_height g) (initTimerPending g)
    (analysesScheduled g) (requestsInFlight g).

Definition set_isAiThinkingRef (v : bool) (g : Game) : Game :=
  mkGame (ballPos g) (ballVel g) (anchorPos g) (isPinching g) (isFlying g)
    (flightStartTime g) (bubbles g) (scoreRef g) v (captureRequestRef g)
    (selectedColorRef g) (shotsFiredRef g) (bubblesEliminatedRef g)
    (canvas_width g) (canvas_height g) (initTimerPending g)
    (analysesScheduled g) (requestsInFlight g).

Definition set_captureRequestRef (v : bool) (g : Game) : Game :=
  mkGame (ballPos g) (ballVel g) (anchorPos g) (isPinching g) (isFlying g)
    (flightStartTime g) (bubbles g) (scoreRef g) (isAiThinkingRef g) v
    (selectedColorRef g) (shotsFiredRef g) (bubblesEliminatedRef g)
    (canvas_width g) (canvas_height g) (initTimerPending g)
    (analysesScheduled g) (requestsInFlight g).

Definition set_selectedColorRef (v : BubbleColor) (g : Game) : Game :=
  mkGame (ballPos g) (ballVel g) (anchorPos g) (isPinching g) (isFlying g)
    (flightStartTime g) (bubbles g) (scoreRef g) (isAiThinkingRef g)
    (captureRequestRef g) v (shotsFiredRef g) (bubblesEliminatedRef g)
    (canvas_width g) (canvas_height g) (initTimerPending g)
    (analysesScheduled g) (requestsInFlight g).

Definition set_shotsFiredRef (v : Z) (g : Game) : Game :=
  mkGame (ballPos g) (ballVel g) (anchorPos g) (isPinching g) (isFlying g)
    (flightStartTime g) (bubbles g) (scoreRef g) (isAiThinkingRef g)
    (captureRequestRef g) (selectedColorRef g) v (bubblesEliminatedRef g)
    (canvas_width g) (canvas_height g) (initTimerPending g)
    (analysesScheduled g) (requestsInFlight g).

Definition set_bubblesEliminatedRef (v : Z) (g : Game) : Game :=
  mkGame (ballPos g) (ballVel g) (anchorPos g) (isPinching g) (isFlying g)
    (flightStartTime g) (bubbles g) (scoreRef g) (isAiThinkingRef g)
    (captureRequestRef g) (selectedColorRef g) (shotsFiredRef g) v
    (canvas_width g) (canvas_height g) (initTimerPending g)
    (analysesScheduled g) (requestsInFlight g).

Definition set_canvas_width (v : R) (g : Game) : Game :=
  mkGame (ballPos g) (ballVel g) (anchorPos g) (isPinching g) (isFlying g)
    (flightStartTime g) (bubbles g) (scoreRef g) (isAiThinkingRef g)
    (captureRequestRef g) (selectedColorRef g) (shotsFiredRef g)
    (bubblesEliminatedRef g) v (canvas_height g) (initTimerPending g)
    (analysesScheduled g) (requestsInFlight g).

Definition set_canvas_height (v : R) (g : Game) : Game :=
  mkGame (ballPos g) (ballVel g) (anchorPos g) (isPinching g) (isFlying g)
    (flightStartTime g) (bubbles g) (scoreRef g) (isAiThinkingRef g)
    (captureRequestRef g) (selectedColorRef g) (shotsFiredRef g)
    (bubblesEliminatedRef g) (canvas_width g) v (initTimerPending g)
    (analysesScheduled g) (requestsInFlight g).

Definition set_initTimerPending (v : bool) (g : Game) : Game :=
  mkGame (ballPos g) (ballVel g) (anchorPos g) (isPinching g) (isFlying g)
    (flightStartTime g) (bubbles g) (scoreRef g) (isAiThinkingRef g)
    (captureRequestRef g) (selectedColorRef g) (shotsFiredRef g)
    (bubblesEliminatedRef g) (canvas_width g) (canvas_height g) v
    (analysesScheduled g) (requestsInFlight g).

Definition set_analysesScheduled (v : nat) (g : Game) : Game :=
  mkGame (ballPos g) (ballVel g) (anchorPos g) (isPinching g) (isFlying g)
    (flightStartTime g) (bubbles g) (scoreRef g) (isAiThinkingRef g)
    (captureRequestRef g) (selectedColorRef g) (shotsFiredRef g)
    (bubblesEliminatedRef g) (canvas_width g) (canvas_height g)
    (initTimerPending g) v (requestsInFlight g).

Definition set_requestsInFlight (v : nat) (g : Game) : Game :=
  mkGame (ballPos g) (ballVel g) (anchorPos g) (isPinching g) (isFlying g)
    (flightStartTime g) (bubbles g) (scoreRef g) (isAiThinkingRef g)
    (captureRequestRef g) (selectedColorRef g) (shotsFiredRef g)
    (bubblesEliminatedRef g) (canvas_width g) (canvas_height g)
    (initTimerPending g) (analysesScheduled g) v.

(** ** JavaScript numbers read as booleans *)

(** [a < b] and [a <= b] on numbers; [a > b] is [Rltb b a], [a >= b] is
    [Rleb b a]. *)
Definition Rltb (a b : R) : bool := if Rlt_dec a b then true else false.
Definition Rleb (a b : R) : bool := if Rle_dec a b then true else false.
(** [a === b] on numbers. *)
Definition Reqb (a b : R) : bool := if Req_dec_T a b then true else false.

(** [Math.ceil]. *)
Definition Math_ceil (a : R) : Z := Zceil a.

(** [Math.atan2(y, x)], by the quadrant of [(x, y)]. *)
Definition Math_atan2 (y x : R) : R :=
  if Rltb 0 x then atan (y / x)
  else if Rltb x 0 then
    (if Rleb 0 y then atan (y / x) + PI else atan (y / x) - PI)%R
  else if Rltb 0 y then (PI / 2)%R
  else if Rltb y 0 then (- PI / 2)%R
  else 0%R.

(** The distance the code computes everywhere:
    [Math.sqrt(Math.pow(ax - bx, 2) + Math.pow(ay - by, 2))]. *)
Definition distance (ax ay bx by' : R) : R :=
  sqrt ((ax - bx) ^ 2 + (ay - by') ^ 2).

(** ** Colours in play: [updateAvailableColors] (lines 137-167) *)

(** [activeColors]: a [Set], in insertion order. *)
Fixpoint addColor (c : BubbleColor) (s : list BubbleColor) : list BubbleColor :=
  match s with
  | [] => [c]
  | d :: t => if BubbleColor_eqb d c then s else d :: addColor c t
  end.

Definition activeColors (bs : list Bubble) : list BubbleColor :=
  fold_left (fun s b => if Bubble.active b then addColor (Bubble.color b) s else s)
            bs [].

Definition hasColor (s : list BubbleColor) (c : BubbleColor) : bool :=
  existsb (BubbleColor_eqb c) s.

(** [setSelectedColor] is read back through [selectedColorRef] after the
    next render; the model assigns the ref at once. The win notification
    changes no state. *)
Definition updateAvailableColors (g : Game) : Game :=
  match activeColors (bubbles g) with
  | next :: rest =>
      if negb (hasColor (next :: rest) (selectedColorRef g))
      then set_selectedColorRef next g
      else g
  | [] => g
  end.

(** ** Grid initialisation: [initGrid] (lines 169-194) *)

(** [0, 1, ..., n-1], the values of a [for] counter. *)
Definition upto (n : Z) : list Z := map Z.of_nat (seq 0 (Z.to_nat n)).

(** [r % 2 !== 0 ? GRID_COLS - 1 : GRID_COLS] *)
Definition colsInRow (r : Z) : Z :=
  if isOddRow r then GRID_COLS - 1 else GRID_COLS.

(** The cells that the two nested loops [for r < rows], [for c < colsInRow]
    visit, in the order they visit them. *)
Definition cellsOfRows (rows : Z) : list (Z * Z) :=
  flat_map (fun r => map (fun c => (r, c)) (upto (colsInRow r))) (upto rows).

(** The two calls of [Math.random()] for one cell are an input: [fill r c]
    is [None] when the first draw leaves the cell empty and the colour drawn
    otherwise. *)
Definition initGrid (width : R) (fill : Z -> Z -> option BubbleColor) : list Bubble :=
  flat_map (fun rc =>
      let '(r, c) := rc in
      match fill r c with
      | Some color =>
          let p := getBubblePos r c width in
          [Bubble.mk (showZ r ++ "-" ++ showZ c) r c (Point.x p) (Point.y p)
                     color true]
      | None => []
      end)
    (cellsOfRows 5).

(** ** Placement: the nearest free cell (lines 686-736) *)

(** [bubbles.current.some(b => b.active && b.row === r && b.col === c)] *)
Definition occupied (bs : list Bubble) (r c : Z) : bool :=
  existsb (fun b => Bubble.active b && (Bubble.row b =? r) && (Bubble.col b =? c)) bs.

(** [bestDist], [bestRow], [bestCol], [bestX], [bestY]; [bestDist = None] is
    [Infinity]. *)
Record Best : Type := mkBest {
  bestDist : option R;
  bestRow : Z;
  bestCol : Z;
  bestX : R;
  bestY : R
}.

(** [dist < bestDist] *)
Definition closer (dist : R) (bestDist : option R) : bool :=
  match bestDist with
  | None => true
  | Some d => Rltb dist d
  end.

(** The body of the inner loop for the cell [(r, c)]. *)
Definition scanCell (width : R) (bs : list Bubble) (ball : Point)
  (best : Best) (rc : Z * Z) : Best :=
  let '(r, c) := rc in
  let p := getBubblePos r c width in
  if occupied bs r c then best
  else
    let dist := distance (Point.x ball) (Point.y ball) (Point.x p) (Point.y p) in
    if closer dist (bestDist best)
    then mkBest (Some dist) r c (Point.x p) (Point.y p)
    else best.

(** The search over [r < GRID_ROWS + 5] and [c < colsInRow]. *)
Definition nearestFreeCell (width : R) (bs : list Bubble) (ball : Point) : Best :=
  fold_left (scanCell width bs ball) (cellsOfRows (GRID_ROWS + 5))
            (mkBest None 0 0 0 0).

(** The collision branch (lines 686-736) on the array, the score and the
    eliminated count: the new bubble is pushed at the cell found, with the
    selected colour, and matches are checked from it. *)
Definition placeBubble (width : R) (ball : Point) (color : BubbleColor) (now : Z)
  (bs : list Bubble) (score eliminated : Z) : MatchOutcome :=
  let best := nearestFreeCell width bs ball in
  let newBubble :=
    Bubble.mk (showZ (bestRow best) ++ "-" ++ showZ (bestCol best) ++ "-" ++ showZ now)
              (bestRow best) (bestCol best) (bestX best) (bestY best) color true in
  checkMatches (bs ++ [newBubble]) (List.length bs) score eliminated.

(** ** One frame: [onResults] (lines 467-889) *)

(** What a frame reads from outside: the container size, the first hand's
    index tip ([landmarks[8]]) and thumb tip ([landmarks[4]]) in normalised
    camera coordinates when a hand is seen, [performance.now()] (read as one
    instant for the frame) and [Date.now()]. *)
Record FrameInput : Type := mkFrame {
  clientWidth : R;
  clientHeight : R;
  multiHandLandmarks : option (Point * Point);
  performance_now : R;
  Date_now : Z
}.

(** Responsive resize (lines 470-478). *)
Definition resize (f : FrameInput) (g : Game) : Game :=
  if negb (Reqb (canvas_width g) (clientWidth f))
     || negb (Reqb (canvas_height g) (clientHeight f))
  then
    let g1 := set_canvas_height (clientHeight f)
                (set_canvas_width (clientWidth f) g) in
    let g2 := set_anchorPos
                (Point.mk (canvas_width g1 / 2)
                          (canvas_height g1 - SLINGSHOT_BOTTOM_OFFSET)) g1 in
    if negb (isFlying g2) && negb (isPinching g2)
    then set_ballPos (anchorPos g2) g2 else g2
  else g.

(** Hand tracking (lines 490-517): the cursor and the pinch distance. *)
Definition handPos (f : FrameInput) (g : Game) : option Point :=
  match multiHandLandmarks f with
  | Some (idxTip, thumbTip) =>
      Some (Point.mk
        ((Point.x idxTip * canvas_width g + Point.x thumbTip * canvas_width g) / 2)
        ((Point.y idxTip * canvas_height g + Point.y thumbTip * canvas_height g) / 2))
  | None => None
  end.

Definition pinchDist (f : FrameInput) : R :=
  match multiHandLandmarks f with
  | Some (idxTip, thumbTip) =>
      let dx := (Point.x idxTip - Point.x thumbTip)%R in
      let dy := (Point.y idxTip - Point.y thumbTip)%R in
      sqrt (dx * dx + dy * dy)
  | None => 1.0%R
  end.

(** The drag (lines 530-541): the ball follows the cursor, clamped to
    [MAX_DRAG_DIST] from the anchor. *)
Definition dragTo (hp : Point) (g : Game) : Game :=
  let a := anchorPos g in
  let dragDx := (Point.x hp - Point.x a)%R in
  let dragDy := (Point.y hp - Point.y a)%R in
  let dragDist := sqrt (dragDx * dragDx + dragDy * dragDy) in
  if Rltb MAX_DRAG_DIST dragDist
  then
    let angle := Math_atan2 dragDy dragDx in
    set_ballPos (Point.mk (Point.x a + cos angle * MAX_DRAG_DIST)
                          (Point.y a + sin angle * MAX_DRAG_DIST)) g
  else set_ballPos hp g.

(** The release without lock (lines 577-615). *)
Definition release (f : FrameInput) (g : Game) : Game :=
  let dx := (Point.x (anchorPos g) - Point.x (ballPos g))%R in
  let dy := (Point.y (anchorPos g) - Point.y (ballPos g))%R in
  let stretchDist := sqrt (dx * dx + dy * dy) in
  if Rltb 30 stretchDist
  then
    let powerRatio := Rmin (stretchDist / MAX_DRAG_DIST) 1.0 in
    let velocityMultiplier :=
      (MIN_FORCE_MULT + (MAX_FORCE_MULT - MIN_FORCE_MULT) * (powerRatio * powerRatio))%R in
    set_shotsFiredRef (shotsFiredRef g + 1)
      (set_ballVel (Point.mk (dx * velocityMultiplier) (dy * velocityMultiplier))
        (set_flightStartTime (performance_now f)
          (set_isFlying true g)))
  else set_ballPos (anchorPos g) g.

(** Not flying and not pinching: the ball eases towards the anchor (lines
    618-623). *)
Definition ease (g : Game) : Game :=
  let dx := (Point.x (anchorPos g) - Point.x (ballPos g))%R in
  let dy := (Point.y (anchorPos g) - Point.y (ballPos g))%R in
  set_ballPos (Point.mk (Point.x (ballPos g) + dx * 0.15)
                        (Point.y (ballPos g) + dy * 0.15)) g.

Definition isSome {A} (o : option A) : bool :=
  match o with Some _ => true | None => false end.

(** The slingshot logic (lines 521-623). The first branch is entered only
    with a hand position; the model's [None] case there is never taken. *)
Definition slingshot (f : FrameInput) (g : Game) : Game :=
  let isLocked := isAiThinkingRef g in
  let hand := handPos f g in
  let pinch := pinchDist f in
  if negb isLocked && isSome hand && Rltb pinch PINCH_THRESHOLD && negb (isFlying g)
  then
    match hand with
    | Some hp =>
        let distToBall :=
          distance (Point.x hp) (Point.y hp)
                   (Point.x (ballPos g)) (Point.y (ballPos g)) in
        let g1 := if negb (isPinching g) && Rltb distToBall 100
                  then set_isPinching true g else g in
        if isPinching g1 then dragTo hp g1 else g1
    | None => g
    end
  else if isPinching g && (negb (isSome hand) || Rleb PINCH_THRESHOLD pinch || isLocked)
  then
    (* release, or forced release if locked *)
    let g1 := set_isPinching false g in
    if isLocked then set_ballPos (anchorPos g1) g1 else release f g1
  else if negb (isFlying g) && negb (isPinching g)
  then ease g
  else g.

(** The collision test of one sub-step (lines 646-678): the top of the
    board, or an active bubble closer than 1.8 radii. *)
Definition hitsBubble (bs : list Bubble) (p : Point) : bool :=
  existsb (fun b => Bubble.active b
                    && Rltb (distance (Point.x p) (Point.y p) (Bubble.x b) (Bubble.y b))
                            (BUBBLE_RADIUS * 1.8))
          bs.

Definition collides (bs : list Bubble) (p : Point) : bool :=
  Rltb (Point.y p) BUBBLE_RADIUS || hitsBubble bs p.

(** The sub-step loop (lines 637-680), [n] iterations left: position,
    velocity, and whether a collision occurred. *)
Fixpoint subSteps (n : nat) (steps : R) (width : R) (bs : list Bubble)
  (pos vel : Point) : Point * Point * bool :=
  match n with
  | O => (pos, vel, false)
  | S n' =>
      let x1 := (Point.x pos + Point.x vel / steps)%R in
      let y1 := (Point.y pos + Point.y vel / steps)%R in
      let bounce := Rltb x1 BUBBLE_RADIUS || Rltb (width - BUBBLE_RADIUS) x1 in
      let vel' := if bounce then Point.mk (Point.x vel * -1) (Point.y vel) else vel in
      let x2 := if bounce
                then Rmax BUBBLE_RADIUS (Rmin (width - BUBBLE_RADIUS) x1)
                else x1 in
      let pos' := Point.mk x2 y1 in
      if collides bs pos' then (pos', vel', true)
      else subSteps n' steps width bs pos' vel'
  end.

(** Friction and gravity, once per frame (lines 682-684). *)
Definition applyFriction (vel : Point) : Point :=
  let vy := (Point.y vel + GRAVITY)%R in
  Point.mk (Point.x vel * FRICTION) (vy * FRICTION).

(** The cancelled or finished shot: [isFlying = false], ball at the anchor,
    zero velocity. *)
Definition resetShot (g : Game) : Game :=
  set_ballVel (Point.mk 0 0) (set_ballPos (anchorPos g) (set_isFlying false g)).

(** The collision branch on the game state (lines 686-736). *)
Definition land (f : FrameInput) (g : Game) : Game :=
  let g1 := set_isFlying false g in
  let r := placeBubble (canvas_width g1) (ballPos g1) (selectedColorRef g1)
                       (Date_now f) (bubbles g1) (scoreRef g1)
                       (bubblesEliminatedRef g1) in
  let g2 := set_bubblesEliminatedRef (mo_eliminated r)
              (set_scoreRef (mo_score r) (set_bubbles (mo_bubbles r) g1)) in
  let g3 := updateAvailableColors g2 in
  set_captureRequestRef true
    (set_ballVel (Point.mk 0 0) (set_ballPos (anchorPos g3) g3)).

(** Physics (lines 625-744). *)
Definition physics (f : FrameInput) (g : Game) : Game :=
  if isFlying g
  then
    if Rltb 5000 (performance_now f - flightStartTime g)
    then resetShot g
    else
      let currentSpeed := sqrt (Point.x (ballVel g) ^ 2 + Point.y (ballVel g) ^ 2) in
      let steps := Math_ceil (currentSpeed / (BUBBLE_RADIUS * 0.8)) in
      let '(pos, vel, collisionOccurred) :=
        subSteps (Z.to_nat steps) (IZR steps) (canvas_width g) (bubbles g)
                 (ballPos g) (ballVel g) in
      let g1 := set_ballVel (applyFriction vel) (set_ballPos pos g) in
      let g2 := if collisionOccurred then land f g1 else g1 in
      if Rltb (canvas_height g2) (Point.y (ballPos g2))
      then resetShot g2
      else g2
  else g.

(** The screenshot request at the end of the frame (lines 866-888): the
    analysis is scheduled with [setTimeout(..., 0)]. *)
Definition capture (g : Game) : Game :=
  if captureRequestRef g
  then set_analysesScheduled (S (analysesScheduled g))
         (set_captureRequestRef false g)
  else g.

Definition onResults (f : FrameInput) (g : Game) : Game :=
  capture (physics f (slingshot f (resize f g))).

(** ** The advisory round trip: [performAiAnalysis] (lines 375-413) *)

(** The synchronous part: the lock is taken and the request is sent. *)
Definition performAiAnalysis (g : Game) : Game :=
  set_requestsInFlight (S (requestsInFlight g)) (set_isAiThinkingRef true g).

Definition colorOfKey (s : string) : option BubbleColor :=
  find (fun c => String.eqb (colorKey c) s) COLOR_KEYS.

(** The [.then] callback: the recommended colour is equipped when the hint
    has a target, and the lock is released. A recommended colour that is no
    key of [COLOR_CONFIG] makes the next [drawBubble] throw; the model has no
    such state ([None]). *)
Definition onHint (h : StrategicHint) (g : Game) : option Game :=
  let unlock g' :=
    set_requestsInFlight (pred (requestsInFlight g')) (set_isAiThinkingRef false g') in
  match StrategicHint.targetRow h, StrategicHint.targetCol h,
        StrategicHint.recommendedColor h with
  | Some _, Some _, Some key =>
      if String.eqb key "" then Some (unlock g)
      else match colorOfKey key with
           | Some c => Some (unlock (set_selectedColorRef c g))
           | None => None
           end
  | _, _, _ => Some (unlock g)
  end.

(** ** The event loop *)

(** The tasks that run the game: a frame, the timer of [initGrid], a
    scheduled analysis, and the settling of a request with a hint. *)
Inductive Event : Type :=
| Frame (f : FrameInput)
| InitTimer
| Analysis
| Hint (h : StrategicHint).

(** One task; [None] when the task is not pending. *)
Definition step (g : Game) (e : Event) : option Game :=
  match e with
  | Frame f => Some (onResults f g)
  | InitTimer =>
      if initTimerPending g
      then Some (set_captureRequestRef true (set_initTimerPending false g))
      else None
  | Analysis =>
      match analysesScheduled g with
      | S n => Some (performAiAnalysis (set_analysesScheduled n g))
      | O => None
      end
  | Hint h =>
      match requestsInFlight g with
      | S _ => onHint h g
      | O => None
      end
  end.

Fixpoint run (g : Game) (es : list Event) : option Game :=
  match es with
  | [] => Some g
  | e :: es' =>
      match step g e with
      | Some g' => run g' es'
      | None => None
      end
  end.

(** The state after the mount effect (lines 446-462) for a container of
    [width] by [height] and the draws [fill] of [initGrid]. *)
Definition mount (width height : R) (fill : Z -> Z -> option BubbleColor) : Game :=
  let anchor := Point.mk (width / 2) (height - SLINGSHOT_BOTTOM_OFFSET) in
  updateAvailableColors
    (mkGame anchor (Point.mk 0 0) anchor false false 0
            (initGrid width fill) 0 false false red 0 0
            width height true O O).

(** The states of the running game: what a sequence of tasks leads to from
    the mount. *)
Inductive reachable : Game -> Prop :=
| reach_mount width height fill : reachable (mount width height fill)
| reach_step g e g' : reachable g -> step g e = Some g' -> reachable g'.

(** [Math.sqrt(vx ** 2 + vy ** 2)]: the speed of the ball. *)
Definition speed (g : Game) : R :=
  sqrt (Point.x (ballVel g) ^ 2 + Point.y (ballVel g) ^ 2).

(** The frames [fs], one after the other. *)
Definition frames (g : Game) (fs : list FrameInput) : Game :=
  fold_left (fun g f => onResults f g) fs g.

(** The ball is in flight after each of the frames [fs]. *)
Fixpoint staysFlying (g : Game) (fs : list FrameInput) : Prop :=
  match fs with
  | [] => True
  | f :: fs' => isFlying (onResults f g) = true /\ staysFlying (onResults f g) fs'
  end.

(** ** Predicates of the statements, and sample inputs *)

(** The end-to-end scenario of the spec: red bubbles at (0,0), (0,1), (0,2)
    and a red shot snapped into (1,0). *)
Definition redRow : list Bubble :=
  [ Bubble.mk "0-0" 0 0 258 22 red true;
    Bubble.mk "0-1" 0 1 302 22 red true;
    Bubble.mk "0-2" 0 2 346 22 red true;
    Bubble.mk "1-0-1700000000000" 1 0 280 (22 + ROW_HEIGHT) red true ].

(** [a] sorts no later than [b]: a higher potential score, or the same
    score and a row not below. *)
Definition ranksBefore (a b : TargetCandidate) : Prop :=
  potentialScore b < potentialScore a
  \/ (potentialScore a = potentialScore b
      /\ TargetCandidate.row a <= TargetCandidate.row b).

(** Three candidates: the first two tie on potential score (600), the second
    in the lower row index; the third scores less. *)
Definition sampleTargets : list TargetCandidate :=
  [ TargetCandidate.mk "3-1" "green" 3 3 1 200 "Left";
    TargetCandidate.mk "1-4" "purple" 2 1 4 300 "Center";
    TargetCandidate.mk "0-7" "orange" 1 0 7 500 "Right" ].

(** A ball in flight over an empty board, 10 px per frame straight up, in a
    canvas of 1000 by 1000. *)
Definition flightSample : Game :=
  mkGame (Point.mk 500 600) (Point.mk 0 (-10)) (Point.mk 500 780)
         false true 0 [] 0 false false red 1 0 1000 1000 false O O.

(** A frame with no hand in view. *)
Definition idleFrame (now : R) : FrameInput :=
  mkFrame 1000 1000 None now 1700000000000.

(** In the running game a dragged ball is not in flight, and a ball that is
    not in flight has no velocity. *)
Definition shotInv (g : Game) : Prop :=
  (isPinching g = true -> isFlying g = false)
  /\ (isFlying g = false -> ballVel g = Point.mk 0 0).

(** The state at mount, but for the selected colour. *)
Definition mounted (width height : R) (fill : Z -> Z -> option BubbleColor)
  (c : BubbleColor) : Game :=
  mkGame (Point.mk (width / 2) (height - SLINGSHOT_BOTTOM_OFFSET))
         (Point.mk 0 0)
         (Point.mk (width / 2) (height - SLINGSHOT_BOTTOM_OFFSET))
         false false 0 (initGrid width fill) 0 false false c 0 0
         width height true O O.

(** A 1000 by 1000 canvas over a grid drawn full and red. *)
Definition allRed : Z -> Z -> option BubbleColor := fun _ _ => Some red.

Definition startGame : Game := mount 1000 1000 allRed.

(** The hand pinches at (500, 860), 80 px under the anchor (500, 780). *)
Definition pinchFrame (now : R) : FrameInput :=
  mkFrame 1000 1000 (Some (Point.mk 0.5 0.86, Point.mk 0.5 0.86)) now 1700000000000.

(** The state after the pinch: the ball dragged to (500, 860). *)
Definition draggedGame : Game := onResults (pinchFrame 16) startGame.

(** The state after the initial timer, an idle frame and the start of the
    analysis it scheduled: the lock is set. *)
Definition lockedGame : Game :=
  performAiAnalysis
    (set_analysesScheduled 0
       (onResults (idleFrame 16)
          (set_captureRequestRef true (set_initTimerPending false startGame)))).

(** The lock taken in the middle of a drag: the pinch of [draggedGame], then
    the initial timer, a second frame of the same pinch, which takes the
    screenshot, and the start of the analysis it scheduled. The ball is held
    at (500, 860), 80 px under the anchor. *)
Definition lockedDrag : Game :=
  performAiAnalysis
    (set_analysesScheduled 0
       (onResults (pinchFrame 33)
          (set_captureRequestRef true (set_initTimerPending false draggedGame)))).

(** The distance from [ball] to the centre of the cell [(r, c)]. *)
Definition cellDistance (width : R) (ball : Point) (rc : Z * Z) : R :=
  let p := getBubblePos (fst rc) (snd rc) width in
  distance (Point.x ball) (Point.y ball) (Point.x p) (Point.y p).

(** No active bubble is at the cell. *)
Definition free (bs : list Bubble) (rc : Z * Z) : Prop :=
  occupied bs (fst rc) (snd rc) = false.

(** What the search holds after the cells [seen]: nothing while every cell
    seen is occupied, else a free cell seen, its centre and its distance,
    which no free cell seen beats. *)
Definition BestOf (width : R) (bs : list Bubble) (ball : Point)
  (seen : list (Z * Z)) (b : Best) : Prop :=
  match bestDist b with
  | None =>
      b = mkBest None 0 0 0 0 /\ forall rc, In rc seen -> ~ free bs rc
  | Some d =>
      In (bestRow b, bestCol b) seen
      /\ free bs (bestRow b, bestCol b)
      /\ d = cellDistance width ball (bestRow b, bestCol b)
      /\ Point.mk (bestX b) (bestY b) = getBubblePos (bestRow b) (bestCol b) width
      /\ forall rc, In rc seen -> free bs rc -> (d <= cellDistance width ball rc)%R
  end.

(** Thirteen bubbles down the left wall, rows 0 to 12 of column 0, in
    alternating colours, on a canvas 1000 wide. *)
Definition leftColumn : list Bubble :=
  map (fun r =>
         let p := getBubblePos r 0 1000 in
         Bubble.mk (showZ r ++ "-0") r 0 (Point.x p) (Point.y p)
                   (if Z.odd r then blue else red) true)
      (upto 13).

(** The ball stops 39 px under the centre of the bubble of row 12. *)
Definition lowBall : Point := Point.mk 258 (22 + 12 * ROW_HEIGHT + 39).

(** A colouring of the cells in which no two adjacent cells agree. *)
Definition triColor (r c : Z) : BubbleColor :=
  match (c - r / 2 - r) mod 3 with
  | 0 => red
  | 1 => blue
  | _ => green
  end.

(** No two active bubbles share a cell. *)
Definition uniqueCells (bs : list Bubble) : Prop :=
  forall i j bi bj,
    nth_error bs i = Some bi -> nth_error bs j = Some bj ->
    Bubble.active bi = true -> Bubble.active bj = true ->
    Bubble.row bi = Bubble.row bj -> Bubble.col bi = Bubble.col bj ->
    i = j.

(** The boards of the game: the grid as initialised, and then any number of
    placements, each at a position where the ball collides, with the colour
    selected at the time and the canvas width of the time. *)
Inductive boardReachable : list Bubble -> Prop :=
| board_init width fill : boardReachable (initGrid width fill)
| board_place bs width ball color now score eliminated :
    boardReachable bs ->
    collides bs ball = true ->
    boardReachable
      (mo_bubbles (placeBubble width ball color now bs score eliminated)).

(** The rows searched by the placement. *)
Definition window : list (Z * Z) := cellsOfRows (GRID_ROWS + 5).

(** The bubble [b] sits at the cell [rc], centred, active, in the colour of
    the colouring. *)
Definition tile (width : R) (rc : Z * Z) (b : Bubble) : Prop :=
  Bubble.row b = fst rc /\ Bubble.col b = snd rc
  /\ Point.mk (Bubble.x b) (Bubble.y b) = getBubblePos (fst rc) (snd rc) width
  /\ Bubble.color b = triColor (fst rc) (snd rc)
  /\ Bubble.active b = true.

(** The board holds exactly one such bubble for each of [cells], in order. *)
Definition Tiled (width : R) (cells : list (Z * Z)) (bs : list Bubble) : Prop :=
  Forall2 (tile width) cells bs.

(** The grid drawn full, in the colouring. *)
Definition triFill : Z -> Z -> option BubbleColor := fun r c => Some (triColor r c).

(** From the sixth row on, a cell has a cell above it, half a cell to the
    left or to the right, earlier in the scan. *)
Definition hasUpper (k : nat) : bool :=
  match nth_error window k with
  | Some (r, c) =>
      existsb (fun u => (fst u =? r - 1)
                        && ((snd u =? c) || (snd u =? c + (if Z.odd r then 1 else -1))))
              (firstn k window)
  | None => false
  end.

(** A collision position for the cell [rc]: 6 px above its centre. *)
Definition aim (width : R) (rc : Z * Z) : Point :=
  let p := getBubblePos (fst rc) (snd rc) width in
  Point.mk (Point.x p) (Point.y p - 6).

(** The game on a canvas of 1000 by 500 over the grid drawn full in the
    colouring; the anchor is at (500, 280), the ball on the centre line. *)
Definition raceGame (c : BubbleColor) (y vy : R) (pinching flying : bool) (t0 : R)
  (locked request : bool) (shots : Z) (timer : bool) (scheduled inFlight : nat) : Game :=
  mkGame (Point.mk 500 y) (Point.mk 0 vy) (Point.mk 500 280)
         pinching flying t0 (initGrid 1000 triFill) 0 locked request c shots 0
         1000 500 timer scheduled inFlight.

(** The hand pinches on the centre line, at the height [y] of the camera
    picture. *)
Definition raceHand (y now : R) : FrameInput :=
  mkFrame 1000 500 (Some (Point.mk 0.5 y, Point.mk 0.5 y)) now 1700000000000.

Definition raceIdle (now : R) : FrameInput :=
  mkFrame 1000 500 None now 1700000000000.

(** Pinch at (500, 370), drag to (500, 460), release; the timer of the mount
    effect fires while the ball flies, and the analysis it requests starts
    before the ball lands; the landing requests the second analysis. *)
Definition raceTrace : list Event :=
  [ Frame (raceHand 0.74 16); Frame (raceHand 0.92 33); Frame (raceIdle 50);
    InitTimer; Frame (raceIdle 66); Analysis;
    Frame (raceIdle 83); Frame (raceIdle 100); Analysis ].

(** ** Further functions of the component and of the services *)

(** [bubbles.current.filter(b => b.active).length] *)
Definition activeCount (bs : list Bubble) : nat :=
  List.length (filter Bubble.active bs).

(** A ball let go 80 px under the anchor, over an empty board, in a canvas
    of 1000 by 1000. *)
Definition draggedBack : Game :=
  mkGame (Point.mk 500 860) (Point.mk 0 0) (Point.mk 500 780)
         false false 0 [] 0 false false red 0 0 1000 1000 false O O.

(** The anchor (500, 780) of [draggedBack] with an active bubble 15 px above
    it, on the way to any target straight above. *)
Definition nearWall : Game :=
  set_bubbles [Bubble.mk "w" 17 5 500 765 blue true] draggedBack.

(** The board [redRow] over the anchor (500, 780) of [draggedBack]. *)
Definition redGame : Game := set_bubbles redRow draggedBack.

(** ** The service the component imports: [geminiService.ts] *)

Module ClusterInfo.
Record t : Type := mk {
  color : BubbleColor;
  count : Z;
  bubbles : list (Z * Z)
}.
End ClusterInfo.
Abbreviation ClusterInfo := ClusterInfo.t.

(** One iteration of the loop of [analyzeBubbles] (lines 29-39) for an
    active bubble, on the [Map] in insertion order: the entry of the
    bubble's colour, created with count 0 at the end of the map when it is
    missing, gets its count incremented and the cell pushed. *)
Fixpoint countBubble (bubble : Bubble) (clusters : list ClusterInfo) : list ClusterInfo :=
  match clusters with
  | [] => [ClusterInfo.mk (Bubble.color bubble) (0 + 1)
                          ([] ++ [(Bubble.row bubble, Bubble.col bubble)])]
  | cluster :: rest =>
      if BubbleColor_eqb (ClusterInfo.color cluster) (Bubble.color bubble)
      then ClusterInfo.mk (ClusterInfo.color cluster) (ClusterInfo.count cluster + 1)
             (ClusterInfo.bubbles cluster ++ [(Bubble.row bubble, Bubble.col bubble)])
           :: rest
      else cluster :: countBubble bubble rest
  end.

(** [analyzeBubbles] (lines 26-42). *)
Definition analyzeBubbles (bubbles : list Bubble) : list ClusterInfo :=
  sortBy (fun a b => ClusterInfo.count b - ClusterInfo.count a)
         (fold_left (fun clusters bubble =>
                       if negb (Bubble.active bubble) then clusters
                       else countBubble bubble clusters)
                    bubbles []).

(** The [TargetCandidate] of this service (lines 123-128). *)
Module Candidate.
Record t : Type := mk {
  row : Z;
  col : Z;
  clusterSize : Z;
  color : BubbleColor
}.
End Candidate.
Abbreviation Candidate := Candidate.t.

(** The key [`${bubble.row},${bubble.col}`]. *)
Definition cellKey (bubble : Bubble) : string :=
  showZ (Bubble.row bubble) ++ "," ++ showZ (Bubble.col bubble).

(** The [neighbors] of [getTargetCandidates] (lines 181-185): the active
    bubbles of the same colour in the 3 by 3 box of cells around [bubble],
    itself included. *)
Definition boxNeighbors (allBubbles : list Bubble) (bubble : Bubble) : list Bubble :=
  filter (fun b => Bubble.active b
                   && BubbleColor_eqb (Bubble.color b) (Bubble.color bubble)
                   && ((Z.abs (Bubble.row b - Bubble.row bubble) <=? 1)
                       && (Z.abs (Bubble.col b - Bubble.col bubble) <=? 1)))
         allBubbles.

(** The loop of [getTargetCandidates] (lines 175-193) over the bubbles
    [rest] still to visit. *)
Fixpoint candidatesLoop (allBubbles rest : list Bubble) (processed : list string)
  (candidates : list Candidate) : list Candidate :=
  match rest with
  | [] => candidates
  | bubble :: rest' =>
      if negb (Bubble.active bubble)
      then candidatesLoop allBubbles rest' processed candidates
      else
        let key := cellKey bubble in
        if setHas processed key
        then candidatesLoop allBubbles rest' processed candidates
        else
          candidatesLoop allBubbles rest' (key :: processed)
            (candidates
             ++ [Candidate.mk (Bubble.row bubble) (Bubble.col bubble)
                   (Z.of_nat (List.length (boxNeighbors allBubbles bubble)))
                   (Bubble.color bubble)])
  end.

(** [getTargetCandidates] (lines 171-196). *)
Definition getTargetCandidates (allBubbles : list Bubble) : list Candidate :=
  sortBy (fun a b => Candidate.clusterSize b - Candidate.clusterSize a)
         (candidatesLoop allBubbles allBubbles [] []).

(** The cells of the active bubbles of colour [c], in array order. *)
Definition cellsOfColor (c : BubbleColor) (bubbles : list Bubble) : list (Z * Z) :=
  map (fun b => (Bubble.row b, Bubble.col b))
      (filter (fun b => Bubble.active b && BubbleColor_eqb (Bubble.color b) c) bubbles).

(** The sum of the counts of the clusters. *)
Definition sumCounts (clusters : list ClusterInfo) : Z :=
  fold_right (fun k s => ClusterInfo.count k + s) 0 clusters.

(** What the map of [analyzeBubbles] holds after the bubbles [p]. *)
Record CountInv (p : list Bubble) (m : list ClusterInfo) : Prop := {
  ci_nodup : NoDup (map ClusterInfo.color m);
  ci_sum : sumCounts m = Z.of_nat (activeCount p);
  ci_entry : forall k, In k m ->
    ClusterInfo.bubbles k = cellsOfColor (ClusterInfo.color k) p
    /\ ClusterInfo.count k = Z.of_nat (List.length (ClusterInfo.bubbles k))
    /\ 1 <= ClusterInfo.count k;
  ci_cover : forall b, In b p -> Bubble.active b = true ->
    exists k, In k m /\ ClusterInfo.color k = Bubble.color b
}.

(** ** The colour helper of the renderer: [adjustColor] (lines 54-70) *)

(** [color.replace('#', '')]: the first ['#'] is removed. *)
Fixpoint removeFirstHash (s : string) : string :=
  match s with
  | EmptyString => EmptyString
  | String c t => if Ascii.eqb c "#" then t else String c (removeFirstHash t)
  end.

(** [s.substring(a, b)] for [a <= b]; both ends are clamped to the length. *)
Definition jsSubstring (a b : nat) (s : string) : string :=
  String.substring a (b - a) s.

(** The white space that [parseInt] skips, among the code units below 256:
    tab, line feed, vertical tab, form feed, carriage return, space and
    no-break space. *)
Definition isWhiteSpace (c : ascii) : bool :=
  let n := nat_of_ascii c in
  ((n =? 9) || (n =? 10) || (n =? 11) || (n =? 12) || (n =? 13) || (n =? 32)
   || (n =? 160))%nat.

Fixpoint trimStart (s : string) : string :=
  match s with
  | EmptyString => EmptyString
  | String c t => if isWhiteSpace c then trimStart t else s
  end.

(** The value of a hexadecimal digit, in either case. *)
Definition hexDigitValue (c : ascii) : option Z :=
  let n := Z.of_nat (nat_of_ascii c) in
  if (48 <=? n) && (n <=? 57) then Some (n - 48)
  else if (97 <=? n) && (n <=? 102) then Some (n - 87)
  else if (65 <=? n) && (n <=? 70) then Some (n - 55)
  else None.

(** The value of the longest prefix of hexadecimal digits; [acc] is the
    value of the digits read so far, [None] when none was read. *)
Fixpoint hexPrefix (s : string) (acc : option Z) : option Z :=
  match s with
  | EmptyString => acc
  | String c t =>
      match hexDigitValue c with
      | Some d => hexPrefix t (Some (16 * match acc with Some a => a | None => 0 end + d))
      | None => acc
      end
  end.

(** [parseInt(s, 16)]: white space is skipped, then a sign, then a prefix
    [0x] or [0X]; the longest run of hexadecimal digits is read; [None] is
    NaN, the result when there is no digit. (The model is exact for the
    strings of at most two characters that [adjustColor] passes.) *)
Definition parseInt16 (s : string) : option Z :=
  let s1 := trimStart s in
  let '(sign, s2) :=
    match s1 with
    | String c t =>
        if Ascii.eqb c "-" then (-1, t)
        else if Ascii.eqb c "+" then (1, t)
        else (1, s1)
    | EmptyString => (1, s1)
    end in
  let s3 :=
    match s2 with
    | String c (String x t) =>
        if Ascii.eqb c "0" && (Ascii.eqb x "x" || Ascii.eqb x "X") then t else s2
    | _ => s2
    end in
  match hexPrefix s3 None with
  | Some v => Some (sign * v)
  | None => None
  end.

(** [Math.max(0, Math.min(255, p + amount))]; NaN stays NaN. *)
Definition clampChannel (p : option Z) (amount : Z) : option Z :=
  match p with
  | Some v => Some (Z.max 0 (Z.min 255 (v + amount)))
  | None => None
  end.

(** The digit [d] of [0..15] in lower case. *)
Definition hexChar (d : Z) : ascii :=
  if d <? 10 then ascii_of_nat (Z.to_nat (48 + d)) else ascii_of_nat (Z.to_nat (87 + d)).

(** [c.toString(16)] for an integer [c] of [0..255], the values that the
    clamp lets through. *)
Definition toString16 (c : Z) : string :=
  if c <? 16 then String (hexChar c) EmptyString
  else String (hexChar (c / 16)) (String (hexChar (c mod 16)) EmptyString).

(** [componentToHex]; NaN prints as [NaN], of length 3. *)
Definition componentToHex (c : option Z) : string :=
  match c with
  | Some v =>
      let hex := toString16 v in
      if (String.length hex =? 1)%nat then "0" ++ hex else hex
  | None => "NaN"
  end.

(** The channel that [adjustColor] reads at [hex.substring(a, a + 2)]. *)
Definition channel (a : nat) (color : string) : option Z :=
  parseInt16 (jsSubstring a (a + 2) (removeFirstHash color)).

(** [adjustColor], for an integer [amount] (the call sites pass -60 and
    -80). *)
Definition adjustColor (color : string) (amount : Z) : string :=
  let hex := removeFirstHash color in
  let r := clampChannel (parseInt16 (jsSubstring 0 2 hex)) amount in
  let g := clampChannel (parseInt16 (jsSubstring 2 4 hex)) amount in
  let b := clampChannel (parseInt16 (jsSubstring 4 6 hex)) amount in
  "#" ++ componentToHex r ++ componentToHex g ++ componentToHex b.

(** A colour in the notation of [COLOR_CONFIG]: ['#'] and six hexadecimal
    digits. *)
Definition isHexColor (s : string) : bool :=
  match s with
  | String h (String c1 (String c2 (String c3 (String c4 (String c5
      (String c6 EmptyString)))))) =>
      Ascii.eqb h "#"
      && forallb (fun c => match hexDigitValue c with Some _ => true | None => false end)
                 [c1; c2; c3; c4; c5; c6]
  | _ => false
  end.

(** [COLOR_CONFIG[c].hex] *)
Definition hexOf (c : BubbleColor) : string :=
  match c with
  | red => "#ef5350" | blue => "#42a5f5" | green => "#66bb6a"
  | yellow => "#ffee58" | purple => "#ab47bc" | orange => "#ffa726"
  end.

(** ** Candidates for the advisory call: [isPathClear] and
       [getAllReachableClusters] (lines 209-290) *)

(** [isPathClear] (lines 209-236): the segment from the anchor to the
    target is sampled at [i / steps] for [1 <= i < steps - 2]; a sample
    closer than 1.8 radii to an active bubble other than the target blocks
    the path. ([anchorPos.current] is an object from the first render on:
    the test for null never succeeds.) *)
Definition isPathClear (g : Game) (target : Bubble) : bool :=
  let startX := Point.x (anchorPos g) in
  let startY := Point.y (anchorPos g) in
  let endX := Bubble.x target in
  let endY := Bubble.y target in
  let dx := (endX - startX)%R in
  let dy := (endY - startY)%R in
  let distance := sqrt (dx * dx + dy * dy) in
  let steps := Math_ceil (distance / (BUBBLE_RADIUS / 2)) in
  forallb (fun i =>
      let t := (IZR i / IZR steps)%R in
      let cx := (startX + dx * t)%R in
      let cy := (startY + dy * t)%R in
      forallb (fun b =>
          if negb (Bubble.active b) || String.eqb (Bubble.id b) (Bubble.id target)
          then true
          else
            let distSq := ((cx - Bubble.x b) ^ 2 + (cy - Bubble.y b) ^ 2)%R in
            negb (Rltb distSq ((BUBBLE_RADIUS * 1.8) ^ 2)))
        (bubbles g))
    (map (fun k => 1 + k) (upto (steps - 3))).

(** [Array.prototype.sort] with a comparator that returns a JavaScript
    number: the stable insertion sort, as [sortBy]. *)
Fixpoint insertByR {A} (compare : A -> A -> R) (a : A) (l : list A) : list A :=
  match l with
  | [] => [a]
  | b :: t => if Rleb (compare a b) 0 then a :: b :: t else b :: insertByR compare a t
  end.

Definition sortByR {A} (compare : A -> A -> R) (l : list A) : list A :=
  fold_right (insertByR compare) [] l.

(** The [while (queue.length > 0)] loop (lines 251-263): [shift] takes the
    head of the queue; the neighbours are filtered against [visited] as it
    is before any of them is added. One unit of fuel is one iteration;
    [None] is fuel exhausted. *)
Fixpoint bfsCluster (fuel : nat) (activeBubbles : list Bubble) (color : BubbleColor)
  (queue : list Bubble) (visited : list string) (clusterMembers : list Bubble)
  : option (list Bubble * list string) :=
  match fuel with
  | O => None
  | S fuel' =>
      match queue with
      | [] => Some (clusterMembers, visited)
      | curr :: rest =>
          let neighbors :=
            filter (fun n => negb (setHas visited (Bubble.id n))
                             && BubbleColor_eqb (Bubble.color n) color
                             && isNeighbor curr n)
                   activeBubbles in
          bfsCluster fuel' activeBubbles color (rest ++ neighbors)
                     (fold_left (fun v n => Bubble.id n :: v) neighbors visited)
                     (clusterMembers ++ [curr])
      end
  end.

(** [desc] (lines 271-273). *)
Definition describeX (xPct : R) : string :=
  if Rltb xPct 0.33 then "Left"
  else if Rltb 0.66 xPct then "Right"
  else "Center".

(** The loop [for (const b of activeBubbles)] for one colour (lines
    247-287), over the bubbles [rest] still to visit. [containerWidth] is
    [gameContainerRef.current?.clientWidth || window.innerWidth]. *)
Fixpoint clustersOfColor (g : Game) (containerWidth : R) (activeBubbles : list Bubble)
  (color : BubbleColor) (rest : list Bubble) (visited : list string)
  (allClusters : list TargetCandidate) : option (list TargetCandidate) :=
  match rest with
  | [] => Some allClusters
  | b :: rest' =>
      if negb (BubbleColor_eqb (Bubble.color b) color) || setHas visited (Bubble.id b)
      then clustersOfColor g containerWidth activeBubbles color rest' visited allClusters
      else
        match bfsCluster (S (List.length activeBubbles)) activeBubbles color [b]
                         (Bubble.id b :: visited) [] with
        | None => None
        | Some (clusterMembers, visited') =>
            let sorted := sortByR (fun a b => (Bubble.y b - Bubble.y a)%R) clusterMembers in
            match find (isPathClear g) sorted with
            | Some hittableMember =>
                let xPct := (Bubble.x hittableMember / containerWidth)%R in
                clustersOfColor g containerWidth activeBubbles color rest' visited'
                  (allClusters
                   ++ [TargetCandidate.mk (Bubble.id hittableMember) (colorKey color)
                         (Z.of_nat (List.length clusterMembers))
                         (Bubble.row hittableMember) (Bubble.col hittableMember)
                         (points color) (describeX xPct)])
            | None =>
                clustersOfColor g containerWidth activeBubbles color rest' visited'
                                allClusters
            end
        end
  end.

(** [getAllReachableClusters] (lines 238-290); [None] when a flood fill ran
    out of fuel, which the fuel given here never does. *)
Definition getAllReachableClusters (g : Game) (containerWidth : R)
  : option (list TargetCandidate) :=
  let activeBubbles := filter Bubble.active (bubbles g) in
  let uniqueColors := activeColors activeBubbles in
  fold_left (fun acc color =>
               match acc with
               | Some allClusters =>
                   clustersOfColor g containerWidth activeBubbles color activeBubbles []
                                   allClusters
               | None => None
               end)
            uniqueColors (Some []).

(** What a candidate of [getAllReachableClusters] is, for the state [g]: it
    names an active bubble of the array whose path from the anchor is
    clear, with the key and the point value of its colour, and a cluster
    size between 1 and the number of active bubbles. *)
Definition candidateOf (g : Game) (t : TargetCandidate) : Prop :=
  exists m,
    In m (bubbles g) /\ Bubble.active m = true
    /\ TargetCandidate.id t = Bubble.id m
    /\ TargetCandidate.row t = Bubble.row m
    /\ TargetCandidate.col t = Bubble.col m
    /\ TargetCandidate.color t = colorKey (Bubble.color m)
    /\ TargetCandidate.pointsPerBubble t = points (Bubble.color m)
    /\ isPathClear g m = true
    /\ 1 <= TargetCandidate.size t <= Z.of_nat (activeCount (bubbles g))
    /\ (TargetCandidate.description t = "Left"
        \/ TargetCandidate.description t = "Center"
        \/ TargetCandidate.description t = "Right").

(** ** The answer of the service: the text handed to [JSON.parse]
       (part_007, lines 152-162) *)

(** [text.indexOf(c)]; [None] is -1. *)
Fixpoint indexOf (c : ascii) (s : string) : option nat :=
  match s with
  | EmptyString => None
  | String a t => if Ascii.eqb a c then Some O else option_map S (indexOf c t)
  end.

(** [text.lastIndexOf(c)]; [None] is -1. *)
Fixpoint lastIndexOf (c : ascii) (s : string) : option nat :=
  match s with
  | EmptyString => None
  | String a t =>
      match lastIndexOf c t with
      | Some i => Some (S i)
      | None => if Ascii.eqb a c then Some O else None
      end
  end.

(** The text between the first ['{'] and the last ['}'], when both exist in
    this order, and else the text as it is; [responseText] is
    [response.text], [None] when it is undefined. *)
Definition extractJson (responseText : option string) : string :=
  let text :=
    match responseText with
    | Some t => if String.eqb t "" then "{}" else t
    | None => "{}"
    end in
  match indexOf "{" text, lastIndexOf "}" text with
  | Some firstBrace, Some lastBrace =>
      if (firstBrace <? lastBrace)%nat
      then jsSubstring firstBrace (lastBrace + 1) text
      else text
  | _, _ => text
  end.

(** ** The advisory service the component imports: [getStrategicHint] of
       [geminiService.ts] (lines 104-168) *)

Module GeminiService.

(** What [callGemini] did with one request: it threw (no API key, the
    network, the SDK), or it returned the text of the answer. *)
Inductive CallOutcome : Type :=
| Threw (error : string)
| Returned (rawResponse : string).

(** [responseText.match(/\{[\s\S]*\}/)]: the leftmost ['{'] that has a ['}']
    after it, up to the last ['}']; [None] when there is no match. *)
Definition jsonMatch (responseText : string) : option string :=
  match indexOf "{" responseText, lastIndexOf "}" responseText with
  | Some firstBrace, Some lastBrace =>
      if (firstBrace <? lastBrace)%nat
      then Some (jsSubstring firstBrace (lastBrace + 1) responseText)
      else None
  | _, _ => None
  end.

(** [responseText.split('\n')[0]] *)
Fixpoint firstLine (s : string) : string :=
  match s with
  | EmptyString => EmptyString
  | String c t => if Ascii.eqb c "010" then EmptyString else String c (firstLine t)
  end.

Fixpoint trimEnd (s : string) : string :=
  match s with
  | EmptyString => EmptyString
  | String c t =>
      match trimEnd t with
      | EmptyString => if isWhiteSpace c then EmptyString else String c EmptyString
      | t' => String c t'
      end
  end.

(** [String.prototype.trim] *)
Definition trim (s : string) : string := trimEnd (trimStart s).

Definition defaultMessage : string :=
  "Aim for the largest cluster to maximize eliminations.".

Section Service.

(** [JSON.parse] on the matched text: the object it returns, read as a
    [StrategicHint], or [None] when it throws. *)
Variable JSON_parse : string -> option StrategicHint.

(** [parseGeminiResponse] (lines 104-121). *)
Definition parseGeminiResponse (responseText : string) : StrategicHint :=
  let fallback :=
    let message := trim (firstLine responseText) in
    StrategicHint.mk (if String.eqb message EmptyString then defaultMessage else message)
                     (Some "AI analysis completed") None None None in
  match jsonMatch responseText with
  | Some jsonText =>
      match JSON_parse jsonText with
      | Some parsed => parsed
      | None => fallback
      end
  | None => fallback
  end.

(** [getStrategicHint] (lines 130-168); the arguments [allBubbles] and
    [maxRow] go into the prompt and into the debug record only. *)
Definition getStrategicHint (outcome : CallOutcome) : AiResponse :=
  match outcome with
  | Returned rawResponse => mkAiResponse (parseGeminiResponse rawResponse) None
  | Threw error =>
      mkAiResponse
        (StrategicHint.mk defaultMessage (Some "AI unavailable - using default strategy")
                          None None None)
        (Some error)
  end.

End Service.

(** A stand-in for [JSON.parse] on sample inputs: it rejects the text
    [{oops}] and reads any other text as a hint that targets the cell (0, 0)
    in red. *)
Definition sampleParse (jsonText : string) : option StrategicHint :=
  if String.eqb jsonText "{oops}" then None
  else Some (StrategicHint.mk "Shoot" None (Some 0) (Some 0) (Some "red")).

(** An answer of two lines whose first line holds the text [{oops}]. *)
Definition sampleAnswer : string :=
  "  Aim left {oops} " ++ String "010" "then right".

End GeminiService.

(** ** The row reported to the service *)

(** [maxRow] of [performAiAnalysis] (line 386):
    [bubbles.current.reduce((max, b) => b.active ? Math.max(max, b.row) : max, 0)]. *)
Definition maxRow (bubbles : list Bubble) : Z :=
  fold_left (fun max b => if Bubble.active b then Z.max max (Bubble.row b) else max)
            bubbles 0.


(* ================================================================== *)
(** * Part II. Theorems                                                *)
(* ================================================================== *)

(** ** Grid geometry *)

Lemma isOddRow_odd (r : Z) : isOddRow r = Z.odd r.
Proof.
  unfold isOddRow.
  assert (H : forall a, 0 <= a -> negb (Z.rem a 2 =? 0) = Z.odd a).
  { intros a Ha. rewrite Z.rem_mod_nonneg by lia. rewrite Zmod_odd.
    destruct (Z.odd a); reflexivity. }
  destruct (Z_le_gt_dec 0 r) as [Hr|Hr].
  - apply H; exact Hr.
  - replace r with (- (- r)) by lia.
    rewrite Z.rem_opp_l by lia. rewrite Z.odd_opp.
    rewrite <- (H (- r)) by lia.
    destruct (Z.eqb_spec (Z.rem (- r) 2) 0) as [E|E].
    + rewrite E. reflexivity.
    + destruct (Z.eqb_spec (- Z.rem (- r) 2) 0); [lia | reflexivity].
Qed.

(** The code's test, read on the two coordinates. *)
Lemma isNeighbor_cases (a b : Bubble) :
  isNeighbor a b = true <->
  let dr := Bubble.row b - Bubble.row a in
  let dc := Bubble.col b - Bubble.col a in
  (dr = 0 /\ (dc = 1 \/ dc = -1))
  \/ ((dr = 1 \/ dr = -1)
      /\ if Z.odd (Bubble.row a) then dc = 0 \/ dc = 1 else dc = -1 \/ dc = 0).
Proof.
  unfold isNeighbor. rewrite isOddRow_odd. cbv zeta.
  set (dr := Bubble.row b - Bubble.row a).
  set (dc := Bubble.col b - Bubble.col a).
  destruct (Z.gtb_spec (Z.abs dr) 1) as [Hgt|Hle].
  { split; [discriminate | lia]. }
  destruct (Z.eqb_spec dr 0) as [H0|H0].
  { rewrite Z.eqb_eq. split; lia. }
  destruct (Z.odd (Bubble.row a));
    rewrite orb_true_iff, !Z.eqb_eq; split; lia.
Qed.

Lemma odd_succ_row (r r' : Z) :
  r' - r = 1 \/ r' - r = -1 -> Z.odd r' = negb (Z.odd r).
Proof.
  intros [H|H].
  - replace r' with (Z.succ r) by lia.
    rewrite Z.odd_succ, Zodd_even_bool. destruct (Z.even r); reflexivity.
  - replace r' with (Z.pred r) by lia.
    rewrite Z.odd_pred, Zodd_even_bool. destruct (Z.even r); reflexivity.
Qed.

(** C2. The adjacency test is the hex rule of the spec: same row and columns
    one apart, or rows one apart and the column offset 0 or 1 from an odd
    row, -1 or 0 from an even row; the offsets it accepts from a cell are
    exactly six, and pairwise different. *)
Theorem isNeighbor_hex_rule (a b : Bubble) :
  (isNeighbor a b = true <-> hexAdjacent a b)
  /\ (isNeighbor a b = true <->
      In (Bubble.row b - Bubble.row a, Bubble.col b - Bubble.col a)
         (hexDirections (Z.odd (Bubble.row a))))
  /\ List.length (hexDirections (Z.odd (Bubble.row a))) = 6%nat
  /\ NoDup (hexDirections (Z.odd (Bubble.row a))).
Proof.
  split; [| split; [| split]].
  - rewrite isNeighbor_cases. unfold hexAdjacent. cbv zeta.
    rewrite (Zodd_even_bool (Bubble.row a)) at 2.
    destruct (Z.odd (Bubble.row a)) eqn:Ho.
    + assert (He : Z.even (Bubble.row a) = false)
        by (rewrite Zodd_even_bool in Ho; destruct (Z.even (Bubble.row a)); [discriminate | reflexivity]).
      rewrite He. split.
      * intros [[Hr Hc]|[Hr Hc]]; [left; lia | right].
        split; [lia | split; [intros _; exact Hc | discriminate]].
      * intros [[Hr Hc]|[Hr [Hc _]]]; [left; lia | right].
        split; [lia | apply Hc; reflexivity].
    + assert (He : Z.even (Bubble.row a) = true)
        by (rewrite Zodd_even_bool in Ho; destruct (Z.even (Bubble.row a)); [reflexivity | discriminate]).
      rewrite He. split.
      * intros [[Hr Hc]|[Hr Hc]]; [left; lia | right].
        split; [lia | split; [discriminate | intros _; exact Hc]].
      * intros [[Hr Hc]|[Hr [_ Hc]]]; [left; lia | right].
        split; [lia | apply Hc; reflexivity].
  - rewrite isNeighbor_cases. cbv zeta.
    destruct (Z.odd (Bubble.row a)); simpl; split.
    + intros [[Hr [Hc|Hc]]|[[Hr|Hr] [Hc|Hc]]]; rewrite Hr, Hc; tauto.
    + intros H; repeat (destruct H as [H|H]; [inversion H; lia |]); contradiction.
    + intros [[Hr [Hc|Hc]]|[[Hr|Hr] [Hc|Hc]]]; rewrite Hr, Hc; tauto.
    + intros H; repeat (destruct H as [H|H]; [inversion H; lia |]); contradiction.
  - destruct (Z.odd (Bubble.row a)); reflexivity.
  - destruct (Z.odd (Bubble.row a)); simpl;
      repeat (constructor; [simpl; intros H;
        repeat (destruct H as [H|H]; [discriminate H |]); exact H |]);
      constructor.
Qed.

(** C10. Adjacency is symmetric. *)
Theorem isNeighbor_sym (a b : Bubble) :
  isNeighbor a b = true <-> isNeighbor b a = true.
Proof.
  rewrite !isNeighbor_cases. cbv zeta.
  set (dr := Bubble.row b - Bubble.row a).
  set (dc := Bubble.col b - Bubble.col a).
  replace (Bubble.row a - Bubble.row b) with (- dr) by (unfold dr; lia).
  replace (Bubble.col a - Bubble.col b) with (- dc) by (unfold dc; lia).
  split.
  - intros [[Hr Hc]|[Hr Hc]]; [left; lia | right].
    split; [lia |].
    rewrite (odd_succ_row (Bubble.row a) (Bubble.row b)) by exact Hr.
    destruct (Z.odd (Bubble.row a)); simpl; lia.
  - intros [[Hr Hc]|[Hr Hc]]; [left; lia | right].
    split; [lia |].
    assert (Hr' : Bubble.row b - Bubble.row a = 1 \/ Bubble.row b - Bubble.row a = -1)
      by (fold dr; lia).
    rewrite (odd_succ_row (Bubble.row a) (Bubble.row b)) in Hc by exact Hr'.
    destruct (Z.odd (Bubble.row a)); simpl in Hc; lia.
Qed.

(** ** Cluster analysis *)

Lemma BubbleColor_eqb_eq (c d : BubbleColor) :
  BubbleColor_eqb c d = true <-> c = d.
Proof. destruct c, d; simpl; split; intros H; try reflexivity; discriminate. Qed.

Lemma setHas_cons (v : list string) (s t : string) :
  setHas (t :: v) s = (String.eqb s t || setHas v s)%bool.
Proof. reflexivity. Qed.

Lemma refsWhere_In (p : Bubble -> bool) (bs : list Bubble) (j : nat) :
  In j (refsWhere p bs) <-> exists b, nth_error bs j = Some b /\ p b = true.
Proof.
  unfold refsWhere. rewrite filter_In, in_seq. split.
  - intros [_ H]. destruct (nth_error bs j) as [b|]; [| discriminate].
    exists b. split; [reflexivity | exact H].
  - intros [b [Hb Hp]]. split.
    + assert (j < List.length bs)%nat by (apply nth_error_Some; congruence). lia.
    + rewrite Hb. exact Hp.
Qed.

Lemma filter_length_mono {A} (p q : A -> bool) (l : list A) :
  (forall a, In a l -> q a = true -> p a = true) ->
  (List.length (filter q l) <= List.length (filter p l))%nat.
Proof.
  induction l as [|a l IH]; intros H; simpl; [lia |].
  assert (IH' := IH (fun b Hb => H b (or_intror Hb))).
  destruct (q a) eqn:Hq.
  - rewrite (H a (or_introl eq_refl) Hq). simpl. lia.
  - destruct (p a); simpl; lia.
Qed.

Lemma filter_length_lt {A} (p q : A -> bool) (l : list A) (x : A) :
  (forall a, In a l -> q a = true -> p a = true) ->
  In x l -> p x = true -> q x = false ->
  (List.length (filter q l) < List.length (filter p l))%nat.
Proof.
  induction l as [|a l IH]; intros H Hin Hp Hq; simpl; [contradiction |].
  assert (Hle := filter_length_mono p q l (fun b Hb => H b (or_intror Hb))).
  destruct Hin as [->|Hin].
  - rewrite Hp, Hq. simpl. lia.
  - assert (IH' := IH (fun b Hb => H b (or_intror Hb)) Hin Hp Hq).
    destruct (q a) eqn:Hqa.
    + rewrite (H a (or_introl eq_refl) Hqa). simpl. lia.
    + destruct (p a); simpl; lia.
Qed.

Lemma refsWhere_length (p : Bubble -> bool) (bs : list Bubble) :
  (List.length (refsWhere p bs) <= List.length bs)%nat.
Proof.
  unfold refsWhere.
  etransitivity; [apply filter_length_le |].
  rewrite length_seq. apply Nat.le_refl.
Qed.

Lemma updateAt_length (i : nat) (f : Bubble -> Bubble) (bs : list Bubble) :
  List.length (updateAt i f bs) = List.length bs.
Proof.
  revert i. induction bs as [|b t IH]; intros [|i]; simpl; auto.
Qed.

Lemma updateAt_nth (i j : nat) (f : Bubble -> Bubble) (bs : list Bubble) :
  nth_error (updateAt i f bs) j =
  if Nat.eqb i j then option_map f (nth_error bs j) else nth_error bs j.
Proof.
  revert i j. induction bs as [|b t IH]; intros [|i] [|j]; simpl; auto.
  destruct (Nat.eqb _ _); reflexivity.
Qed.

Section FloodFill.

Variable bs : list Bubble.
Variable tc : BubbleColor.
Variable start : nat.
Variable s0 : Bubble.
Hypothesis ids_unique : NoDup (map Bubble.id bs).
Hypothesis start_valid : nth_error bs start = Some s0.
Hypothesis start_color : Bubble.color s0 = tc.

(** With unique ids an id names one reference. *)
Lemma same_id_same_ref (i j : nat) (bi bj : Bubble) :
  nth_error bs i = Some bi -> nth_error bs j = Some bj ->
  Bubble.id bi = Bubble.id bj -> i = j.
Proof.
  intros Hi Hj Hid.
  apply (proj1 (NoDup_nth_error (map Bubble.id bs)) ids_unique).
  - rewrite length_map. apply nth_error_Some. congruence.
  - rewrite !nth_error_map, Hi, Hj. simpl. congruence.
Qed.

(** References whose id is not yet in [visited]. *)
Definition unvisited (visited : list string) : nat :=
  List.length (refsWhere (fun b => negb (setHas visited (Bubble.id b))) bs).

(** The loop invariant of the flood fill. *)
Record FillInv (toCheck : list nat) (visited : list string) (matches : list nat)
  : Prop := {
  inv_stack : forall i, In i toCheck ->
    i = start \/
    exists m bm bi, In m matches /\ nth_error bs m = Some bm /\
      nth_error bs i = Some bi /\ isNeighbor bm bi = true /\
      Bubble.active bi = true;
  inv_matches : forall m, In m matches ->
    inCluster bs tc start m /\
    exists bm, nth_error bs m = Some bm /\ setHas visited (Bubble.id bm) = true;
  inv_visited : forall i b, nth_error bs i = Some b ->
    setHas visited (Bubble.id b) = true -> Bubble.color b = tc -> In i matches;
  inv_closed : forall m bm j bj, In m matches ->
    nth_error bs m = Some bm -> nth_error bs j = Some bj ->
    isNeighbor bm bj = true -> Bubble.active bj = true ->
    setHas visited (Bubble.id bj) = true \/ In j toCheck;
  inv_start : setHas visited (Bubble.id s0) = true \/ In start toCheck;
  inv_nodup : NoDup matches
}.

Lemma FillInv_init : FillInv [start] [] [].
Proof.
  constructor; simpl; try contradiction.
  - intros i [<-|[]]. left. reflexivity.
  - intros i b _ H. discriminate.
  - right. left. reflexivity.
  - constructor.
Qed.

(** Popping a reference whose id was visited. *)
Lemma FillInv_skip cur rest visited matches current :
  FillInv (cur :: rest) visited matches ->
  nth_error bs cur = Some current ->
  setHas visited (Bubble.id current) = true ->
  FillInv rest visited matches.
Proof.
  intros [Hs Hm Hv Hc H0 Hn] Hcur Hvis. constructor; auto.
  - intros i Hi. apply Hs. right. exact Hi.
  - intros m bm j bj Hin Hbm Hbj Hnb Hact.
    destruct (Hc m bm j bj Hin Hbm Hbj Hnb Hact) as [H|[<-|H]]; auto.
    left. congruence.
  - destruct H0 as [H|[<-|H]]; auto.
    left. congruence.
Qed.

(** Popping a fresh reference of another colour. *)
Lemma FillInv_other cur rest visited matches current :
  FillInv (cur :: rest) visited matches ->
  nth_error bs cur = Some current ->
  setHas visited (Bubble.id current) = false ->
  Bubble.color current <> tc ->
  FillInv rest (Bubble.id current :: visited) matches.
Proof.
  intros [Hs Hm Hv Hc H0 Hn] Hcur Hvis Hcol. constructor; auto.
  - intros i Hi. apply Hs. right. exact Hi.
  - intros m Hin. destruct (Hm m Hin) as [H1 [bm [H2 H3]]].
    split; [exact H1 |]. exists bm. split; [exact H2 |].
    rewrite setHas_cons, H3. apply orb_true_r.
  - intros i b Hb Hvb Hcb. rewrite setHas_cons in Hvb.
    apply orb_true_iff in Hvb. destruct Hvb as [Heq|Hvb]; [| eauto].
    apply String.eqb_eq in Heq.
    assert (i = cur) by (eapply same_id_same_ref; eauto). subst i.
    congruence.
  - intros m bm j bj Hin Hbm Hbj Hnb Hact. rewrite setHas_cons.
    destruct (Hc m bm j bj Hin Hbm Hbj Hnb Hact) as [H|[<-|H]]; auto.
    + left. rewrite H. apply orb_true_r.
    + left. replace bj with current by congruence.
      rewrite String.eqb_refl. reflexivity.
  - rewrite setHas_cons. destruct H0 as [H|[<-|H]]; auto.
    + left. rewrite H. apply orb_true_r.
    + left. replace s0 with current by congruence.
      rewrite String.eqb_refl. reflexivity.
Qed.

(** Popping a fresh reference of the target colour. *)
Lemma FillInv_match cur rest visited matches current :
  FillInv (cur :: rest) visited matches ->
  nth_error bs cur = Some current ->
  setHas visited (Bubble.id current) = false ->
  Bubble.color current = tc ->
  let visited' := Bubble.id current :: visited in
  let neighbors :=
    refsWhere (fun b => Bubble.active b
                        && negb (setHas visited' (Bubble.id b))
                        && isNeighbor current b) bs in
  FillInv (rev neighbors ++ rest) visited' (matches ++ [cur]).
Proof.
  intros [Hs Hm Hv Hc H0 Hn] Hcur Hvis Hcol visited' neighbors.
  assert (Hfresh : ~ In cur matches).
  { intros Hin. destruct (Hm cur Hin) as [_ [bm [H2 H3]]]. congruence. }
  assert (Hcl : inCluster bs tc start cur).
  { destruct (Hs cur (or_introl eq_refl)) as [->|[m [bm [bi [Hin [Hbm [Hbi [Hnb Hact]]]]]]]].
    - constructor.
    - apply (cluster_step bs tc start m cur bm bi); auto.
      + apply Hm. exact Hin.
      + congruence. }
  constructor.
  - intros i Hi. apply in_app_or in Hi. destruct Hi as [Hi|Hi].
    + apply in_rev in Hi. apply refsWhere_In in Hi.
      destruct Hi as [b [Hb Hp]].
      apply andb_true_iff in Hp. destruct Hp as [Hp Hnb].
      apply andb_true_iff in Hp. destruct Hp as [Hact _].
      right. exists cur, current, b. rewrite in_app_iff. simpl. auto 10.
    + destruct (Hs i (or_intror Hi)) as [->|[m [bm [bi [Hin H]]]]]; [left; reflexivity |].
      right. exists m, bm, bi. rewrite in_app_iff. auto.
  - intros m Hin. apply in_app_or in Hin. destruct Hin as [Hin|[<-|[]]].
    + destruct (Hm m Hin) as [H1 [bm [H2 H3]]].
      split; [exact H1 |]. exists bm. split; [exact H2 |].
      unfold visited'. rewrite setHas_cons, H3. apply orb_true_r.
    + split; [exact Hcl |]. exists current. split; [exact Hcur |].
      unfold visited'. rewrite setHas_cons, String.eqb_refl. reflexivity.
  - intros i b Hb Hvb Hcb. unfold visited' in Hvb. rewrite setHas_cons in Hvb.
    rewrite in_app_iff. simpl.
    apply orb_true_iff in Hvb. destruct Hvb as [Heq|Hvb]; [| eauto].
    apply String.eqb_eq in Heq.
    right. left. symmetry. eapply same_id_same_ref; eauto.
  - intros m bm j bj Hin Hbm Hbj Hnb Hact.
    destruct (setHas visited' (Bubble.id bj)) eqn:Hvj; [left; reflexivity | right].
    rewrite in_app_iff.
    apply in_app_or in Hin. destruct Hin as [Hin|[<-|[]]].
    + destruct (Hc m bm j bj Hin Hbm Hbj Hnb Hact) as [H|[<-|H]]; auto.
      * unfold visited' in Hvj. rewrite setHas_cons, H, orb_true_r in Hvj.
        discriminate.
      * replace bj with current in Hvj by congruence.
        unfold visited' in Hvj. rewrite setHas_cons, String.eqb_refl in Hvj.
        discriminate.
    + left. apply -> in_rev. apply refsWhere_In. exists bj.
      split; [exact Hbj |].
      replace bm with current in Hnb by congruence.
      rewrite Hact, Hvj, Hnb. reflexivity.
  - unfold visited'. rewrite setHas_cons. destruct H0 as [H|[<-|H]].
    + left. rewrite H. apply orb_true_r.
    + left. replace s0 with current by congruence.
      rewrite String.eqb_refl. reflexivity.
    + right. apply in_or_app. right. exact H.
  - apply NoDup_app; [exact Hn | constructor; [intros [] | constructor] |].
    intros a Ha [<-|[]]. exact (Hfresh Ha).
Qed.

(** When the stack is empty the matches are the component. *)
Lemma FillInv_final visited matches :
  FillInv [] visited matches ->
  NoDup matches /\ forall i, In i matches <-> inCluster bs tc start i.
Proof.
  intros [Hs Hm Hv Hc H0 Hn]. split; [exact Hn |].
  intros i. split.
  - intros Hin. apply Hm. exact Hin.
  - induction 1 as [|i j bi bj Hcl IH Hbi Hbj Hnb Hact Hcol].
    + destruct H0 as [H|[]]. eapply Hv; eauto.
    + destruct (Hc i bi j bj IH Hbi Hbj Hnb Hact) as [H|[]].
      eapply Hv; eauto.
Qed.

Lemma unvisited_le (visited : list string) :
  (unvisited visited <= List.length bs)%nat.
Proof. apply refsWhere_length. Qed.

Lemma unvisited_cons_le (visited : list string) (s : string) :
  (unvisited (s :: visited) <= unvisited visited)%nat.
Proof.
  unfold unvisited, refsWhere. apply filter_length_mono.
  intros i _. destruct (nth_error bs i) as [b|]; [| discriminate].
  rewrite setHas_cons, negb_orb, andb_true_iff. tauto.
Qed.

Lemma unvisited_cons_lt (visited : list string) cur current :
  nth_error bs cur = Some current ->
  setHas visited (Bubble.id current) = false ->
  (unvisited (Bubble.id current :: visited) < unvisited visited)%nat.
Proof.
  intros Hcur Hvis. unfold unvisited, refsWhere.
  apply (filter_length_lt _ _ _ cur).
  - intros i _. destruct (nth_error bs i) as [b|]; [| discriminate].
    rewrite setHas_cons, negb_orb, andb_true_iff. tauto.
  - apply in_seq. assert (cur < List.length bs)%nat
      by (apply nth_error_Some; congruence). lia.
  - rewrite Hcur, Hvis. reflexivity.
  - rewrite Hcur, setHas_cons, String.eqb_refl. reflexivity.
Qed.

Lemma neighbors_le_unvisited (visited : list string) (current : Bubble) :
  (List.length (refsWhere (fun b => Bubble.active b
                        && negb (setHas visited (Bubble.id b))
                        && isNeighbor current b) bs) <= unvisited visited)%nat.
Proof.
  unfold unvisited, refsWhere. apply filter_length_mono.
  intros i _. destruct (nth_error bs i) as [b|]; [| discriminate].
  rewrite !andb_true_iff. tauto.
Qed.

(** Total correctness of the loop: from a state that satisfies the
    invariant, fuel above the potential gives a result, and the result is
    the component. *)
Lemma floodFill_inv (fuel : nat) :
  forall toCheck visited matches,
  FillInv toCheck visited matches ->
  (List.length toCheck + S (List.length bs) * unvisited visited < fuel)%nat ->
  exists res,
    floodFill fuel bs tc toCheck visited matches = Some res /\
    NoDup res /\ forall i, In i res <-> inCluster bs tc start i.
Proof.
  induction fuel as [|fuel IH]; intros toCheck visited matches Hinv Hfuel; [lia |].
  destruct toCheck as [|cur rest]; cbn [floodFill].
  { exists matches. split; [reflexivity |]. eapply FillInv_final; eauto. }
  destruct (nth_error bs cur) as [current|] eqn:Hcur.
  2:{ exfalso. destruct (inv_stack _ _ _ Hinv cur (or_introl eq_refl))
        as [->|[m [bm [bi [_ [_ [Hbi _]]]]]]]; congruence. }
  destruct (setHas visited (Bubble.id current)) eqn:Hvis.
  { apply IH; [eapply FillInv_skip; eauto |]. simpl List.length in Hfuel. lia. }
  destruct (BubbleColor_eqb (Bubble.color current) tc) eqn:Hcol.
  - apply BubbleColor_eqb_eq in Hcol.
    apply IH; [apply FillInv_match; auto |].
    rewrite length_app, length_rev.
    assert (H1 := neighbors_le_unvisited (Bubble.id current :: visited) current).
    assert (H2 := unvisited_cons_lt visited cur current Hcur Hvis).
    assert (H3 := unvisited_le (Bubble.id current :: visited)).
    assert (H4 : (S (List.length bs) * S (unvisited (Bubble.id current :: visited))
                  <= S (List.length bs) * unvisited visited)%nat)
      by (apply Nat.mul_le_mono_l; lia).
    rewrite Nat.mul_succ_r in H4.
    simpl List.length in Hfuel. lia.
  - assert (Hne : Bubble.color current <> tc).
    { intros E. apply BubbleColor_eqb_eq in E. congruence. }
    apply IH; [eapply FillInv_other; eauto |].
    assert (H2 := unvisited_cons_le visited (Bubble.id current)).
    assert (H4 : (S (List.length bs) * unvisited (Bubble.id current :: visited)
                  <= S (List.length bs) * unvisited visited)%nat)
      by (apply Nat.mul_le_mono_l; lia).
    simpl List.length in Hfuel. lia.
Qed.

(** The flood fill from [start] returns, with [floodFuel] iterations, a
    duplicate-free list of exactly the references of the component. *)
Lemma floodFill_total :
  exists res,
    floodFill (floodFuel bs) bs tc [start] [] [] = Some res /\
    NoDup res /\ forall i, In i res <-> inCluster bs tc start i.
Proof.
  apply floodFill_inv; [apply FillInv_init |].
  unfold floodFuel. assert (H := unvisited_le []).
  assert (H4 : (S (List.length bs) * unvisited [] <= S (List.length bs) * List.length bs)%nat)
    by (apply Nat.mul_le_mono_l; exact H).
  rewrite (Nat.mul_comm (List.length bs) (S (List.length bs))).
  simpl List.length. lia.
Qed.

End FloodFill.

Lemma popMatches_spec (basePoints : Z) (matches : list nat) (bs : list Bubble) :
  (forall i,
     nth_error (fst (popMatches basePoints matches bs)) i =
     if existsb (Nat.eqb i) matches
     then option_map Bubble.deactivate (nth_error bs i)
     else nth_error bs i)
  /\ snd (popMatches basePoints matches bs)
     = Z.of_nat (List.length matches) * basePoints.
Proof.
  unfold popMatches.
  assert (G : forall acc,
    (forall i,
       nth_error (fst (fold_left (fun acc m =>
           (updateAt m Bubble.deactivate (fst acc), snd acc + basePoints))
           matches acc)) i =
       if existsb (Nat.eqb i) matches
       then option_map Bubble.deactivate (nth_error (fst acc) i)
       else nth_error (fst acc) i)
    /\ snd (fold_left (fun acc m =>
           (updateAt m Bubble.deactivate (fst acc), snd acc + basePoints))
           matches acc)
       = snd acc + Z.of_nat (List.length matches) * basePoints).
  { induction matches as [|m ms IH]; intros acc.
    - simpl. split; [reflexivity | lia].
    - cbn [fold_left]. destruct (IH (updateAt m Bubble.deactivate (fst acc),
                                     snd acc + basePoints)) as [IH1 IH2].
      split.
      + intros i. rewrite IH1. cbn [fst existsb].
        rewrite updateAt_nth, (Nat.eqb_sym i m).
        destruct (Nat.eqb m i) eqn:E; cbn [orb].
        * destruct (existsb (Nat.eqb i) ms); [| reflexivity].
          destruct (nth_error (fst acc) i); reflexivity.
        * reflexivity.
      + rewrite IH2. cbn [snd List.length]. lia. }
  destruct (G (bs, 0)) as [G1 G2]. split; [exact G1 | rewrite G2; reflexivity].
Qed.

Lemma existsb_eqb_In (i : nat) (l : list nat) :
  existsb (Nat.eqb i) l = true <-> In i l.
Proof.
  rewrite existsb_exists. split.
  - intros [x [Hx E]]. apply Nat.eqb_eq in E. subst. exact Hx.
  - intros H. exists i. split; [exact H | apply Nat.eqb_refl].
Qed.

(** C1. Match detection from a bubble of the array deactivates the
    same-colour component that flood fill reaches from it and adds
    floor(size * basePoints * multiplier) to the score, the multiplier 1.0
    for a component of 3 and 1.5 for a larger one; a component of fewer than
    3 changes neither the array nor the score. The component is returned by
    the loop within its fuel, and its references are listed once each. *)
Theorem checkMatches_component
  (bs : list Bubble) (start : nat) (s0 : Bubble) (score eliminated : Z) :
  NoDup (map Bubble.id bs) ->
  nth_error bs start = Some s0 ->
  exists cluster : list nat,
    floodFill (floodFuel bs) bs (Bubble.color s0) [start] [] [] = Some cluster
    /\ NoDup cluster
    /\ (forall i, In i cluster <-> inCluster bs (Bubble.color s0) start i)
    /\ let size := Z.of_nat (List.length cluster) in
       let basePoints := points (Bubble.color s0) in
       let r := checkMatches bs start score eliminated in
       (size < 3 ->
          mo_bubbles r = bs /\ mo_score r = score /\ mo_matched r = false)
       /\ (3 <= size ->
          mo_matched r = true
          /\ List.length (mo_bubbles r) = List.length bs
          /\ (forall i b, nth_error bs i = Some b ->
                (inCluster bs (Bubble.color s0) start i ->
                   nth_error (mo_bubbles r) i = Some (Bubble.deactivate b))
                /\ (~ inCluster bs (Bubble.color s0) start i ->
                   nth_error (mo_bubbles r) i = Some b)))
       /\ (size = 3 ->
          mo_score r = score + Qfloor (inject_Z (size * basePoints) * 1.0))
       /\ (3 < size ->
          mo_score r = score + Qfloor (inject_Z (size * basePoints) * 1.5)).
Proof.
  intros Hids Hstart.
  destruct (floodFill_total bs (Bubble.color s0) start s0 Hids Hstart eq_refl)
    as [cluster [Hfill [Hnd Hin]]].
  exists cluster. split; [exact Hfill |]. split; [exact Hnd |].
  split; [exact Hin |]. cbv zeta.
  unfold checkMatches. rewrite Hstart, Hfill.
  destruct (popMatches_spec (points (Bubble.color s0)) cluster bs) as [Hpop Hpts].
  destruct (popMatches (points (Bubble.color s0)) cluster bs) as [bs' pts].
  cbn [fst snd] in Hpop, Hpts.
  set (size := Z.of_nat (List.length cluster)) in *.
  destruct (Z.geb_spec size 3) as [Hge|Hlt]; cbn [mo_bubbles mo_score mo_matched].
  - split; [lia |]. split; [| split].
    + intros _. split; [reflexivity |]. split.
      * apply Nat.le_antisymm.
        -- destruct (Nat.le_gt_cases (List.length bs') (List.length bs)) as [H|H]; [exact H |].
           exfalso. apply nth_error_Some in H. apply H.
           rewrite Hpop. assert (E : nth_error bs (List.length bs) = None)
             by (apply nth_error_None; lia).
           rewrite E. destruct (existsb _ _); reflexivity.
        -- destruct (Nat.le_gt_cases (List.length bs) (List.length bs')) as [H|H]; [exact H |].
           exfalso.
           assert (E : nth_error bs' (List.length bs') = None)
             by (apply nth_error_None; lia).
           rewrite Hpop in E.
           destruct (nth_error bs (List.length bs')) as [b|] eqn:Hb.
           ++ destruct (existsb _ _); discriminate.
           ++ apply nth_error_None in Hb. lia.
      * intros i b Hb. rewrite Hpop, Hb. split; intros Hc.
        -- apply Hin, existsb_eqb_In in Hc. rewrite Hc. reflexivity.
        -- destruct (existsb (Nat.eqb i) cluster) eqn:E; [| reflexivity].
           exfalso. apply Hc, Hin, existsb_eqb_In. exact E.
    + intros E3. rewrite Hpts. unfold multiplier.
      destruct (Z.gtb_spec size 3); [lia | reflexivity].
    + intros E3. rewrite Hpts. unfold multiplier.
      destruct (Z.gtb_spec size 3); [reflexivity | lia].
  - split; [auto |]. split; [lia |]. split; lia.
Qed.

Lemma checkMatches_component_witness :
  NoDup (map Bubble.id redRow)
  /\ nth_error redRow 3 = Some (Bubble.mk "1-0-1700000000000" 1 0 280 (22 + ROW_HEIGHT) red true)
  /\ exists cluster,
       floodFill (floodFuel redRow) redRow red [3%nat] [] [] = Some cluster
       /\ List.length cluster = 4%nat
       /\ mo_score (checkMatches redRow 3 0 0) = 600
       /\ map Bubble.active (mo_bubbles (checkMatches redRow 3 0 0))
          = [false; false; false; false].
Proof.
  assert (H1 : NoDup (map Bubble.id redRow)).
  { simpl. repeat (constructor; [simpl; intros H;
      repeat (destruct H as [H|H]; [discriminate H |]); exact H |]).
    constructor. }
  assert (H2 : nth_error redRow 3
               = Some (Bubble.mk "1-0-1700000000000" 1 0 280 (22 + ROW_HEIGHT) red true))
    by reflexivity.
  split; [exact H1 |]. split; [exact H2 |].
  destruct (checkMatches_component redRow 3 _ 0 0 H1 H2)
    as [cluster [Hfill [_ [_ [_ [_ [_ Hscore]]]]]]].
  exists cluster.
  assert (E : cluster = [3; 1; 2; 0]%nat).
  { vm_compute in Hfill. injection Hfill as <-. reflexivity. }
  subst cluster. split; [exact Hfill |]. split; [reflexivity |].
  split; [| vm_compute; reflexivity].
  rewrite Hscore by (simpl; lia). reflexivity.
Defined.


(** ** Advisory fallback *)

Lemma compareTargets_le (a b : TargetCandidate) :
  compareTargets a b <= 0 <-> ranksBefore a b.
Proof.
  unfold compareTargets, ranksBefore. cbv zeta.
  destruct (Z.eqb_spec (potentialScore b - potentialScore a) 0); lia.
Qed.

Lemma ranksBefore_trans (a b c : TargetCandidate) :
  ranksBefore a b -> ranksBefore b c -> ranksBefore a c.
Proof. unfold ranksBefore. lia. Qed.

Lemma ranksBefore_total (a b : TargetCandidate) :
  ranksBefore a b \/ ranksBefore b a.
Proof. unfold ranksBefore. lia. Qed.

Lemma insertBy_In {A} (compare : A -> A -> Z) (a x : A) (l : list A) :
  In x (insertBy compare a l) <-> x = a \/ In x l.
Proof.
  induction l as [|b t IH]; simpl.
  - intuition congruence.
  - destruct (compare a b <=? 0); simpl; [intuition congruence |].
    rewrite IH. intuition congruence.
Qed.

Lemma sortBy_In {A} (compare : A -> A -> Z) (x : A) (l : list A) :
  In x (sortBy compare l) <-> In x l.
Proof.
  induction l as [|a t IH]; simpl; [tauto |].
  rewrite insertBy_In, IH. intuition congruence.
Qed.

(** The first element of the sorted candidates ranks before every
    candidate. *)
Lemma sortBy_head (l : list TargetCandidate) (best : TargetCandidate)
  (rest : list TargetCandidate) :
  sortBy compareTargets l = best :: rest ->
  In best l /\ forall c, In c l -> ranksBefore best c.
Proof.
  revert best rest. induction l as [|a t IH]; intros best rest; simpl; [discriminate |].
  destruct (sortBy compareTargets t) as [|b s] eqn:Hs.
  - simpl. intros E. injection E as <- <-.
    assert (t = []).
    { destruct t as [|c t']; [reflexivity |].
      assert (In c (sortBy compareTargets (c :: t')))
        by (apply sortBy_In; left; reflexivity).
      rewrite Hs in H. contradiction. }
    subst t. split; [left; reflexivity |].
    intros c [<-|[]]. destruct (ranksBefore_total a a); assumption.
  - destruct (IH b s eq_refl) as [Hb Hmin].
    simpl. destruct (Z.leb_spec (compareTargets a b) 0) as [Hle|Hgt].
    + intros E. injection E as <- <-.
      apply compareTargets_le in Hle.
      split; [left; reflexivity |].
      intros c [<-|Hc].
      * destruct (ranksBefore_total a a); assumption.
      * eapply ranksBefore_trans; [exact Hle | apply Hmin; exact Hc].
    + intros E. injection E as <- <-.
      split; [right; exact Hb |].
      intros c [<-|Hc]; [| apply Hmin; exact Hc].
      destruct (ranksBefore_total b a) as [H|H]; [exact H |].
      apply compareTargets_le in H. lia.
Qed.

Lemma sortBy_nonempty {A} (compare : A -> A -> Z) (l : list A) :
  l <> [] -> sortBy compare l <> [].
Proof.
  destruct l as [|a t]; [congruence |]. intros _ E.
  assert (H : In a (sortBy compare (a :: t))) by (apply sortBy_In; left; reflexivity).
  rewrite E in H. contradiction.
Qed.

(** The local heuristic on a non-empty candidate list. *)
Lemma getBestLocalTarget_best (validTargets : list TargetCandidate) (msg : string) :
  validTargets <> [] ->
  exists best,
    In best validTargets
    /\ (forall c, In c validTargets -> potentialScore c <= potentialScore best)
    /\ (forall c, In c validTargets -> potentialScore c = potentialScore best ->
          TargetCandidate.row best <= TargetCandidate.row c)
    /\ getBestLocalTarget validTargets msg =
       StrategicHint.mk
         ("Fallback: Select " ++ toUpperCase (TargetCandidate.color best)
            ++ " at Row " ++ showZ (TargetCandidate.row best))
         (Some "Selected based on highest potential cluster score available locally.")
         (Some (TargetCandidate.row best))
         (Some (TargetCandidate.col best))
         (Some (TargetCandidate.color best)).
Proof.
  intros Hne. unfold getBestLocalTarget.
  destruct (sortBy compareTargets validTargets) as [|best rest] eqn:Hs.
  { exfalso. exact (sortBy_nonempty _ _ Hne Hs). }
  destruct (sortBy_head _ _ _ Hs) as [Hin Hmin].
  exists best. split; [exact Hin |]. split; [| split; [| reflexivity]].
  - intros c Hc. destruct (Hmin c Hc) as [H|[H _]]; lia.
  - intros c Hc E. destruct (Hmin c Hc) as [H|[_ H]]; lia.
Qed.

(** C5. When the client exists and the service is unreachable or its answer
    does not parse, the call returns a hint all the same. With candidates,
    the hint targets a candidate of the highest cluster size times point
    value and, among those, of the lowest row, recommends its colour, and
    carries the fallback message; without candidates it carries the
    diagnostic message and no target. *)
Theorem getStrategicHint_fallback
  (validTargets : list TargetCandidate) (outcome : ServiceOutcome) :
  (exists e, outcome = Unreachable e \/ outcome = Unparseable e) ->
  let h := hint (getStrategicHint true validTargets outcome) in
  (validTargets <> [] ->
     exists best,
       In best validTargets
       /\ (forall c, In c validTargets -> potentialScore c <= potentialScore best)
       /\ (forall c, In c validTargets -> potentialScore c = potentialScore best ->
             TargetCandidate.row best <= TargetCandidate.row c)
       /\ StrategicHint.targetRow h = Some (TargetCandidate.row best)
       /\ StrategicHint.targetCol h = Some (TargetCandidate.col best)
       /\ StrategicHint.recommendedColor h = Some (TargetCandidate.color best)
       /\ StrategicHint.message h =
          "Fallback: Select " ++ toUpperCase (TargetCandidate.color best)
            ++ " at Row " ++ showZ (TargetCandidate.row best))
  /\ (validTargets = [] ->
        StrategicHint.targetRow h = None
        /\ StrategicHint.recommendedColor h = None
        /\ (StrategicHint.message h = "AI Service Unreachable"
            \/ StrategicHint.message h = "AI response parse error"))
  /\ debug_error (getStrategicHint true validTargets outcome) <> None.
Proof.
  intros [e He] h.
  assert (Hh : exists msg, h = getBestLocalTarget validTargets msg
               /\ (msg = "AI Service Unreachable" \/ msg = "AI response parse error")).
  { destruct He as [->| ->]; unfold h; simpl; eauto. }
  destruct Hh as [msg [Hh Hmsg]].
  split; [| split].
  - intros Hne.
    destruct (getBestLocalTarget_best validTargets msg Hne)
      as [best [Hin [Hmax [Hrow Heq]]]].
    exists best. rewrite Hh, Heq. simpl. auto 10.
  - intros ->. rewrite Hh. simpl. destruct Hmsg as [->| ->]; auto.
  - destruct He as [->| ->]; simpl; discriminate.
Qed.

Lemma getStrategicHint_fallback_witness :
  (exists e, Unreachable "timeout" = Unreachable e \/ Unreachable "timeout" = Unparseable e)
  /\ hint (getStrategicHint true sampleTargets (Unreachable "timeout"))
     = StrategicHint.mk "Fallback: Select PURPLE at Row 1"
         (Some "Selected based on highest potential cluster score available locally.")
         (Some 1) (Some 4) (Some "purple")
  /\ exists best,
       In best sampleTargets
       /\ StrategicHint.targetRow
            (hint (getStrategicHint true sampleTargets (Unreachable "timeout")))
          = Some (TargetCandidate.row best).
Proof.
  assert (H : exists e, Unreachable "timeout" = Unreachable e
                     \/ Unreachable "timeout" = Unparseable e)
    by (exists "timeout"; left; reflexivity).
  split; [exact H |]. split; [reflexivity |].
  destruct (getStrategicHint_fallback sampleTargets (Unreachable "timeout") H)
    as [Hbest _].
  destruct (Hbest ltac:(discriminate)) as [best [Hin [_ [_ [Hrow _]]]]].
  exists best. split; [exact Hin | exact Hrow].
Defined.


(** ** Comparisons of numbers *)

Lemma Rltb_true (a b : R) : Rltb a b = true <-> (a < b)%R.
Proof. unfold Rltb. destruct (Rlt_dec a b); split; auto; discriminate. Qed.

Lemma Rltb_false (a b : R) : Rltb a b = false <-> (b <= a)%R.
Proof.
  unfold Rltb. destruct (Rlt_dec a b); split; auto; try discriminate; lra.
Qed.

Lemma Rleb_true (a b : R) : Rleb a b = true <-> (a <= b)%R.
Proof. unfold Rleb. destruct (Rle_dec a b); split; auto; discriminate. Qed.

Lemma Rleb_false (a b : R) : Rleb a b = false <-> (b < a)%R.
Proof.
  unfold Rleb. destruct (Rle_dec a b); split; auto; try discriminate; lra.
Qed.

Lemma Reqb_refl (a : R) : Reqb a a = true.
Proof. unfold Reqb. destruct (Req_dec_T a a); [reflexivity | contradiction]. Qed.

(** ** Frames *)

#[local] Arguments pow _ _ : simpl never.
#[local] Arguments applyFriction _ : simpl never.

(** The flags and the velocity that [resize] and [capture] leave alone. *)
Lemma resize_flags (f : FrameInput) (g : Game) :
  isPinching (resize f g) = isPinching g
  /\ isFlying (resize f g) = isFlying g
  /\ isAiThinkingRef (resize f g) = isAiThinkingRef g
  /\ ballVel (resize f g) = ballVel g
  /\ shotsFiredRef (resize f g) = shotsFiredRef g
  /\ bubbles (resize f g) = bubbles g.
Proof.
  unfold resize.
  destruct (negb (Reqb (canvas_width g) (clientWidth f))
            || negb (Reqb (canvas_height g) (clientHeight f))); cbn; [| tauto].
  destruct (negb (isFlying g) && negb (isPinching g)); cbn; tauto.
Qed.

Lemma resize_ball (f : FrameInput) (g : Game) :
  (isFlying g = true \/ isPinching g = true -> ballPos (resize f g) = ballPos g)
  /\ (isFlying g = false -> isPinching g = false -> ballPos g = anchorPos g ->
      ballPos (resize f g) = anchorPos (resize f g)).
Proof.
  unfold resize.
  destruct (negb (Reqb (canvas_width g) (clientWidth f))
            || negb (Reqb (canvas_height g) (clientHeight f))); cbn; [| tauto].
  destruct (isFlying g), (isPinching g); cbn; split; intros; try reflexivity;
    try discriminate; destruct H; discriminate.
Qed.

Lemma capture_fields (g : Game) :
  isPinching (capture g) = isPinching g
  /\ isFlying (capture g) = isFlying g
  /\ isAiThinkingRef (capture g) = isAiThinkingRef g
  /\ ballVel (capture g) = ballVel g
  /\ ballPos (capture g) = ballPos g
  /\ anchorPos (capture g) = anchorPos g
  /\ shotsFiredRef (capture g) = shotsFiredRef g
  /\ bubbles (capture g) = bubbles g.
Proof.
  unfold capture. destruct (captureRequestRef g); cbn; tauto.
Qed.

(** A ball in flight that is not being dragged is not touched by the
    slingshot logic. *)
Lemma slingshot_flying (f : FrameInput) (g : Game) :
  isFlying g = true -> isPinching g = false -> slingshot f g = g.
Proof.
  intros Hf Hp. unfold slingshot. rewrite Hf, Hp. cbn.
  rewrite !andb_false_r. reflexivity.
Qed.

(** The sub-step loop changes the velocity by the sign of its x component
    only. *)
Lemma subSteps_vel (n : nat) (steps width : R) (bs : list Bubble) :
  forall pos vel,
  let '(_, vel', _) := subSteps n steps width bs pos vel in
  (Point.x vel' ^ 2 = Point.x vel ^ 2)%R /\ Point.y vel' = Point.y vel.
Proof.
  induction n as [|n IH]; intros pos vel; cbn [subSteps].
  - split; reflexivity.
  - set (bounce := Rltb _ _ || Rltb _ _).
    set (vel1 := if bounce then _ else vel).
    assert (Hv : (Point.x vel1 ^ 2 = Point.x vel ^ 2)%R /\ Point.y vel1 = Point.y vel).
    { unfold vel1. destruct bounce; cbn; split; try reflexivity. ring. }
    destruct (collides bs _); [exact Hv |].
    match goal with |- context [subSteps n steps width bs ?p ?v] =>
      specialize (IH p v); destruct (subSteps n steps width bs p v) as [[p' v'] c']
    end.
    destruct IH as [IH1 IH2], Hv as [Hv1 Hv2]. split; congruence.
Qed.

Lemma FRICTION_pos : (0 <= FRICTION)%R.
Proof. unfold FRICTION. lra. Qed.

Lemma GRAVITY_zero : GRAVITY = 0%R.
Proof. unfold GRAVITY. lra. Qed.

Lemma applyFriction_speed (vel : Point) :
  sqrt (Point.x (applyFriction vel) ^ 2 + Point.y (applyFriction vel) ^ 2)
  = (sqrt (Point.x vel ^ 2 + Point.y vel ^ 2) * FRICTION)%R.
Proof.
  unfold applyFriction. cbn [Point.x Point.y].
  replace ((Point.x vel * FRICTION) ^ 2 + ((Point.y vel + GRAVITY) * FRICTION) ^ 2)%R
    with ((Point.x vel ^ 2 + Point.y vel ^ 2) * (FRICTION ^ 2))%R
    by (rewrite GRAVITY_zero; ring).
  rewrite sqrt_mult_alt.
  - rewrite sqrt_pow2 by exact FRICTION_pos. reflexivity.
  - assert (H1 := pow2_ge_0 (Point.x vel)). assert (H2 := pow2_ge_0 (Point.y vel)). lra.
Qed.

(** A frame that leaves the ball in flight scales its speed by the
    friction. *)
Lemma flying_frame (f : FrameInput) (g : Game) :
  isFlying g = true -> isPinching g = false ->
  isFlying (onResults f g) = true ->
  speed (onResults f g) = (speed g * FRICTION)%R
  /\ isPinching (onResults f g) = false.
Proof.
  intros Hf Hp Hf'.
  destruct (resize_flags f g) as [Rp [Rf [_ [Rv _]]]].
  unfold onResults in *.
  rewrite slingshot_flying in * by congruence.
  set (g0 := resize f g) in *.
  destruct (capture_fields (physics f g0)) as [Cp [Cf [_ [Cv _]]]].
  unfold speed. rewrite Cv, Cp. rewrite Cf in Hf'. clear Cp Cf Cv.
  unfold physics in *. rewrite Rf, Hf in *.
  destruct (Rltb 5000 _); [cbn in Hf'; discriminate |].
  assert (Hsub := subSteps_vel
    (Z.to_nat (Math_ceil (sqrt (Point.x (ballVel g0) ^ 2 + Point.y (ballVel g0) ^ 2)
                          / (BUBBLE_RADIUS * 0.8))))
    (IZR (Math_ceil (sqrt (Point.x (ballVel g0) ^ 2 + Point.y (ballVel g0) ^ 2)
                          / (BUBBLE_RADIUS * 0.8))))
    (canvas_width g0) (bubbles g0) (ballPos g0) (ballVel g0)).
  destruct (subSteps _ _ _ _ _ _) as [[pos vel] collisionOccurred].
  destruct Hsub as [Hx Hy].
  destruct collisionOccurred.
  { exfalso. revert Hf'. unfold land.
    match goal with |- context [Rltb ?a ?b] => destruct (Rltb a b) end;
      cbn; unfold updateAvailableColors; cbn;
      repeat match goal with |- context [match ?x with _ => _ end] => destruct x; cbn end;
      discriminate. }
  revert Hf'.
  match goal with |- context [Rltb ?a ?b] => destruct (Rltb a b) end; cbn;
    [discriminate |].
  intros _. rewrite Rp, Hp. split; [| reflexivity].
  rewrite applyFriction_speed. rewrite Hx, Hy, Rv. reflexivity.
Qed.

(** C9. With the gravity 0 and the friction 0.998 of the code, a ball that
    is still in flight after each of N frames (no collision, no time-out, not
    out of bounds; wall bounces allowed) has its initial speed times
    0.998^N. *)
Theorem speed_decay (fs : list FrameInput) (g : Game) :
  isFlying g = true -> isPinching g = false ->
  staysFlying g fs ->
  speed (frames g fs) = (speed g * 0.998 ^ List.length fs)%R.
Proof.
  revert g. induction fs as [|f fs IH]; intros g Hf Hp Hs.
  - cbn [frames fold_left List.length]. rewrite pow_O, Rmult_1_r. reflexivity.
  - destruct Hs as [Hf' Hs].
    destruct (flying_frame f g Hf Hp Hf') as [Hspeed Hp'].
    cbn [frames fold_left List.length].
    change (fold_left (fun g f => onResults f g) fs (onResults f g))
      with (frames (onResults f g) fs).
    rewrite (IH _ Hf' Hp' Hs), Hspeed, <- tech_pow_Rmult.
    unfold FRICTION. ring.
Qed.


(** Decides the comparisons of concrete numbers in the goal. *)
Ltac Rcompare :=
  repeat match goal with
  | |- context [Rltb ?a ?b] =>
      first [ rewrite (proj2 (Rltb_true a b)) by (cbn; lra)
            | rewrite (proj2 (Rltb_false a b)) by (cbn; lra) ]
  | |- context [Rleb ?a ?b] =>
      first [ rewrite (proj2 (Rleb_true a b)) by (cbn; lra)
            | rewrite (proj2 (Rleb_false a b)) by (cbn; lra) ]
  | |- context [Reqb ?a ?a] => rewrite (Reqb_refl a)
  end.

Lemma speed_decay_witness :
  isFlying flightSample = true
  /\ isPinching flightSample = false
  /\ staysFlying flightSample [idleFrame 16]
  /\ speed (frames flightSample [idleFrame 16])
     = (speed flightSample * 0.998 ^ 1)%R.
Proof.
  assert (Hs : staysFlying flightSample [idleFrame 16]).
  { split; [| exact I].
    unfold onResults.
    assert (Hr : resize (idleFrame 16) flightSample = flightSample).
    { unfold resize. cbn. rewrite !Reqb_refl. reflexivity. }
    rewrite Hr, slingshot_flying by reflexivity.
    destruct (capture_fields (physics (idleFrame 16) flightSample))
      as [_ [-> _]].
    unfold physics. cbn [isFlying flightSample idleFrame performance_now
                         flightStartTime ballVel ballPos canvas_width bubbles
                         Point.x Point.y].
    Rcompare.
    replace (0 ^ 2 + (-10) ^ 2)%R with (10 ^ 2)%R by ring.
    rewrite sqrt_pow2 by lra.
    unfold Math_ceil.
    rewrite (Zceil_eq 1) by (unfold BUBBLE_RADIUS; cbn; lra).
    change (Z.to_nat 1) with 1%nat.
    cbn [subSteps Point.x Point.y].
    unfold collides, hitsBubble. cbn [existsb Point.x Point.y].
    unfold BUBBLE_RADIUS. Rcompare.
    cbn. Rcompare. reflexivity. }
  split; [reflexivity |]. split; [reflexivity |]. split; [exact Hs |].
  apply (speed_decay [idleFrame 16] flightSample); [reflexivity | reflexivity | exact Hs].
Defined.


(** ** The shot: flags and velocity *)

Lemma updateAvailableColors_fields (g : Game) :
  isPinching (updateAvailableColors g) = isPinching g
  /\ isFlying (updateAvailableColors g) = isFlying g
  /\ ballVel (updateAvailableColors g) = ballVel g
  /\ ballPos (updateAvailableColors g) = ballPos g
  /\ anchorPos (updateAvailableColors g) = anchorPos g
  /\ bubbles (updateAvailableColors g) = bubbles g
  /\ shotsFiredRef (updateAvailableColors g) = shotsFiredRef g
  /\ isAiThinkingRef (updateAvailableColors g) = isAiThinkingRef g
  /\ canvas_height (updateAvailableColors g) = canvas_height g.
Proof.
  unfold updateAvailableColors.
  destruct (activeColors (bubbles g)) as [|next rest]; [tauto |].
  destruct (negb _); cbn; tauto.
Qed.

Lemma dragTo_fields (hp : Point) (g : Game) :
  isPinching (dragTo hp g) = isPinching g
  /\ isFlying (dragTo hp g) = isFlying g
  /\ ballVel (dragTo hp g) = ballVel g
  /\ shotsFiredRef (dragTo hp g) = shotsFiredRef g.
Proof. unfold dragTo. destruct (Rltb _ _); cbn; tauto. Qed.

(** The slingshot logic of a locked frame. *)
Lemma slingshot_locked (f : FrameInput) (g : Game) :
  isAiThinkingRef g = true ->
  slingshot f g =
  if isPinching g then set_ballPos (anchorPos g) (set_isPinching false g)
  else if negb (isFlying g) then ease g else g.
Proof.
  intros Hl. unfold slingshot. rewrite Hl. cbn [negb andb].
  rewrite !orb_true_r.
  destruct (isPinching g); cbn; [reflexivity |].
  rewrite andb_true_r. reflexivity.
Qed.

(** The slingshot logic on the release of a drag, without lock. *)
Lemma slingshot_release (f : FrameInput) (g : Game) :
  isPinching g = true -> isAiThinkingRef g = false ->
  handPos f g = None \/ (PINCH_THRESHOLD <= pinchDist f)%R ->
  slingshot f g = release f (set_isPinching false g).
Proof.
  intros Hp Hl Hrel. unfold slingshot. rewrite Hp, Hl. cbn [negb andb].
  assert (E1 : isSome (handPos f g) && Rltb (pinchDist f) PINCH_THRESHOLD = false).
  { destruct Hrel as [->|H]; [reflexivity |].
    apply Rltb_false in H. rewrite H. apply andb_false_r. }
  rewrite E1. cbn [andb].
  assert (E2 : negb (isSome (handPos f g)) || Rleb PINCH_THRESHOLD (pinchDist f) = true).
  { destruct Hrel as [->|H]; [reflexivity |].
    apply Rleb_true in H. rewrite H. apply orb_true_r. }
  rewrite E2. reflexivity.
Qed.

Lemma slingshot_shotInv (f : FrameInput) (g : Game) :
  shotInv g -> shotInv (slingshot f g).
Proof.
  intros [H1 H2]. unfold slingshot.
  destruct (negb (isAiThinkingRef g) && isSome (handPos f g)
            && Rltb (pinchDist f) PINCH_THRESHOLD && negb (isFlying g)) eqn:E.
  { apply andb_true_iff in E. destruct E as [_ Ef].
    apply negb_true_iff in Ef.
    destruct (handPos f g) as [hp|]; [| split; assumption].
    match goal with |- context [if ?c then set_isPinching true g else g] =>
      set (g1 := if c then set_isPinching true g else g) end.
    assert (Hg1 : isFlying g1 = false /\ ballVel g1 = ballVel g).
    { unfold g1. match goal with |- context [if ?c then _ else _] => destruct c end;
        cbn; auto. }
    destruct Hg1 as [Hf Hv].
    destruct (isPinching g1) eqn:Ep.
    - destruct (dragTo_fields hp g1) as [_ [Df [Dv _]]].
      split; intros; [congruence | rewrite Dv, Hv; auto].
    - split; intros; [congruence | rewrite Hv; auto]. }
  match goal with |- context [isPinching g && ?c] =>
    destruct (isPinching g && c) eqn:E2 end.
  { apply andb_true_iff in E2. destruct E2 as [Ep _].
    assert (Hf := H1 Ep). assert (Hv := H2 Hf).
    destruct (isAiThinkingRef g); cbn.
    - split; [discriminate | intros _; exact Hv].
    - unfold release. destruct (Rltb 30 _); cbn.
      + split; discriminate.
      + split; [discriminate | intros _; exact Hv]. }
  destruct (negb (isFlying g) && negb (isPinching g)); cbn; split; assumption.
Qed.

Lemma land_fields (f : FrameInput) (g : Game) :
  isFlying (land f g) = false
  /\ ballVel (land f g) = Point.mk 0 0
  /\ ballPos (land f g) = anchorPos g
  /\ anchorPos (land f g) = anchorPos g
  /\ isPinching (land f g) = isPinching g
  /\ shotsFiredRef (land f g) = shotsFiredRef g
  /\ isAiThinkingRef (land f g) = isAiThinkingRef g
  /\ canvas_height (land f g) = canvas_height g
  /\ captureRequestRef (land f g) = true.
Proof.
  unfold land.
  match goal with |- context [updateAvailableColors ?x] =>
    destruct (updateAvailableColors_fields x)
      as [Up [Uf [Uv [Ub [Ua [_ [Us [Ul Uh]]]]]]]]
  end.
  cbn in *. rewrite Up, Uf, Ua, Us, Ul, Uh. tauto.
Qed.

Lemma physics_shotInv (f : FrameInput) (g : Game) :
  shotInv g -> shotInv (physics f g).
Proof.
  intros H. assert (H' := H). destruct H as [H1 H2]. unfold physics.
  destruct (isFlying g) eqn:Ef; [| exact H'].
  assert (Ep : isPinching g = false).
  { destruct (isPinching g); [| reflexivity]. specialize (H1 eq_refl). discriminate. }
  destruct (Rltb 5000 _); [unfold resetShot; cbn; split; auto |].
  destruct (subSteps _ _ _ _ _ _) as [[pos vel] collisionOccurred].
  set (g1 := set_ballVel (applyFriction vel) (set_ballPos pos g)).
  set (g2 := if collisionOccurred then land f g1 else g1).
  assert (Hg2 : isPinching g2 = false
                /\ (isFlying g2 = false -> ballVel g2 = Point.mk 0 0)).
  { unfold g2. destruct collisionOccurred.
    - destruct (land_fields f g1) as [Lf [Lv [_ [_ [Lp _]]]]].
      rewrite Lp, Lv. cbn. auto.
    - cbn. split; [exact Ep | congruence]. }
  destruct Hg2 as [Hp Hv].
  destruct (Rltb _ _); [unfold resetShot; cbn; split; auto |].
  split; [congruence | exact Hv].
Qed.

Lemma onResults_shotInv (f : FrameInput) (g : Game) :
  shotInv g -> shotInv (onResults f g).
Proof.
  intros H. unfold onResults.
  assert (H0 : shotInv (resize f g)).
  { destruct (resize_flags f g) as [Rp [Rf [_ [Rv _]]]].
    unfold shotInv. rewrite Rp, Rf, Rv. exact H. }
  apply slingshot_shotInv with (f := f) in H0.
  apply physics_shotInv with (f := f) in H0.
  destruct (capture_fields (physics f (slingshot f (resize f g))))
    as [Cp [Cf [_ [Cv _]]]].
  unfold shotInv. rewrite Cp, Cf, Cv. exact H0.
Qed.

Lemma onHint_fields (h : StrategicHint) (g g' : Game) :
  onHint h g = Some g' ->
  isPinching g' = isPinching g /\ isFlying g' = isFlying g
  /\ ballVel g' = ballVel g /\ bubbles g' = bubbles g.
Proof.
  unfold onHint.
  destruct (StrategicHint.targetRow h), (StrategicHint.targetCol h),
           (StrategicHint.recommendedColor h) as [key|];
    try (intros E; injection E as <-; cbn; tauto).
  destruct (String.eqb key ""); [intros E; injection E as <-; cbn; tauto |].
  destruct (colorOfKey key); [| discriminate].
  intros E; injection E as <-; cbn; tauto.
Qed.

Lemma step_shotInv (g g' : Game) (e : Event) :
  shotInv g -> step g e = Some g' -> shotInv g'.
Proof.
  intros H. destruct e as [f| | |h]; cbn.
  - intros E. injection E as <-. apply onResults_shotInv. exact H.
  - destruct (initTimerPending g); [| discriminate].
    intros E. injection E as <-. exact H.
  - destruct (analysesScheduled g); [discriminate |].
    intros E. injection E as <-. exact H.
  - destruct (requestsInFlight g); [discriminate |].
    intros E. destruct (onHint_fields h g g' E) as [Hp [Hf [Hv _]]].
    unfold shotInv. rewrite Hp, Hf, Hv. exact H.
Qed.

Lemma reachable_shotInv (g : Game) : reachable g -> shotInv g.
Proof.
  induction 1 as [width height fill | g e g' _ IH Hstep].
  - unfold mount.
    match goal with |- shotInv (updateAvailableColors ?x) =>
      destruct (updateAvailableColors_fields x) as [Up [Uf [Uv _]]]
    end.
    unfold shotInv. rewrite Up, Uf, Uv. cbn. split; auto.
  - eapply step_shotInv; eauto.
Qed.

(** Physics leaves a ball that is not in flight alone. *)
Lemma physics_idle (f : FrameInput) (g : Game) :
  isFlying g = false -> physics f g = g.
Proof. intros H. unfold physics. rewrite H. reflexivity. Qed.

Lemma physics_shots (f : FrameInput) (g : Game) :
  shotsFiredRef (physics f g) = shotsFiredRef g
  /\ isPinching (physics f g) = isPinching g.
Proof.
  unfold physics. destruct (isFlying g); [| tauto].
  destruct (Rltb 5000 _); [cbn; tauto |].
  destruct (subSteps _ _ _ _ _ _) as [[pos vel] collisionOccurred].
  set (g1 := set_ballVel (applyFriction vel) (set_ballPos pos g)).
  assert (H : shotsFiredRef (if collisionOccurred then land f g1 else g1)
              = shotsFiredRef g
              /\ isPinching (if collisionOccurred then land f g1 else g1)
                 = isPinching g).
  { destruct collisionOccurred; [| cbn; tauto].
    destruct (land_fields f g1) as [_ [_ [_ [_ [Lp [Ls _]]]]]].
    rewrite Lp, Ls. cbn. tauto. }
  destruct (Rltb _ _); cbn; exact H.
Qed.

(** C7. In a frame that starts with the advisory lock set, whatever the
    hand does: no drag is engaged, no shot is fired, a ball that was not in
    flight is not in flight afterwards, a ball resting at the anchor still
    rests at the anchor, and a drag in progress is released without firing,
    the ball back at the anchor. *)
Theorem locked_frame (f : FrameInput) (g : Game) :
  reachable g -> isAiThinkingRef g = true ->
  let g' := onResults f g in
  isPinching g' = false
  /\ shotsFiredRef g' = shotsFiredRef g
  /\ (isFlying g = false ->
        isFlying g' = false /\ ballVel g' = Point.mk 0 0)
  /\ (isFlying g = false -> isPinching g = false -> ballPos g = anchorPos g ->
        ballPos g' = anchorPos g')
  /\ (isPinching g = true ->
        isFlying g' = false /\ ballPos g' = anchorPos g').
Proof.
  intros Hreach Hlock g'.
  destruct (reachable_shotInv g Hreach) as [I1 I2].
  destruct (resize_flags f g) as [Rp [Rf [Rl [Rv [Rs _]]]]].
  destruct (resize_ball f g) as [Rb1 Rb2].
  set (g0 := resize f g) in *.
  assert (Hlock0 : isAiThinkingRef g0 = true) by congruence.
  assert (Hs := slingshot_locked f g0 Hlock0).
  unfold g', onResults. fold g0.
  destruct (capture_fields (physics f (slingshot f g0)))
    as [Cp [Cf [_ [Cv [Cb [Ca [Cs _]]]]]]].
  rewrite Cp, Cf, Cv, Cb, Ca, Cs.
  destruct (physics_shots f (slingshot f g0)) as [Ps Pp].
  rewrite Ps, Pp, Hs.
  destruct (isPinching g) eqn:Ep.
  - (* a drag in progress: forced release *)
    assert (Ef : isFlying g = false) by (apply I1; reflexivity).
    rewrite Rp. cbn. rewrite Rs.
    rewrite physics_idle by (cbn; congruence). cbn.
    repeat split; auto; try congruence; try discriminate.
    rewrite Rv. auto.
  - rewrite Rp, Rf. destruct (isFlying g) eqn:Ef; cbn.
    + rewrite Rp, Rs. repeat split; auto; discriminate.
    + unfold ease. cbn. rewrite Rp, Rs.
      rewrite physics_idle by (cbn; congruence). cbn.
      repeat split; auto; try discriminate.
      * rewrite Rv. auto.
      * intros _ _ Hb. rewrite (Rb2 eq_refl eq_refl Hb).
        destruct (anchorPos g0) as [ax ay]. cbn. f_equal; lra.
Qed.


(** C8. On the release of a drag (the ball is being dragged, no lock, and
    the hand is gone or no longer pinching), at the slingshot step of the
    frame: with a stretch of at most 30 no shot is fired, the ball is back at
    the anchor and has no velocity; with a longer stretch the ball is
    launched with the velocity (anchor - ball) * m, where
    m = MIN_FORCE_MULT + (MAX_FORCE_MULT - MIN_FORCE_MULT) * p^2 and
    p = min(stretch / MAX_DRAG_DIST, 1). *)
Theorem release_velocity (f : FrameInput) (g : Game) :
  reachable g ->
  let g0 := resize f g in
  isPinching g0 = true -> isAiThinkingRef g0 = false ->
  handPos f g0 = None \/ (PINCH_THRESHOLD <= pinchDist f)%R ->
  let dx := (Point.x (anchorPos g0) - Point.x (ballPos g0))%R in
  let dy := (Point.y (anchorPos g0) - Point.y (ballPos g0))%R in
  let stretch := sqrt (dx * dx + dy * dy) in
  let g1 := slingshot f g0 in
  isPinching g1 = false
  /\ ((stretch <= 30)%R ->
        isFlying g1 = false
        /\ shotsFiredRef g1 = shotsFiredRef g
        /\ ballPos g1 = anchorPos g1
        /\ ballVel g1 = Point.mk 0 0
        /\ isFlying (onResults f g) = false
        /\ ballVel (onResults f g) = Point.mk 0 0
        /\ ballPos (onResults f g) = anchorPos (onResults f g))
  /\ ((30 < stretch)%R ->
        let p := Rmin (stretch / MAX_DRAG_DIST) 1 in
        let m := (MIN_FORCE_MULT + (MAX_FORCE_MULT - MIN_FORCE_MULT) * p ^ 2)%R in
        isFlying g1 = true
        /\ shotsFiredRef g1 = shotsFiredRef g + 1
        /\ ballPos g1 = ballPos g0
        /\ ballVel g1 = Point.mk (dx * m) (dy * m)).
Proof.
  intros Hreach g0 Hp Hl Hrel dx dy stretch g1.
  destruct (reachable_shotInv g Hreach) as [I1 I2].
  destruct (resize_flags f g) as [Rp [Rf [Rl [Rv [Rs _]]]]].
  fold g0 in Rp, Rf, Rl, Rv, Rs.
  assert (Ef : isFlying g = false) by (apply I1; congruence).
  assert (Ev : ballVel g = Point.mk 0 0) by (apply I2; exact Ef).
  assert (Hs : g1 = release f (set_isPinching false g0))
    by (apply slingshot_release; assumption).
  unfold onResults. fold g0. fold g1.
  rewrite Hs. unfold release.
  cbn [anchorPos ballPos set_isPinching shotsFiredRef].
  fold dx dy stretch.
  split.
  { destruct (Rltb 30 stretch); reflexivity. }
  split.
  - intros Hle. apply Rltb_false in Hle. rewrite Hle. cbn.
    rewrite physics_idle by (cbn; congruence).
    destruct (capture_fields (set_ballPos (anchorPos g0) (set_isPinching false g0)))
      as [_ [Cf [_ [Cv [Cb [Ca _]]]]]].
    rewrite Cf, Cv, Cb, Ca. cbn.
    repeat split; congruence.
  - intros Hgt. apply Rltb_true in Hgt. rewrite Hgt. cbn.
    replace (Rmin (stretch / MAX_DRAG_DIST) 1.0) with (Rmin (stretch / MAX_DRAG_DIST) 1)
      by (f_equal; lra).
    repeat split; try congruence.
    f_equal; ring.
Qed.


(** ** Sample runs *)

Lemma updateAvailableColors_cases (g : Game) :
  updateAvailableColors g = g
  \/ exists c, updateAvailableColors g = set_selectedColorRef c g.
Proof.
  unfold updateAvailableColors.
  destruct (activeColors (bubbles g)) as [|next rest]; [left; reflexivity |].
  destruct (negb _); [right; exists next; reflexivity | left; reflexivity].
Qed.

Lemma mount_mounted (width height : R) (fill : Z -> Z -> option BubbleColor) :
  exists c, mount width height fill = mounted width height fill c.
Proof.
  unfold mount.
  match goal with |- context [updateAvailableColors ?x] =>
    destruct (updateAvailableColors_cases x) as [->|[c ->]]
  end.
  - exists red. reflexivity.
  - exists c. reflexivity.
Qed.

Lemma reachable_run (g g' : Game) (es : list Event) :
  reachable g -> run g es = Some g' -> reachable g'.
Proof.
  revert g. induction es as [|e es IH]; intros g Hg; cbn.
  - intros E. injection E as <-. exact Hg.
  - destruct (step g e) as [g1|] eqn:Hstep; [| discriminate].
    apply IH. eapply reach_step; eauto.
Qed.

(** A frame with no hand in view, the ball neither dragged nor in flight,
    the canvas as large as its container. *)
Lemma onResults_idle (f : FrameInput) (g : Game) :
  clientWidth f = canvas_width g -> clientHeight f = canvas_height g ->
  multiHandLandmarks f = None ->
  isPinching g = false -> isFlying g = false ->
  onResults f g = capture (ease g).
Proof.
  intros Hw Hh Hhand Hp Hf. unfold onResults.
  assert (Hr : resize f g = g).
  { unfold resize. rewrite Hw, Hh, !Reqb_refl. reflexivity. }
  rewrite Hr.
  assert (Hs : slingshot f g = ease g).
  { unfold slingshot, handPos. rewrite Hhand, Hp, Hf. cbn.
    rewrite !andb_false_r. reflexivity. }
  rewrite Hs, physics_idle by (cbn; exact Hf). reflexivity.
Qed.

(** A frame in which the hand pinches within reach of the resting ball and
    within [MAX_DRAG_DIST] of the anchor: the drag is engaged and the ball
    follows the cursor. *)
Lemma onResults_engage (f : FrameInput) (g : Game) (hp : Point) :
  clientWidth f = canvas_width g -> clientHeight f = canvas_height g ->
  handPos f g = Some hp ->
  (pinchDist f < PINCH_THRESHOLD)%R ->
  isAiThinkingRef g = false -> isPinching g = false -> isFlying g = false ->
  (distance (Point.x hp) (Point.y hp) (Point.x (ballPos g)) (Point.y (ballPos g))
   < 100)%R ->
  (sqrt ((Point.x hp - Point.x (anchorPos g)) * (Point.x hp - Point.x (anchorPos g))
         + (Point.y hp - Point.y (anchorPos g)) * (Point.y hp - Point.y (anchorPos g)))
   <= MAX_DRAG_DIST)%R ->
  onResults f g = capture (set_ballPos hp (set_isPinching true g)).
Proof.
  intros Hw Hh Hhand Hpinch Hl Hp Hf Hnear Hdrag. unfold onResults.
  assert (Hr : resize f g = g).
  { unfold resize. rewrite Hw, Hh, !Reqb_refl. reflexivity. }
  rewrite Hr.
  assert (Hs : slingshot f g = set_ballPos hp (set_isPinching true g)).
  { unfold slingshot. rewrite Hhand, Hl, Hp, Hf. cbn [negb andb isSome].
    rewrite (proj2 (Rltb_true _ _) Hpinch), (proj2 (Rltb_true _ _) Hnear).
    cbn [andb isPinching set_isPinching].
    unfold dragTo. cbn [anchorPos set_isPinching].
    rewrite (proj2 (Rltb_false _ _) Hdrag). reflexivity. }
  rewrite Hs, physics_idle by (cbn; exact Hf). reflexivity.
Qed.

Lemma sqrt_sq_80 (a b : R) : a = 0%R -> (b = 80 \/ b = -80)%R ->
  sqrt (a * a + b * b) = 80%R.
Proof.
  intros -> Hb. replace (0 * 0 + b * b)%R with (80 ^ 2)%R
    by (destruct Hb as [->| ->]; ring).
  apply sqrt_pow2. lra.
Qed.

Lemma draggedGame_eq :
  exists c, draggedGame
    = capture (set_ballPos (Point.mk ((0.5 * 1000 + 0.5 * 1000) / 2)
                                    ((0.86 * 1000 + 0.86 * 1000) / 2))
                 (set_isPinching true (mounted 1000 1000 allRed c))).
Proof.
  unfold draggedGame, startGame.
  destruct (mount_mounted 1000 1000 allRed) as [c ->]. exists c.
  apply onResults_engage; try reflexivity.
  - unfold pinchDist, pinchFrame, PINCH_THRESHOLD. cbn.
    replace ((0.5 - 0.5) * (0.5 - 0.5) + (0.86 - 0.86) * (0.86 - 0.86))%R
      with 0%R by lra.
    rewrite sqrt_0. lra.
  - unfold distance. cbn. unfold SLINGSHOT_BOTTOM_OFFSET.
    rewrite <- !Rsqr_pow2. unfold Rsqr.
    rewrite (sqrt_sq_80 _ _) by lra. lra.
  - cbn. unfold SLINGSHOT_BOTTOM_OFFSET, MAX_DRAG_DIST.
    rewrite (sqrt_sq_80 _ _) by lra. lra.
Qed.


Lemma startGame_reachable : reachable startGame.
Proof. apply reach_mount. Qed.

Lemma draggedGame_reachable : reachable draggedGame.
Proof.
  apply (reach_step startGame (Frame (pinchFrame 16))).
  - exact startGame_reachable.
  - reflexivity.
Qed.

Lemma lockedGame_reachable : reachable lockedGame.
Proof.
  unfold lockedGame.
  set (g1 := set_captureRequestRef true (set_initTimerPending false startGame)).
  assert (H1 : reachable g1).
  { apply (reach_step startGame InitTimer); [exact startGame_reachable |].
    unfold g1, step, startGame. destruct (mount_mounted 1000 1000 allRed) as [c ->].
    reflexivity. }
  assert (H2 : reachable (onResults (idleFrame 16) g1)).
  { apply (reach_step g1 (Frame (idleFrame 16))); [exact H1 | reflexivity]. }
  apply (reach_step (onResults (idleFrame 16) g1) Analysis); [exact H2 |].
  unfold step.
  assert (E : onResults (idleFrame 16) g1 = capture (ease g1)).
  { unfold g1, startGame. destruct (mount_mounted 1000 1000 allRed) as [c ->].
    apply onResults_idle; reflexivity. }
  assert (Hn : analysesScheduled (onResults (idleFrame 16) g1) = 1%nat).
  { rewrite E. unfold g1, startGame.
    destruct (mount_mounted 1000 1000 allRed) as [c ->]. reflexivity. }
  rewrite Hn. reflexivity.
Qed.

(** The drag of 80 px is released as a shot: p = 80/180 and
    m = 0.15 + 0.30 * (4/9)^2. *)
Lemma release_velocity_witness :
  reachable draggedGame
  /\ isPinching (resize (idleFrame 33) draggedGame) = true
  /\ isAiThinkingRef (resize (idleFrame 33) draggedGame) = false
  /\ (handPos (idleFrame 33) (resize (idleFrame 33) draggedGame) = None
      \/ (PINCH_THRESHOLD <= pinchDist (idleFrame 33))%R)
  /\ ballVel (slingshot (idleFrame 33) (resize (idleFrame 33) draggedGame))
     = Point.mk (0 * (0.15 + 0.30 * (4 / 9) ^ 2)) (-80 * (0.15 + 0.30 * (4 / 9) ^ 2)).
Proof.
  assert (H1 : isPinching (resize (idleFrame 33) draggedGame) = true).
  { destruct (resize_flags (idleFrame 33) draggedGame) as [-> _].
    destruct draggedGame_eq as [c ->]. reflexivity. }
  assert (H2 : isAiThinkingRef (resize (idleFrame 33) draggedGame) = false).
  { destruct (resize_flags (idleFrame 33) draggedGame) as [_ [_ [-> _]]].
    destruct draggedGame_eq as [c ->]. reflexivity. }
  assert (H3 : handPos (idleFrame 33) (resize (idleFrame 33) draggedGame) = None
               \/ (PINCH_THRESHOLD <= pinchDist (idleFrame 33))%R)
    by (left; reflexivity).
  split; [exact draggedGame_reachable |].
  split; [exact H1 |]. split; [exact H2 |]. split; [exact H3 |].
  destruct (release_velocity (idleFrame 33) draggedGame
              draggedGame_reachable H1 H2 H3) as [_ [_ Hfire]].
  assert (Hr : resize (idleFrame 33) draggedGame = draggedGame).
  { unfold resize. destruct draggedGame_eq as [c ->]. cbn.
    rewrite !Reqb_refl. reflexivity. }
  rewrite Hr in *.
  assert (Ha : anchorPos draggedGame = Point.mk 500 780
               /\ ballPos draggedGame = Point.mk 500 860).
  { destruct draggedGame_eq as [c ->]. cbn. unfold SLINGSHOT_BOTTOM_OFFSET.
    split; f_equal; lra. }
  destruct Ha as [Ha Hb]. rewrite Ha, Hb in Hfire. cbn [Point.x Point.y] in Hfire.
  assert (Hst : sqrt ((500 - 500) * (500 - 500) + (780 - 860) * (780 - 860)) = 80%R)
    by (apply sqrt_sq_80; lra).
  rewrite Hst in Hfire.
  destruct (Hfire ltac:(lra)) as [_ [_ [_ Hv]]].
  rewrite Hv. unfold MAX_DRAG_DIST, MIN_FORCE_MULT, MAX_FORCE_MULT.
  replace (Rmin (80 / 180) 1) with (4 / 9)%R
    by (unfold Rmin; destruct (Rle_dec (80 / 180) 1); lra).
  f_equal; lra.
Defined.


(** ** Placement *)

Lemma upto_In (n x : Z) : In x (upto n) <-> 0 <= x < n.
Proof.
  unfold upto. rewrite in_map_iff. split.
  - intros [k [<- Hk]]. apply in_seq in Hk. lia.
  - intros H. exists (Z.to_nat x). split; [lia |]. apply in_seq. lia.
Qed.

(** The cells the loops visit: rows below [rows], columns of the row. *)
Lemma cellsOfRows_In (rows r c : Z) :
  In (r, c) (cellsOfRows rows) <-> 0 <= r < rows /\ 0 <= c < colsInRow r.
Proof.
  unfold cellsOfRows. rewrite in_flat_map. split.
  - intros [r' [Hr Hc]]. apply in_map_iff in Hc.
    destruct Hc as [c' [E Hc]]. injection E as <- <-.
    apply upto_In in Hr, Hc. tauto.
  - intros [Hr Hc]. exists r. split; [apply upto_In; exact Hr |].
    apply in_map_iff. exists c. split; [reflexivity | apply upto_In; exact Hc].
Qed.

Lemma scanCell_eq (width : R) (bs : list Bubble) (ball : Point) (b : Best) (r c : Z) :
  scanCell width bs ball b (r, c) =
  if occupied bs r c then b
  else if closer (cellDistance width ball (r, c)) (bestDist b)
       then mkBest (Some (cellDistance width ball (r, c))) r c
                   (Point.x (getBubblePos r c width))
                   (Point.y (getBubblePos r c width))
       else b.
Proof. reflexivity. Qed.

#[local] Arguments getBubblePos _ _ _ : simpl never.
#[local] Arguments cellDistance _ _ _ : simpl never.
#[local] Arguments distance _ _ _ _ : simpl never.

Lemma scanCell_BestOf (width : R) (bs : list Bubble) (ball : Point)
  (seen : list (Z * Z)) (b : Best) (rc : Z * Z) :
  BestOf width bs ball seen b ->
  BestOf width bs ball (seen ++ [rc]) (scanCell width bs ball b rc).
Proof.
  intros H. destruct rc as [r c]. rewrite scanCell_eq.
  destruct (occupied bs r c) eqn:Hocc.
  - (* occupied: continue *)
    unfold BestOf in *. destruct (bestDist b) as [d|].
    + destruct H as [H1 [H2 [H3 [H4 H5]]]].
      split; [apply in_or_app; left; exact H1 |]. repeat split; auto.
      intros rc Hin Hfree. apply in_app_or in Hin.
      destruct Hin as [Hin|[<-|[]]]; [auto |].
      unfold free in Hfree. cbn in Hfree. congruence.
    + destruct H as [H1 H2]. split; [exact H1 |].
      intros rc Hin. apply in_app_or in Hin.
      destruct Hin as [Hin|[<-|[]]]; [auto |].
      unfold free. cbn. congruence.
  - unfold BestOf in *. destruct (bestDist b) as [d|] eqn:Hd; cbn [closer].
    + destruct H as [H1 [H2 [H3 [H4 H5]]]].
      destruct (Rltb (cellDistance width ball (r, c)) d) eqn:Hlt.
      * apply Rltb_true in Hlt. cbn.
        split; [apply in_or_app; right; left; reflexivity |].
        split; [exact Hocc |]. split; [reflexivity |].
        split; [destruct (getBubblePos r c width); reflexivity |].
        intros rc Hin Hfree. apply in_app_or in Hin.
        destruct Hin as [Hin|[<-|[]]]; [| lra].
        specialize (H5 rc Hin Hfree). lra.
      * apply Rltb_false in Hlt. rewrite Hd.
        split; [apply in_or_app; left; exact H1 |]. repeat split; auto.
        intros rc Hin Hfree. apply in_app_or in Hin.
        destruct Hin as [Hin|[<-|[]]]; [auto | exact Hlt].
    + cbn.
      split; [apply in_or_app; right; left; reflexivity |].
      split; [exact Hocc |]. split; [reflexivity |].
      split; [destruct (getBubblePos r c width); reflexivity |].
      destruct H as [_ H2].
      intros rc Hin Hfree. apply in_app_or in Hin.
      destruct Hin as [Hin|[<-|[]]]; [| lra].
      exfalso. exact (H2 rc Hin Hfree).
Qed.

Lemma scan_BestOf (width : R) (bs : list Bubble) (ball : Point)
  (cells seen : list (Z * Z)) (b : Best) :
  BestOf width bs ball seen b ->
  BestOf width bs ball (seen ++ cells) (fold_left (scanCell width bs ball) cells b).
Proof.
  revert seen b. induction cells as [|rc cells IH]; intros seen b H; cbn.
  - rewrite app_nil_r. exact H.
  - replace (seen ++ rc :: cells)%list with ((seen ++ [rc]) ++ cells)%list
      by (rewrite <- app_assoc; reflexivity).
    apply IH. apply scanCell_BestOf. exact H.
Qed.

Lemma nearestFreeCell_BestOf (width : R) (bs : list Bubble) (ball : Point) :
  BestOf width bs ball (cellsOfRows (GRID_ROWS + 5)) (nearestFreeCell width bs ball).
Proof.
  unfold nearestFreeCell.
  assert (H : BestOf width bs ball [] (mkBest None 0 0 0 0)).
  { unfold BestOf. cbn [bestDist]. split; [reflexivity |]. intros rc []. }
  exact (scan_BestOf width bs ball (cellsOfRows (GRID_ROWS + 5)) [] _ H).
Qed.

(** With a free cell in the rows searched, the search finds a nearest one. *)
Lemma nearestFreeCell_found (width : R) (bs : list Bubble) (ball : Point) :
  (exists rc, In rc (cellsOfRows (GRID_ROWS + 5)) /\ free bs rc) ->
  let best := nearestFreeCell width bs ball in
  In (bestRow best, bestCol best) (cellsOfRows (GRID_ROWS + 5))
  /\ free bs (bestRow best, bestCol best)
  /\ Point.mk (bestX best) (bestY best)
     = getBubblePos (bestRow best) (bestCol best) width
  /\ forall rc, In rc (cellsOfRows (GRID_ROWS + 5)) -> free bs rc ->
       (cellDistance width ball (bestRow best, bestCol best)
        <= cellDistance width ball rc)%R.
Proof.
  intros [rc0 [Hin0 Hfree0]].
  assert (H := nearestFreeCell_BestOf width bs ball).
  generalize dependent (nearestFreeCell width bs ball). intros best H. cbv zeta.
  unfold BestOf in H. destruct (bestDist best) as [d|].
  - destruct H as [H1 [H2 [H3 [H4 H5]]]]. subst d.
    split; [exact H1 |]. split; [exact H2 |]. split; [exact H4 | exact H5].
  - destruct H as [_ H2]. exfalso. exact (H2 rc0 Hin0 Hfree0).
Qed.

(** With every cell of the rows searched occupied, the search returns its
    initial values: row 0, column 0, pixel (0, 0). *)
Lemma nearestFreeCell_full (width : R) (bs : list Bubble) (ball : Point) :
  (forall rc, In rc (cellsOfRows (GRID_ROWS + 5)) -> ~ free bs rc) ->
  nearestFreeCell width bs ball = mkBest None 0 0 0 0.
Proof.
  intros Hfull.
  assert (H := nearestFreeCell_BestOf width bs ball).
  generalize dependent (nearestFreeCell width bs ball). intros best H.
  unfold BestOf in H. destruct (bestDist best) as [d|].
  - destruct H as [H1 [H2 _]]. exfalso. exact (Hfull _ H1 H2).
  - exact (proj1 H).
Qed.

(** [checkMatches] keeps the array's length and, at each index, the bubble
    or the bubble deactivated. *)
Lemma checkMatches_nth (bs : list Bubble) (start : nat) (score eliminated : Z) (i : nat) :
  nth_error (mo_bubbles (checkMatches bs start score eliminated)) i = nth_error bs i
  \/ nth_error (mo_bubbles (checkMatches bs start score eliminated)) i
     = option_map Bubble.deactivate (nth_error bs i).
Proof.
  unfold checkMatches.
  destruct (nth_error bs start) as [s0|]; [| left; reflexivity].
  destruct (floodFill _ _ _ _ _ _) as [matches|]; [| left; reflexivity].
  destruct (Z.of_nat (List.length matches) >=? 3); [| left; reflexivity].
  destruct (popMatches_spec (points (Bubble.color s0)) matches bs) as [Hpop _].
  destruct (popMatches _ _ _) as [bs' pts]. cbn in *.
  rewrite Hpop. destruct (existsb _ _); auto.
Qed.

(** The bubble pushed by [placeBubble] stays at its index, with the cell,
    the pixel position and the colour it was given. *)
Lemma placeBubble_new (width : R) (ball : Point) (color : BubbleColor) (now : Z)
  (bs : list Bubble) (score eliminated : Z) :
  let best := nearestFreeCell width bs ball in
  exists b,
    nth_error (mo_bubbles (placeBubble width ball color now bs score eliminated))
              (List.length bs) = Some b
    /\ Bubble.row b = bestRow best /\ Bubble.col b = bestCol best
    /\ Bubble.x b = bestX best /\ Bubble.y b = bestY best
    /\ Bubble.color b = color.
Proof.
  intros best. unfold placeBubble. fold best.
  set (newBubble := Bubble.mk _ _ _ _ _ _ _).
  assert (Hn : nth_error (bs ++ [newBubble]) (List.length bs) = Some newBubble).
  { rewrite nth_error_app2 by lia. rewrite Nat.sub_diag. reflexivity. }
  destruct (checkMatches_nth (bs ++ [newBubble]) (List.length bs) score eliminated
              (List.length bs)) as [E|E]; rewrite E, Hn.
  - exists newBubble. cbn. tauto.
  - exists (Bubble.deactivate newBubble). cbn. tauto.
Qed.

(** C4, amended. When some cell of the rows 0 to GRID_ROWS + 4 is free, the
    placement step commits the new bubble, in the selected colour, at a free
    cell of those rows whose centre is nearest to the collision position: no
    free cell of those rows is nearer. The row of the new bubble is below
    GRID_ROWS + 5. *)
Theorem placement_nearest_in_window
  (width : R) (ball : Point) (color : BubbleColor) (now : Z)
  (bs : list Bubble) (score eliminated : Z) :
  (exists r c, 0 <= r < GRID_ROWS + 5 /\ 0 <= c < colsInRow r
               /\ occupied bs r c = false) ->
  exists b,
    nth_error (mo_bubbles (placeBubble width ball color now bs score eliminated))
              (List.length bs) = Some b
    /\ Bubble.color b = color
    /\ 0 <= Bubble.row b < GRID_ROWS + 5
    /\ 0 <= Bubble.col b < colsInRow (Bubble.row b)
    /\ occupied bs (Bubble.row b) (Bubble.col b) = false
    /\ Point.mk (Bubble.x b) (Bubble.y b)
       = getBubblePos (Bubble.row b) (Bubble.col b) width
    /\ forall r c, 0 <= r < GRID_ROWS + 5 -> 0 <= c < colsInRow r ->
         occupied bs r c = false ->
         (distance (Point.x ball) (Point.y ball) (Bubble.x b) (Bubble.y b)
          <= cellDistance width ball (r, c))%R.
Proof.
  intros [r0 [c0 [Hr0 [Hc0 Hfree0]]]].
  assert (Hfound := nearestFreeCell_found width bs ball
    (ex_intro _ (r0, c0) (conj (proj2 (cellsOfRows_In _ r0 c0) (conj Hr0 Hc0)) Hfree0))).
  assert (Hnew := placeBubble_new width ball color now bs score eliminated).
  cbv zeta in Hfound, Hnew.
  generalize dependent (nearestFreeCell width bs ball). intros best Hfound Hnew.
  destruct Hfound as [H1 [H2 [H3 H4]]].
  destruct Hnew as [b [Hb [Er [Ec [Ex [Ey Ecol]]]]]].
  exists b. split; [exact Hb |]. split; [exact Ecol |].
  rewrite Er, Ec, Ex, Ey.
  apply cellsOfRows_In in H1. destruct H1 as [Hrow Hcol].
  split; [exact Hrow |]. split; [exact Hcol |]. split; [exact H2 |].
  split; [exact H3 |].
  intros r c Hr Hc Hfree.
  assert (Hd := H4 (r, c) (proj2 (cellsOfRows_In _ r c) (conj Hr Hc)) Hfree).
  unfold cellDistance in Hd at 1. cbn [fst snd] in Hd.
  rewrite <- H3 in Hd. exact Hd.
Qed.


(** ** Pixel geometry of the grid *)

Lemma sqrt3_bounds : (1.732 < sqrt 3 < 1.7321)%R.
Proof.
  split; (apply Rsqr_incrst_0; [| try apply sqrt_pos; lra | try apply sqrt_pos; lra]);
    rewrite Rsqr_sqrt by lra; unfold Rsqr; lra.
Qed.

Lemma ROW_HEIGHT_bounds : (38.1 < ROW_HEIGHT < 38.11)%R.
Proof.
  unfold ROW_HEIGHT, BUBBLE_RADIUS. assert (H := sqrt3_bounds). lra.
Qed.

Lemma getBubblePos_x (r c : Z) (width : R) :
  Point.x (getBubblePos r c width)
  = ((width - 528) / 2 + 22 + IZR c * 44 + (if Z.odd r then 22 else 0))%R.
Proof.
  unfold getBubblePos. cbn [Point.x]. rewrite isOddRow_odd.
  unfold GRID_COLS, BUBBLE_RADIUS. destruct (Z.odd r); lra.
Qed.

Lemma getBubblePos_y (r c : Z) (width : R) :
  Point.y (getBubblePos r c width) = (22 + IZR r * ROW_HEIGHT)%R.
Proof. unfold getBubblePos. cbn [Point.y]. unfold BUBBLE_RADIUS. reflexivity. Qed.

Lemma distance_ge_dy (ax ay bx by' : R) :
  (ay - by' <= distance ax ay bx by')%R.
Proof.
  unfold distance.
  destruct (Rle_dec (ay - by') 0) as [Hn|Hp].
  - assert (H := sqrt_pos ((ax - bx) ^ 2 + (ay - by') ^ 2)). lra.
  - rewrite <- (sqrt_pow2 (ay - by')) at 1 by lra.
    apply sqrt_le_1_alt. assert (H := pow2_ge_0 (ax - bx)). lra.
Qed.

Lemma distance_ge_dx (ax ay bx by' : R) :
  (ax - bx <= distance ax ay bx by')%R.
Proof.
  unfold distance.
  destruct (Rle_dec (ax - bx) 0) as [Hn|Hp].
  - assert (H := sqrt_pos ((ax - bx) ^ 2 + (ay - by') ^ 2)). lra.
  - rewrite <- (sqrt_pow2 (ax - bx)) at 1 by lra.
    apply sqrt_le_1_alt. assert (H := pow2_ge_0 (ay - by')). lra.
Qed.

Lemma distance_sym (ax ay bx by' : R) :
  distance ax ay bx by' = distance bx by' ax ay.
Proof. unfold distance. f_equal. ring. Qed.

Lemma distance_lt (ax ay bx by' d : R) :
  (0 <= d)%R -> ((ax - bx) ^ 2 + (ay - by') ^ 2 < d ^ 2)%R ->
  (distance ax ay bx by' < d)%R.
Proof.
  intros Hd H. unfold distance. rewrite <- (sqrt_pow2 d) by exact Hd.
  apply sqrt_lt_1_alt. split; [| exact H].
  assert (H1 := pow2_ge_0 (ax - bx)). assert (H2 := pow2_ge_0 (ay - by')). lra.
Qed.

Lemma distance_vertical (ax ay by' : R) :
  (by' <= ay)%R -> distance ax ay ax by' = (ay - by')%R.
Proof.
  intros H. unfold distance.
  replace ((ax - ax) ^ 2 + (ay - by') ^ 2)%R with ((ay - by') ^ 2)%R by ring.
  apply sqrt_pow2. lra.
Qed.

Lemma colsInRow_odd (r : Z) : colsInRow r = if Z.odd r then 11 else 12.
Proof. unfold colsInRow. rewrite isOddRow_odd. reflexivity. Qed.

(** ** C4: a collision under row 12 *)

Lemma lowBall_collides : collides leftColumn lowBall = true.
Proof.
  unfold collides. apply orb_true_iff. right.
  unfold hitsBubble. apply existsb_exists.
  exists (Bubble.mk "12-0" 12 0 (Point.x (getBubblePos 12 0 1000))
                    (Point.y (getBubblePos 12 0 1000)) red true).
  split.
  - unfold leftColumn. apply in_map_iff. exists 12. split; [reflexivity |].
    apply upto_In. lia.
  - cbn [Bubble.active Bubble.x Bubble.y andb lowBall Point.x Point.y].
    apply Rltb_true. rewrite getBubblePos_x, getBubblePos_y. cbn [Z.odd].
    replace ((1000 - 528) / 2 + 22 + 0 * 44 + 0)%R with 258%R by lra.
    rewrite distance_vertical by lra. unfold BUBBLE_RADIUS. lra.
Qed.

Lemma leftColumn_occupied (r c : Z) :
  occupied leftColumn r c = true <-> 0 <= r < 13 /\ c = 0.
Proof.
  unfold occupied. rewrite existsb_exists. split.
  - intros [b [Hin H]]. unfold leftColumn in Hin. apply in_map_iff in Hin.
    destruct Hin as [r' [<- Hr']]. apply upto_In in Hr'.
    cbn [Bubble.active Bubble.row Bubble.col andb] in H.
    apply andb_true_iff in H. destruct H as [H1 H2].
    apply Z.eqb_eq in H1, H2. lia.
  - intros [Hr ->].
    exists (Bubble.mk (showZ r ++ "-0") r 0 (Point.x (getBubblePos r 0 1000))
                      (Point.y (getBubblePos r 0 1000))
                      (if Z.odd r then blue else red) true).
    split.
    + unfold leftColumn. apply in_map_iff. exists r. split; [reflexivity |].
      apply upto_In. lia.
    + cbn [Bubble.active Bubble.row Bubble.col andb].
      rewrite !Z.eqb_refl. reflexivity.
Qed.

(** C4, as stated, fails. The ball stops under the bubble of row 12; the
    cell (13, 0) is free and its centre is about 22 px away; the bubble is
    committed in a row below 13, at least 39 px away. *)
Lemma placement_row_ceiling :
  collides leftColumn lowBall = true
  /\ 0 <= 0 < colsInRow 13
  /\ occupied leftColumn 13 0 = false
  /\ exists b,
       nth_error (mo_bubbles (placeBubble 1000 lowBall green 1700000000000
                                          leftColumn 0 0)) 13 = Some b
       /\ (cellDistance 1000 lowBall (13, 0)%Z
           < distance (Point.x lowBall) (Point.y lowBall) (Bubble.x b) (Bubble.y b))%R.
Proof.
  split; [exact lowBall_collides |].
  split; [rewrite colsInRow_odd; cbn [Z.odd]; lia |].
  assert (Hfree13 : occupied leftColumn 13 0 = false).
  { destruct (occupied leftColumn 13 0) eqn:E; [| reflexivity].
    apply leftColumn_occupied in E. lia. }
  split; [exact Hfree13 |].
  assert (Hfound := nearestFreeCell_found 1000 leftColumn lowBall).
  assert (Hnew := placeBubble_new 1000 lowBall green 1700000000000 leftColumn 0 0).
  cbv zeta in Hfound, Hnew.
  generalize dependent (nearestFreeCell 1000 leftColumn lowBall).
  intros best Hfound Hnew.
  destruct Hfound as [H1 [_ [H3 _]]].
  { exists (12, 1). split.
    { apply cellsOfRows_In. rewrite colsInRow_odd. unfold GRID_ROWS.
      cbn [Z.odd]. lia. }
    unfold free. cbn [fst snd].
    destruct (occupied leftColumn 12 1) eqn:E; [| reflexivity].
    apply leftColumn_occupied in E. lia. }
  destruct Hnew as [b [Hb [_ [_ [Ex [Ey _]]]]]].
  exists b. split; [exact Hb |].
  rewrite Ex, Ey.
  apply cellsOfRows_In in H1. destruct H1 as [Hrow _].
  assert (HY : bestY best = (22 + IZR (bestRow best) * ROW_HEIGHT)%R).
  { rewrite <- (getBubblePos_y (bestRow best) (bestCol best) 1000), <- H3. reflexivity. }
  assert (HRH := ROW_HEIGHT_bounds).
  assert (Hrow' : (IZR (bestRow best) <= 12)%R)
    by (apply IZR_le; unfold GRID_ROWS in Hrow; lia).
  apply Rlt_le_trans with (r2 := 39%R).
  - unfold cellDistance. cbn [fst snd lowBall Point.x Point.y].
    rewrite getBubblePos_x, getBubblePos_y. cbn [Z.odd].
    apply distance_lt; [lra |]. nra.
  - eapply Rle_trans; [| apply distance_ge_dy].
    cbn [lowBall Point.y]. rewrite HY. nra.
Qed.


(** ** A bubble with no neighbour of its colour *)

(** Popping references of other colours leaves the matches alone. *)
Lemma floodFill_others (bs : list Bubble) (tc : BubbleColor) (fuel : nat) :
  forall toCheck visited matches,
  (forall i, In i toCheck ->
     exists b, nth_error bs i = Some b /\ Bubble.color b <> tc) ->
  (List.length toCheck + S (List.length bs) * unvisited bs visited < fuel)%nat ->
  floodFill fuel bs tc toCheck visited matches = Some matches.
Proof.
  induction fuel as [|fuel IH]; intros toCheck visited matches Hall Hfuel; [lia |].
  destruct toCheck as [|cur rest]; cbn [floodFill]; [reflexivity |].
  destruct (Hall cur (or_introl eq_refl)) as [current [Hcur Hcol]].
  rewrite Hcur.
  assert (Hrest : forall i, In i rest ->
            exists b, nth_error bs i = Some b /\ Bubble.color b <> tc)
    by (intros i Hi; apply Hall; right; exact Hi).
  destruct (setHas visited (Bubble.id current)).
  { apply IH; [exact Hrest |]. cbn [List.length] in Hfuel. lia. }
  destruct (BubbleColor_eqb (Bubble.color current) tc) eqn:E.
  { apply BubbleColor_eqb_eq in E. contradiction. }
  apply IH; [exact Hrest |].
  assert (H2 := unvisited_cons_le bs visited (Bubble.id current)).
  assert (H4 : (S (List.length bs) * unvisited bs (Bubble.id current :: visited)
                <= S (List.length bs) * unvisited bs visited)%nat)
    by (apply Nat.mul_le_mono_l; lia).
  cbn [List.length] in Hfuel. lia.
Qed.

(** Match detection from a bubble none of whose active neighbours has its
    colour changes nothing. *)
Lemma checkMatches_isolated (bs : list Bubble) (start : nat) (s0 : Bubble)
  (score eliminated : Z) :
  nth_error bs start = Some s0 ->
  (forall j bj, nth_error bs j = Some bj -> Bubble.active bj = true ->
     isNeighbor s0 bj = true -> Bubble.color bj <> Bubble.color s0) ->
  checkMatches bs start score eliminated = mkOutcome bs score eliminated false.
Proof.
  intros Hstart Hiso. unfold checkMatches. rewrite Hstart.
  unfold floodFuel.
  remember (S (List.length bs * S (List.length bs))) as fuel eqn:Hfuel.
  cbn [floodFill]. rewrite Hstart.
  change (setHas [] (Bubble.id s0)) with false. cbv iota.
  rewrite (proj2 (BubbleColor_eqb_eq _ _) eq_refl).
  rewrite floodFill_others.
  - reflexivity.
  - intros i Hi. rewrite app_nil_r in Hi. apply in_rev in Hi.
    apply refsWhere_In in Hi. destruct Hi as [b [Hb Hp]].
    apply andb_true_iff in Hp. destruct Hp as [Hp Hnb].
    apply andb_true_iff in Hp. destruct Hp as [Hact _].
    exists b. split; [exact Hb | eapply Hiso; eauto].
  - rewrite app_nil_r, length_rev.
    assert (H1 := neighbors_le_unvisited bs [Bubble.id s0] s0).
    assert (H2 := unvisited_cons_lt bs [] start s0 Hstart eq_refl).
    assert (H3 := unvisited_le bs []).
    assert (H4 : (S (List.length bs) * S (unvisited bs [Bubble.id s0])
                  <= S (List.length bs) * List.length bs)%nat)
      by (apply Nat.mul_le_mono_l; lia).
    rewrite Nat.mul_succ_r in H4. subst fuel.
    rewrite (Nat.mul_comm (List.length bs) (S (List.length bs))). lia.
Qed.

(** ** A colouring in which no two adjacent cells agree *)

Lemma triColor_neighbor (a b : Bubble) :
  isNeighbor a b = true ->
  triColor (Bubble.row a) (Bubble.col a) <> triColor (Bubble.row b) (Bubble.col b).
Proof.
  intros H. apply isNeighbor_cases in H. cbv zeta in H.
  unfold triColor.
  set (ra := Bubble.row a) in *. set (ca := Bubble.col a) in *.
  set (rb := Bubble.row b) in *. set (cb := Bubble.col b) in *.
  assert (Hodd : Z.odd ra = true -> ra = 2 * (ra / 2) + 1).
  { intros Ho. rewrite (Z.div_mod ra 2) at 1 by lia. rewrite Zmod_odd, Ho. lia. }
  assert (Heven : Z.odd ra = false -> ra = 2 * (ra / 2)).
  { intros Ho. rewrite (Z.div_mod ra 2) at 1 by lia. rewrite Zmod_odd, Ho. lia. }
  assert (Hd : (cb - rb / 2 - rb) mod 3 <> (ca - ra / 2 - ra) mod 3).
  { destruct H as [[Hr Hc]|[Hr Hc]].
    - replace rb with ra by lia. intros E.
      apply (f_equal (fun x => x)) in E.
      assert (E' := Z.div_mod (cb - ra / 2 - ra) 3 ltac:(lia)).
      assert (E'' := Z.div_mod (ca - ra / 2 - ra) 3 ltac:(lia)).
      lia.
    - assert (E' := Z.div_mod (cb - rb / 2 - rb) 3 ltac:(lia)).
      assert (E'' := Z.div_mod (ca - ra / 2 - ra) 3 ltac:(lia)).
      assert (B1 := Z.mod_pos_bound (cb - rb / 2 - rb) 3 ltac:(lia)).
      assert (B2 := Z.mod_pos_bound (ca - ra / 2 - ra) 3 ltac:(lia)).
      assert (D1 := Z.div_mod rb 2 ltac:(lia)).
      assert (M1 := Z.mod_pos_bound rb 2 ltac:(lia)).
      destruct (Z.odd ra) eqn:Ho.
      + specialize (Hodd eq_refl). intros E. lia.
      + specialize (Heven eq_refl). intros E. lia. }
  assert (B1 := Z.mod_pos_bound (cb - rb / 2 - rb) 3 ltac:(lia)).
  assert (B2 := Z.mod_pos_bound (ca - ra / 2 - ra) 3 ltac:(lia)).
  destruct ((ca - ra / 2 - ra) mod 3) as [|[p|p|]|]; try lia;
  destruct ((cb - rb / 2 - rb) mod 3) as [|[q|q|]|]; try lia; try discriminate;
  congruence.
Qed.


(** ** C3: boards *)

Lemma Tiled_occupied (width : R) (cells : list (Z * Z)) (bs : list Bubble) (r c : Z) :
  Tiled width cells bs -> (occupied bs r c = true <-> In (r, c) cells).
Proof.
  intros H. unfold occupied. rewrite existsb_exists.
  induction H as [|rc b cells bs Ht _ IH].
  - split; [intros [b [[] _]] | intros []].
  - destruct Ht as [Hr [Hc [_ [_ Ha]]]]. split.
    + intros [b' [[<-|Hin] Hb]].
      * rewrite Ha, Hr, Hc in Hb. cbn [andb] in Hb.
        apply andb_true_iff in Hb. destruct Hb as [E1 E2].
        apply Z.eqb_eq in E1, E2. left. destruct rc. cbn in *. congruence.
      * right. apply IH. exists b'. split; assumption.
    + intros [E|Hin].
      * exists b. split; [left; reflexivity |]. subst rc. cbn [fst snd] in *.
        rewrite Ha, Hr, Hc, !Z.eqb_refl. reflexivity.
      * apply IH in Hin. destruct Hin as [b' [Hin Hb]].
        exists b'. split; [right; exact Hin | exact Hb].
Qed.

Lemma Tiled_nth (width : R) (cells : list (Z * Z)) (bs : list Bubble) (j : nat) (b : Bubble) :
  Tiled width cells bs -> nth_error bs j = Some b ->
  exists rc, nth_error cells j = Some rc /\ tile width rc b.
Proof.
  intros H. revert j. induction H as [|rc b' cells bs Ht _ IH]; intros j Hj.
  - destruct j; discriminate.
  - destruct j as [|j]; cbn in *.
    + injection Hj as <-. exists rc. split; [reflexivity | exact Ht].
    + apply IH. exact Hj.
Qed.

Lemma initGrid_Tiled (width : R) : Tiled width (cellsOfRows 5) (initGrid width triFill).
Proof.
  unfold initGrid, Tiled. generalize (cellsOfRows 5).
  induction l as [|[r c] l IH]; cbn [flat_map]; [constructor |].
  unfold triFill at 1. cbn [app]. constructor; [| exact IH].
  unfold tile. cbn [Bubble.row Bubble.col Bubble.x Bubble.y Bubble.color
                    Bubble.active fst snd].
  repeat split.
Qed.

Lemma window_length : List.length window = 150%nat.
Proof. reflexivity. Qed.

Lemma window_prefix : cellsOfRows 5 = firstn 58 window.
Proof. reflexivity. Qed.

Lemma hasUpper_rows (k : nat) : (58 <= k < 150)%nat -> hasUpper k = true.
Proof.
  intros Hk.
  assert (H : forallb hasUpper (seq 58 92) = true) by (vm_compute; reflexivity).
  rewrite forallb_forall in H. apply H. apply in_seq. lia.
Qed.


Lemma aim_distance (width : R) (rc : Z * Z) :
  cellDistance width (aim width rc) rc = 6%R.
Proof.
  unfold cellDistance, aim. cbn [Point.x Point.y].
  rewrite distance_sym, distance_vertical by lra. lra.
Qed.

Lemma IZR_gap (a b : Z) : a < b -> (IZR a + 1 <= IZR b)%R.
Proof. intros H. rewrite <- plus_IZR. apply IZR_le. lia. Qed.

(** Every other cell is farther from that position. *)
Lemma aim_apart (width : R) (rc rc' : Z * Z) :
  rc <> rc' -> (6 < cellDistance width (aim width rc) rc')%R.
Proof.
  destruct rc as [r c], rc' as [r' c']. intros Hne.
  unfold cellDistance, aim. cbn [fst snd Point.x Point.y].
  rewrite !getBubblePos_x, !getBubblePos_y.
  assert (HRH := ROW_HEIGHT_bounds).
  destruct (Z.lt_trichotomy r r') as [Hr|[Hr|Hr]].
  - apply IZR_gap in Hr.
    eapply Rlt_le_trans; [| rewrite distance_sym; apply distance_ge_dy]. nra.
  - subst r'. assert (Hc : c <> c') by congruence.
    destruct (Z.lt_trichotomy c c') as [Hlt|[Heq|Hgt]]; [| contradiction |].
    + apply IZR_gap in Hlt.
      eapply Rlt_le_trans; [| rewrite distance_sym; apply distance_ge_dx].
      destruct (Z.odd r); lra.
    + apply IZR_gap in Hgt.
      eapply Rlt_le_trans; [| apply distance_ge_dx].
      destruct (Z.odd r); lra.
  - apply IZR_gap in Hr.
    eapply Rlt_le_trans; [| apply distance_ge_dy]. nra.
Qed.

(** The cell above, half a cell aside, is within collision range of it. *)
Lemma aim_hits_upper (width : R) (r c : Z) (u : Z * Z) :
  fst u = r - 1 ->
  snd u = c \/ snd u = c + (if Z.odd r then 1 else -1) ->
  (distance (Point.x (aim width (r, c))) (Point.y (aim width (r, c)))
            (Point.x (getBubblePos (fst u) (snd u) width))
            (Point.y (getBubblePos (fst u) (snd u) width))
   < BUBBLE_RADIUS * 1.8)%R.
Proof.
  destruct u as [r' c']. cbn [fst snd]. intros -> Hc.
  unfold aim. cbn [fst snd Point.x Point.y].
  rewrite !getBubblePos_x, !getBubblePos_y.
  assert (HRH := ROW_HEIGHT_bounds).
  replace (Z.odd (r - 1)) with (negb (Z.odd r))
    by (symmetry; apply odd_succ_row; lia).
  rewrite minus_IZR.
  unfold BUBBLE_RADIUS.
  apply distance_lt; [lra |].
  destruct (Z.odd r); cbn [negb]; destruct Hc as [-> | ->];
    rewrite ?plus_IZR; nra.
Qed.

Lemma Tiled_In (width : R) (cells : list (Z * Z)) (bs : list Bubble) (rc : Z * Z) :
  Tiled width cells bs -> In rc cells -> exists b, In b bs /\ tile width rc b.
Proof.
  intros H. induction H as [|rc' b cells bs Ht _ IH]; intros Hin; [contradiction |].
  destruct Hin as [<-|Hin].
  - exists b. split; [left; reflexivity | exact Ht].
  - destruct (IH Hin) as [b' [Hb' Ht']]. exists b'. split; [right; exact Hb' | exact Ht'].
Qed.

Lemma window_NoDup : NoDup window.
Proof.
  assert (H : nodup (fun a b : Z * Z =>
                       ltac:(decide equality; apply Z.eq_dec) : {a = b} + {a <> b})
                    window = window) by (vm_compute; reflexivity).
  rewrite <- H. apply NoDup_nodup.
Qed.

Lemma isNeighbor_irrefl (a : Bubble) : isNeighbor a a = false.
Proof.
  destruct (isNeighbor a a) eqn:E; [| reflexivity].
  apply isNeighbor_cases in E. cbv zeta in E. lia.
Qed.

(** A bubble in the colour of its cell, pushed on a tiled board, matches
    nothing. *)
Lemma tiled_push_isolated (width : R) (cells : list (Z * Z)) (bs : list Bubble)
  (new : Bubble) (score eliminated : Z) :
  Tiled width cells bs ->
  Bubble.color new = triColor (Bubble.row new) (Bubble.col new) ->
  checkMatches (bs ++ [new]) (List.length bs) score eliminated
  = mkOutcome (bs ++ [new]) score eliminated false.
Proof.
  intros Ht Hcol.
  apply (checkMatches_isolated _ _ new).
  - rewrite nth_error_app2 by lia. rewrite Nat.sub_diag. reflexivity.
  - intros j bj Hj Hact Hnb.
    destruct (Nat.lt_ge_cases j (List.length bs)) as [Hlt|Hge].
    + rewrite nth_error_app1 in Hj by exact Hlt.
      destruct (Tiled_nth _ _ _ _ _ Ht Hj) as [rc [_ [Hr [Hc [_ [Hc' _]]]]]].
      rewrite Hc', Hcol, <- Hr, <- Hc.
      intros E. apply (triColor_neighbor new bj Hnb). congruence.
    + rewrite nth_error_app2 in Hj by exact Hge.
      destruct (j - List.length bs)%nat as [|n]; cbn in Hj.
      * injection Hj as <-. rewrite isNeighbor_irrefl in Hnb. discriminate.
      * destruct n; discriminate.
Qed.

(** One more cell of the scan can be filled by a placement. *)
Lemma fill_step (width : R) (k : nat) (bs : list Bubble)
  (now score eliminated : Z) :
  (58 <= k < 150)%nat ->
  Tiled width (firstn k window) bs ->
  exists ball color,
    collides bs ball = true
    /\ Tiled width (firstn (S k) window)
         (mo_bubbles (placeBubble width ball color now bs score eliminated)).
Proof.
  intros Hk Ht.
  destruct (nth_error window k) as [[r c]|] eqn:Hnth.
  2:{ apply nth_error_None in Hnth. rewrite window_length in Hnth. lia. }
  destruct (nth_error_split window k Hnth) as [l1 [l2 [HW Hl1]]].
  assert (Hfk : firstn k window = l1).
  { rewrite HW, <- Hl1, <- (Nat.add_0_r (List.length l1)), firstn_app_2.
    cbn. apply app_nil_r. }
  assert (HfS : firstn (S k) window = (l1 ++ [(r, c)])%list).
  { rewrite HW, <- Hl1, <- (Nat.add_1_r (List.length l1)), firstn_app_2.
    reflexivity. }
  assert (Hnot : ~ In (r, c) l1).
  { assert (Hnd := window_NoDup). rewrite HW in Hnd.
    apply NoDup_remove_2 in Hnd. intros Hin. apply Hnd.
    apply in_or_app. left. exact Hin. }
  assert (HinW : In (r, c) window) by (eapply nth_error_In; eauto).
  assert (Hfree : free bs (r, c)).
  { unfold free. cbn [fst snd]. destruct (occupied bs r c) eqn:E; [| reflexivity].
    apply (Tiled_occupied _ _ _ r c Ht) in E. rewrite Hfk in E. contradiction. }
  exists (aim width (r, c)), (triColor r c). split.
  - (* the ball touches the bubble above *)
    assert (Hup := hasUpper_rows k Hk). unfold hasUpper in Hup.
    rewrite Hnth in Hup. apply existsb_exists in Hup.
    destruct Hup as [u [Hu Hcond]].
    apply andb_true_iff in Hcond. destruct Hcond as [Hur Huc].
    apply Z.eqb_eq in Hur. apply orb_true_iff in Huc.
    rewrite !Z.eqb_eq in Huc.
    destruct (Tiled_In _ _ _ u Ht Hu) as [bu [Hbu [_ [_ [Hpos [_ Hact]]]]]].
    unfold collides. apply orb_true_iff. right.
    unfold hitsBubble. apply existsb_exists. exists bu. split; [exact Hbu |].
    rewrite Hact. cbn [andb]. apply Rltb_true.
    replace (Bubble.x bu) with (Point.x (getBubblePos (fst u) (snd u) width))
      by (rewrite <- Hpos; reflexivity).
    replace (Bubble.y bu) with (Point.y (getBubblePos (fst u) (snd u) width))
      by (rewrite <- Hpos; reflexivity).
    apply aim_hits_upper; assumption.
  - (* the search finds the cell, and the new bubble matches nothing *)
    assert (Hfound := nearestFreeCell_found width bs (aim width (r, c))
      (ex_intro _ (r, c) (conj HinW Hfree))).
    unfold placeBubble. cbv zeta in Hfound |- *.
    generalize dependent (nearestFreeCell width bs (aim width (r, c))).
    intros best [H1 [H2 [H3 H4]]].
    assert (Hbest : (bestRow best, bestCol best) = (r, c)).
    { destruct (Z.eq_dec (bestRow best) r) as [Er|Er];
      [destruct (Z.eq_dec (bestCol best) c) as [Ec|Ec]; [congruence |] |];
      exfalso;
      assert (Hd := H4 (r, c) HinW Hfree);
      rewrite aim_distance in Hd;
      assert (Hfar := aim_apart width (r, c) (bestRow best, bestCol best)
                        ltac:(congruence)); lra. }
    injection Hbest as Er Ec.
    rewrite (tiled_push_isolated width l1) by (rewrite <- ?Hfk; auto; cbn; congruence).
    cbn [mo_bubbles]. rewrite HfS. unfold Tiled.
    apply Forall2_app; [rewrite <- Hfk; exact Ht |].
    constructor; [| constructor].
    unfold tile. cbn [Bubble.row Bubble.col Bubble.x Bubble.y Bubble.color
                      Bubble.active fst snd].
    rewrite <- Er, <- Ec. repeat split; auto.
Qed.


(** Placements fill the rows searched, cell by cell. *)
Lemma fill_upto (d : nat) :
  (d <= 92)%nat ->
  exists bs, boardReachable bs /\ Tiled 1000 (firstn (58 + d) window) bs.
Proof.
  induction d as [|d IH]; intros Hd.
  - exists (initGrid 1000 triFill). split; [constructor |].
    rewrite Nat.add_0_r, <- window_prefix. apply initGrid_Tiled.
  - destruct (IH ltac:(lia)) as [bs [Hreach Ht]].
    destruct (fill_step 1000 (58 + d) bs 1700000000000 0 0 ltac:(lia) Ht)
      as [ball [color [Hcol Ht']]].
    exists (mo_bubbles (placeBubble 1000 ball color 1700000000000 bs 0 0)).
    split; [constructor; assumption |].
    rewrite Nat.add_succ_r. exact Ht'.
Qed.

Lemma full_board_reachable : exists bs, boardReachable bs /\ Tiled 1000 window bs.
Proof.
  destruct (fill_upto 92 (Nat.le_refl _)) as [bs [Hreach Ht]].
  exists bs. split; [exact Hreach |].
  rewrite firstn_all2 in Ht by (rewrite window_length; cbn; lia). exact Ht.
Qed.

Lemma Tiled_length (width : R) (cells : list (Z * Z)) (bs : list Bubble) :
  Tiled width cells bs -> List.length bs = List.length cells.
Proof. intros H. symmetry. eapply Forall2_length; eauto. Qed.

Lemma Tiled_unique (width : R) (cells : list (Z * Z)) (bs : list Bubble) :
  NoDup cells -> Tiled width cells bs -> uniqueCells bs.
Proof.
  intros Hnd Ht i j bi bj Hi Hj _ _ Hr Hc.
  destruct (Tiled_nth _ _ _ _ _ Ht Hi) as [[ri ci] [Hci [Ri [Ci _]]]].
  destruct (Tiled_nth _ _ _ _ _ Ht Hj) as [[rj cj] [Hcj [Rj [Cj _]]]].
  cbn [fst snd] in *.
  apply (proj1 (NoDup_nth_error cells) Hnd).
  - apply nth_error_Some. congruence.
  - rewrite Hci, Hcj. congruence.
Qed.

(** On a board that fills the rows searched, a ball that stops under the
    last row is committed at the cell (0, 0), which is taken. *)
Lemma full_board_placement (bs : list Bubble) :
  Tiled 1000 window bs ->
  let ball := Point.mk (Point.x (getBubblePos 12 0 1000))
                       (Point.y (getBubblePos 12 0 1000) + 39) in
  collides bs ball = true
  /\ mo_bubbles (placeBubble 1000 ball (triColor 0 0) 1700000000000 bs 0 0)
     = (bs ++ [Bubble.mk ("0-0-" ++ showZ 1700000000000) 0 0 0 0
                         (triColor 0 0) true])%list.
Proof.
  intros Ht ball. split.
  - assert (Hin : In (12, 0) window).
    { apply cellsOfRows_In. rewrite colsInRow_odd. unfold GRID_ROWS. cbn [Z.odd]. lia. }
    destruct (Tiled_In _ _ _ _ Ht Hin) as [b [Hb [_ [_ [Hpos [_ Hact]]]]]].
    cbn [fst snd] in Hpos.
    unfold collides. apply orb_true_iff. right.
    unfold hitsBubble. apply existsb_exists. exists b. split; [exact Hb |].
    rewrite Hact. cbn [andb]. apply Rltb_true.
    replace (Bubble.x b) with (Point.x (getBubblePos 12 0 1000))
      by (rewrite <- Hpos; reflexivity).
    replace (Bubble.y b) with (Point.y (getBubblePos 12 0 1000))
      by (rewrite <- Hpos; reflexivity).
    unfold ball. cbn [Point.x Point.y fst snd].
    rewrite distance_vertical by lra. unfold BUBBLE_RADIUS. lra.
  - unfold placeBubble.
    rewrite nearestFreeCell_full.
    + cbn [bestRow bestCol bestX bestY].
      rewrite (tiled_push_isolated 1000 window) by (auto; reflexivity).
      reflexivity.
    + intros [r c] Hin Hfree. unfold free in Hfree. cbn [fst snd] in Hfree.
      apply (Tiled_occupied _ _ _ r c Ht) in Hin. congruence.
Qed.

(** C3 fails on the code. A board is reached, by placements from a grid
    drawn full, on which no two active bubbles share a cell and every cell
    of the rows searched is taken; the next placement pushes a second active
    bubble at row 0, column 0. *)
Theorem full_board_duplicate :
  exists bs ball color now,
    boardReachable bs
    /\ uniqueCells bs
    /\ collides bs ball = true
    /\ boardReachable (mo_bubbles (placeBubble 1000 ball color now bs 0 0))
    /\ ~ uniqueCells (mo_bubbles (placeBubble 1000 ball color now bs 0 0)).
Proof.
  destruct full_board_reachable as [bs [Hreach Ht]].
  destruct (full_board_placement bs Ht) as [Hcol Hplace]. cbv zeta in Hcol, Hplace.
  exists bs, (Point.mk (Point.x (getBubblePos 12 0 1000))
                       (Point.y (getBubblePos 12 0 1000) + 39)),
         (triColor 0 0), 1700000000000.
  split; [exact Hreach |].
  split; [exact (Tiled_unique _ _ _ window_NoDup Ht) |].
  split; [exact Hcol |].
  split; [constructor; assumption |].
  rewrite Hplace. intros Huniq.
  assert (Hlen : List.length bs = 150%nat)
    by (rewrite (Tiled_length _ _ _ Ht); apply window_length).
  destruct bs as [|b0 bs']; [discriminate |].
  assert (Hb0 : tile 1000 (0, 0) b0) by (inversion Ht; subst; assumption).
  destruct Hb0 as [Hr [Hc [_ [_ Ha]]]]. cbn [fst snd] in Hr, Hc.
  specialize (Huniq 0%nat 150%nat b0
    (Bubble.mk ("0-0-" ++ showZ 1700000000000) 0 0 0 0 (triColor 0 0) true)).
  assert (E : (0 = 150)%nat); [| discriminate E].
  apply Huniq; auto.
  rewrite nth_error_app2 by (rewrite Hlen; lia).
  rewrite Hlen. reflexivity.
Qed.

(** C4, an instance: the left column and the ball under row 12, with the
    free cell (12, 1). *)
Lemma placement_nearest_in_window_witness :
  occupied leftColumn 12 1 = false
  /\ exists b,
       nth_error (mo_bubbles (placeBubble 1000 lowBall green 1700000000000 leftColumn 0 0))
                 13 = Some b
       /\ Bubble.color b = green
       /\ 0 <= Bubble.row b < GRID_ROWS + 5
       /\ occupied leftColumn (Bubble.row b) (Bubble.col b) = false
       /\ (distance (Point.x lowBall) (Point.y lowBall) (Bubble.x b) (Bubble.y b)
           <= cellDistance 1000 lowBall (12, 1)%Z)%R.
Proof.
  assert (Hfree : occupied leftColumn 12 1 = false) by reflexivity.
  split; [exact Hfree |].
  destruct (placement_nearest_in_window 1000 lowBall green 1700000000000 leftColumn 0 0)
    as [b [Hb [Hcol [Hrow [_ [Hocc [_ Hmin]]]]]]].
  - exists 12, 1. repeat split; try reflexivity; try discriminate.
  - exists b. repeat split; try assumption; try apply Hrow.
    apply Hmin; [unfold GRID_ROWS; lia | split; [lia | reflexivity] | exact Hfree].
Defined.

(** ** The cell invariant while the rows searched have room *)

Lemma occupied_nth (bs : list Bubble) (i : nat) (b : Bubble) :
  nth_error bs i = Some b -> Bubble.active b = true ->
  occupied bs (Bubble.row b) (Bubble.col b) = true.
Proof.
  intros Hi Ha. unfold occupied. apply existsb_exists. exists b.
  split; [exact (nth_error_In _ _ Hi) |].
  rewrite Ha, !Z.eqb_refl. reflexivity.
Qed.

(** A bubble pushed at a cell that no active bubble holds. *)
Lemma uniqueCells_push (bs : list Bubble) (new : Bubble) :
  uniqueCells bs ->
  occupied bs (Bubble.row new) (Bubble.col new) = false ->
  uniqueCells (bs ++ [new]).
Proof.
  intros Hu Hfree i j bi bj Hi Hj Ai Aj Hr Hc.
  assert (Hcase : forall k b, nth_error (bs ++ [new]) k = Some b ->
            (k < List.length bs)%nat /\ nth_error bs k = Some b
            \/ k = List.length bs /\ b = new).
  { intros k b Hk. destruct (Nat.lt_ge_cases k (List.length bs)) as [Hlt | Hge].
    - left. rewrite nth_error_app1 in Hk by exact Hlt. auto.
    - right. rewrite nth_error_app2 in Hk by exact Hge.
      destruct (k - List.length bs)%nat as [|d] eqn:Hd.
      + cbn in Hk. injection Hk as <-. split; [lia | reflexivity].
      + cbn in Hk. destruct d; discriminate. }
  destruct (Hcase i bi Hi) as [[_ Hbi] | [-> ->]];
    destruct (Hcase j bj Hj) as [[_ Hbj] | [-> ->]].
  - exact (Hu i j bi bj Hbi Hbj Ai Aj Hr Hc).
  - rewrite <- Hr, <- Hc in Hfree.
    rewrite (occupied_nth bs i bi Hbi Ai) in Hfree. discriminate.
  - rewrite Hr, Hc in Hfree.
    rewrite (occupied_nth bs j bj Hbj Aj) in Hfree. discriminate.
  - reflexivity.
Qed.

(** Match detection keeps the invariant: it moves no bubble and activates
    none. *)
Lemma uniqueCells_checkMatches (bs : list Bubble) (start : nat) (score eliminated : Z) :
  uniqueCells bs ->
  uniqueCells (mo_bubbles (checkMatches bs start score eliminated)).
Proof.
  intros Hu i j bi bj Hi Hj Ai Aj Hr Hc.
  assert (Hsame : forall k b,
            nth_error (mo_bubbles (checkMatches bs start score eliminated)) k = Some b ->
            Bubble.active b = true -> nth_error bs k = Some b).
  { intros k b Hk Ha.
    destruct (checkMatches_nth bs start score eliminated k) as [E | E];
      rewrite E in Hk; [exact Hk |].
    destruct (nth_error bs k) as [b' |]; [| discriminate].
    cbn in Hk. injection Hk as <-. cbn in Ha. discriminate. }
  exact (Hu i j bi bj (Hsame i bi Hi Ai) (Hsame j bj Hj Aj) Ai Aj Hr Hc).
Qed.

(** While a cell of the rows 0 to GRID_ROWS + 4 is free, a placement keeps
    the invariant of C3: no two active bubbles share a cell. *)
Theorem placement_keeps_unique
  (width : R) (ball : Point) (color : BubbleColor) (now : Z)
  (bs : list Bubble) (score eliminated : Z) :
  uniqueCells bs ->
  (exists r c, 0 <= r < GRID_ROWS + 5 /\ 0 <= c < colsInRow r
               /\ occupied bs r c = false) ->
  uniqueCells (mo_bubbles (placeBubble width ball color now bs score eliminated)).
Proof.
  intros Hu [r0 [c0 [Hr0 [Hc0 Hfree0]]]].
  assert (Hfound := nearestFreeCell_found width bs ball
    (ex_intro _ (r0, c0) (conj (proj2 (cellsOfRows_In _ r0 c0) (conj Hr0 Hc0)) Hfree0))).
  cbv zeta in Hfound. unfold placeBubble.
  generalize dependent (nearestFreeCell width bs ball). intros best Hfound.
  destruct Hfound as [_ [Hfree _]].
  apply uniqueCells_checkMatches. apply uniqueCells_push; [exact Hu | exact Hfree].
Qed.

Lemma cellsOfRows_5_NoDup : NoDup (cellsOfRows 5).
Proof.
  assert (H : nodup (fun a b : Z * Z =>
                       ltac:(decide equality; apply Z.eq_dec) : {a = b} + {a <> b})
                    (cellsOfRows 5) = cellsOfRows 5) by (vm_compute; reflexivity).
  rewrite <- H. apply NoDup_nodup.
Qed.

(** The grid as initialised holds at most one bubble in each cell. *)
Theorem initGrid_unique (width : R) (fill : Z -> Z -> option BubbleColor) :
  uniqueCells (initGrid width fill).
Proof.
  unfold initGrid.
  assert (Hgen : forall cells, NoDup cells ->
            let bs := flat_map (fun rc : Z * Z =>
                        let '(r, c) := rc in
                        match fill r c with
                        | Some color =>
                            let p := getBubblePos r c width in
                            [Bubble.mk (showZ r ++ "-" ++ showZ c) r c
                                       (Point.x p) (Point.y p) color true]
                        | None => []
                        end) cells in
            uniqueCells bs
            /\ forall b, In b bs -> In (Bubble.row b, Bubble.col b) cells).
  { induction cells as [|[r c] cells IH]; intros Hnd; cbv zeta.
    - split; [intros [|i] j bi bj Hi; discriminate | intros b []].
    - inversion Hnd as [|x l Hnotin Hnd']. subst.
      destruct (IH Hnd') as [Hu Hin]. cbv zeta in Hu, Hin. cbn [flat_map].
      destruct (fill r c) as [color |].
      + split.
        * intros [|i] [|j] bi bj Hi Hj Ai Aj Hr Hc; cbn in Hi, Hj.
          -- reflexivity.
          -- injection Hi as <-. apply nth_error_In in Hj. apply Hin in Hj.
             cbn in Hr, Hc. rewrite <- Hr, <- Hc in Hj. contradiction.
          -- injection Hj as <-. apply nth_error_In in Hi. apply Hin in Hi.
             cbn in Hr, Hc. rewrite Hr, Hc in Hi. contradiction.
          -- f_equal. exact (Hu i j bi bj Hi Hj Ai Aj Hr Hc).
        * intros b [<- | Hb]; [left; reflexivity | right; apply Hin; exact Hb].
      + split; [exact Hu | intros b Hb; right; apply Hin; exact Hb]. }
  exact (proj1 (Hgen _ cellsOfRows_5_NoDup)).
Qed.

Lemma leftColumn_unique : uniqueCells leftColumn.
Proof.
  intros i j bi bj Hi Hj _ _ Hr _. unfold leftColumn in Hi, Hj.
  rewrite nth_error_map in Hi, Hj.
  destruct (nth_error (upto 13) i) as [ri |] eqn:Ei; [| discriminate].
  destruct (nth_error (upto 13) j) as [rj |] eqn:Ej; [| discriminate].
  cbn in Hi, Hj. injection Hi as <-. injection Hj as <-. cbn in Hr. subst rj.
  unfold upto in Ei, Ej. rewrite nth_error_map in Ei, Ej.
  destruct (nth_error (seq 0 (Z.to_nat 13)) i) as [ni |] eqn:Ni; [| discriminate].
  destruct (nth_error (seq 0 (Z.to_nat 13)) j) as [nj |] eqn:Nj; [| discriminate].
  cbn in Ei, Ej. injection Ei as Ei. injection Ej as Ej.
  assert (Hi' := nth_error_Some (seq 0 (Z.to_nat 13)) i).
  assert (Hj' := nth_error_Some (seq 0 (Z.to_nat 13)) j).
  rewrite Ni in Hi'. rewrite Nj in Hj'. rewrite length_seq in Hi', Hj'.
  assert (Li : (i < Z.to_nat 13)%nat) by (apply Hi'; discriminate).
  assert (Lj : (j < Z.to_nat 13)%nat) by (apply Hj'; discriminate).
  rewrite nth_error_nth' with (d := 0%nat) in Ni, Nj by (rewrite length_seq; assumption).
  rewrite seq_nth in Ni, Nj by assumption.
  injection Ni as <-. injection Nj as <-. lia.
Qed.

Lemma placement_keeps_unique_witness :
  uniqueCells
    (mo_bubbles (placeBubble 1000 lowBall green 1700000000000 leftColumn 0 0)).
Proof.
  apply placement_keeps_unique.
  - exact leftColumn_unique.
  - exists 12, 1. repeat split; try reflexivity; discriminate.
Defined.

(** ** C6: a ball in flight straight up *)

Lemma distance_ge (ax ay bx by' d : R) :
  (0 <= d)%R -> (d ^ 2 <= (ax - bx) ^ 2 + (ay - by') ^ 2)%R ->
  (d <= distance ax ay bx by')%R.
Proof.
  intros Hd H. unfold distance. rewrite <- (sqrt_pow2 d) at 1 by exact Hd.
  apply sqrt_le_1_alt. exact H.
Qed.

(** Sub-steps of a ball that moves straight up, between the walls, through
    positions at which nothing collides. *)
Lemma subSteps_clear (steps width : R) (bs : list Bubble) (x vy ylow : R) (n : nat) :
  (BUBBLE_RADIUS <= x <= width - BUBBLE_RADIUS)%R ->
  (vy / steps <= 0)%R ->
  (forall y', (ylow <= y')%R -> collides bs (Point.mk x y') = false) ->
  forall y, (ylow <= y + INR n * (vy / steps))%R ->
  subSteps n steps width bs (Point.mk x y) (Point.mk 0 vy)
  = (Point.mk x (y + INR n * (vy / steps)), Point.mk 0 vy, false).
Proof.
  intros Hx Hv Hclear.
  induction n as [|n IH]; intros y Hy.
  - cbn [subSteps INR].
    replace (y + 0 * (vy / steps))%R with y by lra. reflexivity.
  - rewrite S_INR in Hy. assert (Hn := pos_INR n).
    cbn [subSteps Point.x Point.y].
    replace (x + 0 / steps)%R with x by (unfold Rdiv; ring).
    rewrite (proj2 (Rltb_false x BUBBLE_RADIUS)) by lra.
    rewrite (proj2 (Rltb_false (width - BUBBLE_RADIUS) x)) by lra.
    cbn [orb].
    assert (Hnd : (INR n * (vy / steps) <= 0)%R) by nra.
    rewrite Hclear by lra.
    rewrite IH by lra. rewrite S_INR.
    replace (y + vy / steps + INR n * (vy / steps))%R
      with (y + (INR n + 1) * (vy / steps))%R by lra.
    reflexivity.
Qed.

(** Sub-steps of such a ball whose last position collides: a collision
    occurs, there or before. *)
Lemma subSteps_lands (steps width : R) (bs : list Bubble) (x vy : R) (n : nat) :
  (BUBBLE_RADIUS <= x <= width - BUBBLE_RADIUS)%R ->
  forall y,
  collides bs (Point.mk x (y + INR (S n) * (vy / steps))) = true ->
  snd (subSteps (S n) steps width bs (Point.mk x y) (Point.mk 0 vy)) = true.
Proof.
  intros Hx. induction n as [|n IH]; intros y Hhit.
  - cbn [subSteps Point.x Point.y].
    replace (x + 0 / steps)%R with x by (unfold Rdiv; ring).
    rewrite (proj2 (Rltb_false x BUBBLE_RADIUS)) by lra.
    rewrite (proj2 (Rltb_false (width - BUBBLE_RADIUS) x)) by lra.
    cbn [orb]. cbn [INR] in Hhit.
    replace (y + 1 * (vy / steps))%R with (y + vy / steps)%R in Hhit by lra.
    rewrite Hhit. reflexivity.
  - remember (S n) as m eqn:Hm.
    cbn [subSteps Point.x Point.y].
    replace (x + 0 / steps)%R with x by (unfold Rdiv; ring).
    rewrite (proj2 (Rltb_false x BUBBLE_RADIUS)) by lra.
    rewrite (proj2 (Rltb_false (width - BUBBLE_RADIUS) x)) by lra.
    cbn [orb].
    destruct (collides bs (Point.mk x (y + vy / steps))); [reflexivity |].
    subst m. apply IH. rewrite S_INR in Hhit.
    replace (y + vy / steps + INR (S n) * (vy / steps))%R
      with (y + (INR (S n) + 1) * (vy / steps))%R by lra.
    exact Hhit.
Qed.

(** The speed and the step count of a ball that moves straight up. *)
Lemma vertical_steps (vy : R) (steps : Z) :
  (vy <= 0)%R ->
  (IZR steps - 1 < - vy / (BUBBLE_RADIUS * 0.8) <= IZR steps)%R ->
  Math_ceil (sqrt (0 ^ 2 + vy ^ 2) / (BUBBLE_RADIUS * 0.8)) = steps.
Proof.
  intros Hv Hs. unfold Math_ceil.
  replace (0 ^ 2 + vy ^ 2)%R with ((- vy) ^ 2)%R by ring.
  rewrite sqrt_pow2 by lra. apply Zceil_eq. exact Hs.
Qed.

(** The physics of a frame of free flight straight up. *)
Lemma physics_flight (f : FrameInput) (g : Game) (x y vy ylow : R) (steps : Z) :
  isFlying g = true ->
  (performance_now f - flightStartTime g <= 5000)%R ->
  ballPos g = Point.mk x y -> ballVel g = Point.mk 0 vy ->
  (vy <= 0)%R -> 1 <= steps ->
  (IZR steps - 1 < - vy / (BUBBLE_RADIUS * 0.8) <= IZR steps)%R ->
  (BUBBLE_RADIUS <= x <= canvas_width g - BUBBLE_RADIUS)%R ->
  (forall y', (ylow <= y')%R -> collides (bubbles g) (Point.mk x y') = false) ->
  (ylow <= y + vy)%R -> (y + vy <= canvas_height g)%R ->
  physics f g
  = set_ballVel (applyFriction (Point.mk 0 vy)) (set_ballPos (Point.mk x (y + vy)) g).
Proof.
  intros Hf Ht Hpos Hvel Hv Hsteps Hceil Hx Hclear Hlow Hin.
  unfold physics. rewrite Hf.
  rewrite (proj2 (Rltb_false _ _) Ht).
  rewrite Hvel, Hpos. cbn [Point.x Point.y].
  rewrite (vertical_steps vy steps Hv Hceil).
  assert (HI : INR (Z.to_nat steps) = IZR steps)
    by (rewrite INR_IZR_INZ, Z2Nat.id by lia; reflexivity).
  assert (Hs1 : (1 <= IZR steps)%R) by (apply IZR_le; exact Hsteps).
  assert (Hfin : (INR (Z.to_nat steps) * (vy / IZR steps) = vy)%R)
    by (rewrite HI; field; lra).
  assert (Hdiv : (vy / IZR steps <= 0)%R).
  { unfold Rdiv. assert (0 < / IZR steps)%R by (apply Rinv_0_lt_compat; lra). nra. }
  rewrite (subSteps_clear (IZR steps) (canvas_width g) (bubbles g) x vy ylow)
    by (auto; rewrite Hfin; exact Hlow).
  rewrite Hfin. cbn [canvas_height ballPos set_ballVel set_ballPos Point.y].
  rewrite (proj2 (Rltb_false _ _) Hin). reflexivity.
Qed.

(** A frame of free flight straight up: no resize, no time-out, nothing in
    the way, the ball still on the canvas. *)
Lemma onResults_flight (f : FrameInput) (g : Game) (x y vy ylow : R) (steps : Z) :
  clientWidth f = canvas_width g -> clientHeight f = canvas_height g ->
  isFlying g = true -> isPinching g = false ->
  (performance_now f - flightStartTime g <= 5000)%R ->
  ballPos g = Point.mk x y -> ballVel g = Point.mk 0 vy ->
  (vy <= 0)%R -> 1 <= steps ->
  (IZR steps - 1 < - vy / (BUBBLE_RADIUS * 0.8) <= IZR steps)%R ->
  (BUBBLE_RADIUS <= x <= canvas_width g - BUBBLE_RADIUS)%R ->
  (forall y', (ylow <= y')%R -> collides (bubbles g) (Point.mk x y') = false) ->
  (ylow <= y + vy)%R -> (y + vy <= canvas_height g)%R ->
  onResults f g
  = capture (set_ballVel (applyFriction (Point.mk 0 vy))
               (set_ballPos (Point.mk x (y + vy)) g)).
Proof.
  intros Hw Hh Hf Hp Ht Hpos Hvel Hv Hsteps Hceil Hx Hclear Hlow Hin.
  unfold onResults.
  assert (Hr : resize f g = g).
  { unfold resize. rewrite Hw, Hh, !Reqb_refl. reflexivity. }
  rewrite Hr, slingshot_flying by assumption.
  f_equal. apply (physics_flight f g x y vy ylow steps); assumption.
Qed.

(** A frame of flight straight up whose last sub-step position collides:
    the ball lands, and the frame schedules an analysis. *)
Lemma onResults_landing (f : FrameInput) (g : Game) (x y vy : R) (steps : Z) :
  clientWidth f = canvas_width g -> clientHeight f = canvas_height g ->
  isFlying g = true -> isPinching g = false ->
  (performance_now f - flightStartTime g <= 5000)%R ->
  ballPos g = Point.mk x y -> ballVel g = Point.mk 0 vy ->
  (vy <= 0)%R -> 1 <= steps ->
  (IZR steps - 1 < - vy / (BUBBLE_RADIUS * 0.8) <= IZR steps)%R ->
  (BUBBLE_RADIUS <= x <= canvas_width g - BUBBLE_RADIUS)%R ->
  collides (bubbles g) (Point.mk x (y + vy)) = true ->
  analysesScheduled (onResults f g) = S (analysesScheduled g)
  /\ requestsInFlight (onResults f g) = requestsInFlight g
  /\ isAiThinkingRef (onResults f g) = isAiThinkingRef g
  /\ isFlying (onResults f g) = false.
Proof.
  intros Hw Hh Hf Hp Ht Hpos Hvel Hv Hsteps Hceil Hx Hhit.
  unfold onResults.
  assert (Hr : resize f g = g).
  { unfold resize. rewrite Hw, Hh, !Reqb_refl. reflexivity. }
  rewrite Hr, slingshot_flying by assumption.
  unfold physics. rewrite Hf.
  rewrite (proj2 (Rltb_false _ _) Ht).
  rewrite Hvel, Hpos. cbn [Point.x Point.y].
  rewrite (vertical_steps vy steps Hv Hceil).
  assert (HI : INR (Z.to_nat steps) = IZR steps)
    by (rewrite INR_IZR_INZ, Z2Nat.id by lia; reflexivity).
  assert (Hs1 : (1 <= IZR steps)%R) by (apply IZR_le; exact Hsteps).
  assert (Hfin : (INR (Z.to_nat steps) * (vy / IZR steps) = vy)%R)
    by (rewrite HI; field; lra).
  assert (Hland := subSteps_lands (IZR steps) (canvas_width g) (bubbles g) x vy
                     (pred (Z.to_nat steps)) Hx y).
  replace (S (pred (Z.to_nat steps))) with (Z.to_nat steps) in Hland by lia.
  rewrite Hfin in Hland. specialize (Hland Hhit).
  destruct (subSteps _ _ _ _ _ _) as [[pos vel] collisionOccurred].
  cbn [snd] in Hland. subst collisionOccurred.
  set (g1 := set_ballVel (applyFriction vel) (set_ballPos pos g)).
  destruct (land_fields f g1) as [Lf [Lv [Lb [La [Lp [Ls [Ll [Lh Lc]]]]]]]].
  assert (Hland_async : analysesScheduled (land f g1) = analysesScheduled g
                        /\ requestsInFlight (land f g1) = requestsInFlight g).
  { unfold land.
    match goal with |- context [updateAvailableColors ?z] =>
      destruct (updateAvailableColors_cases z) as [->|[c ->]] end; cbn; tauto. }
  destruct Hland_async as [Lsched Lreq].
  assert (Hafter : forall g2, (g2 = land f g1 \/ g2 = resetShot (land f g1)) ->
            analysesScheduled (capture g2) = S (analysesScheduled g)
            /\ requestsInFlight (capture g2) = requestsInFlight g
            /\ isAiThinkingRef (capture g2) = isAiThinkingRef g
            /\ isFlying (capture g2) = false).
  { assert (Hg1 : isAiThinkingRef g1 = isAiThinkingRef g) by reflexivity.
    clearbody g1. generalize dependent (land f g1). intros L.
    intros Lf _ _ _ _ _ Ll _ Lc Lsched Lreq g2 [-> | ->]; unfold capture, resetShot;
      cbn [captureRequestRef set_ballVel set_ballPos set_isFlying];
      rewrite Lc; cbn; rewrite ?Lsched, ?Lreq, ?Ll, ?Lf, ?Hg1; auto. }
  cbv zeta. cbn [snd].
  match goal with |- context [if ?b then resetShot _ else _] => destruct b end;
    apply Hafter; [right | left]; reflexivity.
Qed.

(** A frame in which the drag goes on: the ball follows the cursor. *)
Lemma onResults_drag (f : FrameInput) (g : Game) (hp : Point) :
  clientWidth f = canvas_width g -> clientHeight f = canvas_height g ->
  handPos f g = Some hp ->
  (pinchDist f < PINCH_THRESHOLD)%R ->
  isAiThinkingRef g = false -> isPinching g = true -> isFlying g = false ->
  (sqrt ((Point.x hp - Point.x (anchorPos g)) * (Point.x hp - Point.x (anchorPos g))
         + (Point.y hp - Point.y (anchorPos g)) * (Point.y hp - Point.y (anchorPos g)))
   <= MAX_DRAG_DIST)%R ->
  onResults f g = capture (set_ballPos hp g).
Proof.
  intros Hw Hh Hhand Hpinch Hl Hp Hf Hdrag. unfold onResults.
  assert (Hr : resize f g = g).
  { unfold resize. rewrite Hw, Hh, !Reqb_refl. reflexivity. }
  rewrite Hr.
  assert (Hs : slingshot f g = set_ballPos hp g).
  { unfold slingshot. rewrite Hhand, Hl, Hp, Hf. cbn [negb andb isSome].
    rewrite (proj2 (Rltb_true _ _) Hpinch). cbn [andb]. rewrite Hp.
    unfold dragTo. rewrite (proj2 (Rltb_false _ _) Hdrag). reflexivity. }
  rewrite Hs, physics_idle by (cbn; exact Hf). reflexivity.
Qed.

(** A frame in which the hand is lost during the drag, without lock: the
    shot is released, and the physics of the same frame moves the ball. *)
Lemma onResults_release (f : FrameInput) (g : Game) :
  clientWidth f = canvas_width g -> clientHeight f = canvas_height g ->
  multiHandLandmarks f = None ->
  isAiThinkingRef g = false -> isPinching g = true ->
  onResults f g = capture (physics f (release f (set_isPinching false g))).
Proof.
  intros Hw Hh Hhand Hl Hp. unfold onResults.
  assert (Hr : resize f g = g).
  { unfold resize. rewrite Hw, Hh, !Reqb_refl. reflexivity. }
  rewrite Hr. do 2 f_equal.
  unfold slingshot, handPos. rewrite Hhand, Hl, Hp. reflexivity.
Qed.

(** ** The lock taken during a drag *)

Lemma lockedDrag_frame (c : BubbleColor) :
  onResults (pinchFrame 33)
    (set_captureRequestRef true
       (set_initTimerPending false
          (capture (set_ballPos (Point.mk ((0.5 * 1000 + 0.5 * 1000) / 2)
                                    ((0.86 * 1000 + 0.86 * 1000) / 2))
                 (set_isPinching true (mounted 1000 1000 allRed c))))))
  = mkGame (Point.mk 500 860) (Point.mk 0 0) (Point.mk 500 780)
             true false 0 (initGrid 1000 allRed) 0 false false c 0 0
             1000 1000 false 1 O.
Proof.
  rewrite (onResults_drag _ _ (Point.mk 500 860)).
  - unfold capture, mounted, SLINGSHOT_BOTTOM_OFFSET. cbn.
    cbv beta iota delta [set_analysesScheduled set_captureRequestRef set_ballPos
      set_initTimerPending set_isPinching ballPos ballVel anchorPos isPinching isFlying
      flightStartTime bubbles scoreRef isAiThinkingRef captureRequestRef selectedColorRef
      shotsFiredRef bubblesEliminatedRef canvas_width canvas_height initTimerPending
      analysesScheduled requestsInFlight].
    f_equal; f_equal; lra.
  - reflexivity.
  - reflexivity.
  - unfold handPos, pinchFrame. cbn. do 2 f_equal; lra.
  - unfold pinchDist, pinchFrame, PINCH_THRESHOLD. cbn.
    replace ((0.5 - 0.5) * (0.5 - 0.5) + (0.86 - 0.86) * (0.86 - 0.86))%R
      with 0%R by lra.
    rewrite sqrt_0. lra.
  - reflexivity.
  - reflexivity.
  - reflexivity.
  - cbn. unfold SLINGSHOT_BOTTOM_OFFSET, MAX_DRAG_DIST.
    rewrite (sqrt_sq_80 _ _) by lra. lra.
Qed.

Lemma lockedDrag_eq :
  exists c, lockedDrag
    = mkGame (Point.mk 500 860) (Point.mk 0 0) (Point.mk 500 780)
             true false 0 (initGrid 1000 allRed) 0 true false c 0 0
             1000 1000 false O 1.
Proof.
  unfold lockedDrag. destruct draggedGame_eq as [c ->]. exists c.
  rewrite lockedDrag_frame. reflexivity.
Qed.

Lemma lockedDrag_reachable : reachable lockedDrag.
Proof.
  unfold lockedDrag.
  set (g1 := set_captureRequestRef true (set_initTimerPending false draggedGame)).
  assert (H1 : reachable g1).
  { apply (reach_step draggedGame InitTimer); [exact draggedGame_reachable |].
    unfold g1, step. destruct draggedGame_eq as [c ->]. reflexivity. }
  assert (H2 : reachable (onResults (pinchFrame 33) g1)).
  { apply (reach_step g1 (Frame (pinchFrame 33))); [exact H1 | reflexivity]. }
  apply (reach_step (onResults (pinchFrame 33) g1) Analysis); [exact H2 |].
  unfold step, g1. destruct draggedGame_eq as [c ->].
  rewrite lockedDrag_frame. reflexivity.
Qed.

(** The lock taken during a drag, the ball held 80 px under the anchor:
    the next frame, with the hand still pinching, releases the drag without
    a shot and puts the ball back on the anchor. *)
Lemma locked_frame_witness :
  reachable lockedDrag
  /\ isAiThinkingRef lockedDrag = true
  /\ isPinching lockedDrag = true
  /\ ballPos lockedDrag = Point.mk 500 860
  /\ anchorPos lockedDrag = Point.mk 500 780
  /\ isPinching (onResults (pinchFrame 50) lockedDrag) = false
  /\ shotsFiredRef (onResults (pinchFrame 50) lockedDrag) = shotsFiredRef lockedDrag
  /\ isFlying (onResults (pinchFrame 50) lockedDrag) = false
  /\ ballPos (onResults (pinchFrame 50) lockedDrag)
     = anchorPos (onResults (pinchFrame 50) lockedDrag).
Proof.
  assert (Hl : isAiThinkingRef lockedDrag = true) by reflexivity.
  assert (Hp : isPinching lockedDrag = true)
    by (destruct lockedDrag_eq as [c ->]; reflexivity).
  split; [exact lockedDrag_reachable |]. split; [exact Hl |]. split; [exact Hp |].
  split; [destruct lockedDrag_eq as [c ->]; reflexivity |].
  split; [destruct lockedDrag_eq as [c ->]; reflexivity |].
  destruct (locked_frame (pinchFrame 50) lockedDrag lockedDrag_reachable Hl)
    as [H1 [H2 [_ [_ H5]]]].
  destruct (H5 Hp) as [H6 H7].
  split; [exact H1 |]. split; [exact H2 |]. split; [exact H6 | exact H7].
Defined.

(** Under the drawn grid, on the centre line of a canvas 1000 wide, nothing
    collides from 35 px under the lowest row downwards. *)
Lemma initGrid_clear (y' : R) :
  (209.5 <= y')%R -> collides (initGrid 1000 triFill) (Point.mk 500 y') = false.
Proof.
  intros Hy. unfold collides. cbn [Point.x Point.y].
  rewrite (proj2 (Rltb_false y' BUBBLE_RADIUS)) by (unfold BUBBLE_RADIUS; lra).
  cbn [orb]. unfold hitsBubble. cbn [Point.x Point.y].
  apply not_true_is_false. intros Hex.
  apply existsb_exists in Hex. destruct Hex as [b [Hin Hb]].
  apply andb_true_iff in Hb. destruct Hb as [_ Hb]. apply Rltb_true in Hb.
  apply In_nth_error in Hin. destruct Hin as [j Hj].
  destruct (Tiled_nth _ _ _ _ _ (initGrid_Tiled 1000) Hj) as [[r c] [Hrc Ht]].
  apply nth_error_In in Hrc. apply cellsOfRows_In in Hrc.
  destruct Ht as [_ [_ [Hp _]]]. cbn [fst snd] in Hp.
  assert (Hbx : Bubble.x b = Point.x (getBubblePos r c 1000)) by (rewrite <- Hp; reflexivity).
  assert (Hby : Bubble.y b = Point.y (getBubblePos r c 1000)) by (rewrite <- Hp; reflexivity).
  rewrite getBubblePos_x in Hbx. rewrite getBubblePos_y in Hby.
  assert (HR := ROW_HEIGHT_bounds). unfold BUBBLE_RADIUS in Hb.
  destruct Hrc as [Hr Hc].
  assert (Hr4 : r <= 3 \/ r = 4) by lia. destruct Hr4 as [Hr3 | ->].
  - assert (IZR r <= 3)%R by (apply IZR_le; exact Hr3).
    assert (0 <= IZR r)%R by (apply IZR_le; lia).
    assert (Hd := distance_ge_dy 500 y' (Bubble.x b) (Bubble.y b)). nra.
  - change (Z.odd 4) with false in Hbx.
    assert (Hd : (39.6 <= distance 500 y' (Bubble.x b) (Bubble.y b))%R).
    { apply distance_ge; [lra |].
      assert (Hc5 : c <= 5 \/ 6 <= c) by lia.
      assert (Hdy : (35 <= y' - Bubble.y b)%R) by (rewrite Hby; lra).
      destruct Hc5 as [Hc5 | Hc6].
      - assert (IZR c <= 5)%R by (apply IZR_le; exact Hc5).
        assert (22 <= 500 - Bubble.x b)%R by (rewrite Hbx; lra). nra.
      - assert (6 <= IZR c)%R by (apply IZR_le; exact Hc6).
        assert (500 - Bubble.x b <= -22)%R by (rewrite Hbx; lra). nra. }
    lra.
Qed.

(** Less than a pixel under the centre of the bubble of cell (3, 5): a
    collision. *)
Lemma initGrid_hit (y' : R) :
  (136.5 <= y' <= 137.5)%R -> collides (initGrid 1000 triFill) (Point.mk 500 y') = true.
Proof.
  intros Hy. unfold collides. apply orb_true_iff. right.
  unfold hitsBubble. cbn [Point.x Point.y]. apply existsb_exists.
  destruct (Tiled_In 1000 _ _ (3, 5) (initGrid_Tiled 1000)) as [b [Hin Ht]].
  { apply cellsOfRows_In. rewrite colsInRow_odd. cbn. lia. }
  exists b. split; [exact Hin |].
  destruct Ht as [_ [_ [Hp [_ Ha]]]]. cbn [fst snd] in Hp. rewrite Ha. cbn [andb].
  apply Rltb_true.
  assert (Hbx : Bubble.x b = Point.x (getBubblePos 3 5 1000)) by (rewrite <- Hp; reflexivity).
  assert (Hby : Bubble.y b = Point.y (getBubblePos 3 5 1000)) by (rewrite <- Hp; reflexivity).
  rewrite getBubblePos_x in Hbx. rewrite getBubblePos_y in Hby.
  change (Z.odd 3) with true in Hbx.
  assert (HR := ROW_HEIGHT_bounds).
  replace (Bubble.x b) with 500%R by (rewrite Hbx; lra).
  rewrite distance_vertical by (rewrite Hby; lra).
  rewrite Hby. unfold BUBBLE_RADIUS. lra.
Qed.

#[local] Arguments initGrid _ _ : simpl never.

(** ** C6: a request of the initial timer and a request of a placement,
    both in flight *)

Lemma raceGame_mounted (c : BubbleColor) :
  mounted 1000 500 triFill c = raceGame c 280 0 false false 0 false false 0 true 0 0.
Proof.
  unfold mounted, raceGame, SLINGSHOT_BOTTOM_OFFSET.
  replace (1000 / 2)%R with 500%R by lra.
  replace (500 - 220)%R with 280%R by lra. reflexivity.
Qed.

Lemma sqrt_sq_vertical (a b d : R) : a = 0%R -> (0 <= d)%R -> (b = d \/ b = - d)%R ->
  sqrt (a * a + b * b) = d.
Proof.
  intros -> Hd Hb. replace (0 * 0 + b * b)%R with (d ^ 2)%R
    by (destruct Hb as [->| ->]; ring).
  apply sqrt_pow2. exact Hd.
Qed.

Lemma raceHand_pinch (y now : R) : (pinchDist (raceHand y now) < PINCH_THRESHOLD)%R.
Proof.
  unfold pinchDist, raceHand, PINCH_THRESHOLD. cbn.
  rewrite (sqrt_sq_vertical _ _ 0) by lra. lra.
Qed.

Lemma race_pinch (c : BubbleColor) :
  onResults (raceHand 0.74 16) (raceGame c 280 0 false false 0 false false 0 true 0 0)
  = raceGame c 370 0 true false 0 false false 0 true 0 0.
Proof.
  rewrite (onResults_engage _ _ (Point.mk 500 370)); try reflexivity.
  - unfold handPos, raceHand, raceGame. cbn. do 2 f_equal; lra.
  - apply raceHand_pinch.
  - unfold distance, raceGame. cbn. rewrite <- !Rsqr_pow2. unfold Rsqr.
    rewrite (sqrt_sq_vertical _ _ 90) by lra. lra.
  - unfold raceGame, MAX_DRAG_DIST. cbn.
    rewrite (sqrt_sq_vertical _ _ 90) by lra. lra.
Qed.

Lemma race_drag (c : BubbleColor) :
  onResults (raceHand 0.92 33) (raceGame c 370 0 true false 0 false false 0 true 0 0)
  = raceGame c 460 0 true false 0 false false 0 true 0 0.
Proof.
  rewrite (onResults_drag _ _ (Point.mk 500 460)); try reflexivity.
  - unfold handPos, raceHand, raceGame. cbn. do 2 f_equal; lra.
  - apply raceHand_pinch.
  - unfold raceGame, MAX_DRAG_DIST. cbn.
    rewrite (sqrt_sq_vertical _ _ 180) by lra. lra.
Qed.

Ltac raceSteps :=
  unfold BUBBLE_RADIUS; split; [lra |];
  apply (Rmult_le_reg_r (22 * 0.8)); [lra |];
  unfold Rdiv; rewrite Rmult_assoc, Rinv_l by lra; lra.

Ltac raceFlight :=
  first
    [ reflexivity
    | lia
    | exact initGrid_clear
    | unfold raceGame; cbn; unfold BUBBLE_RADIUS; lra
    | raceSteps ].

Lemma race_release (c : BubbleColor) :
  onResults (raceIdle 50) (raceGame c 460 0 true false 0 false false 0 true 0 0)
  = raceGame c 379 (-80.838) false true 50 false false 1 true 0 0.
Proof.
  rewrite onResults_release by reflexivity.
  assert (Hrel : release (raceIdle 50)
                   (set_isPinching false (raceGame c 460 0 true false 0 false false 0 true 0 0))
                 = raceGame c 460 (-81) false true 50 false false 1 true 0 0).
  { unfold release, raceGame. cbn.
    rewrite (sqrt_sq_vertical _ _ 180) by lra.
    rewrite (proj2 (Rltb_true 30 180)) by lra.
    unfold MAX_DRAG_DIST, MIN_FORCE_MULT, MAX_FORCE_MULT.
    replace (180 / 180)%R with 1%R by lra.
    rewrite Rmin_left by lra.
    unfold set_shotsFiredRef, set_ballVel, set_flightStartTime, set_isFlying. cbn.
    f_equal. f_equal; lra. }
  rewrite Hrel.
  rewrite (physics_flight _ _ 500 460 (-81) 209.5 5); [| raceFlight ..].
  unfold capture, raceGame, applyFriction, FRICTION, GRAVITY. cbn.
  unfold set_ballVel, set_ballPos. cbn.
  f_equal; f_equal; lra.
Qed.

(** A frame of the flight under the grid, at a speed that takes five
    sub-steps. *)
Lemma race_flight (c : BubbleColor) (y vy now : R) (locked request timer : bool)
  (scheduled inFlight : nat) :
  (now - 50 <= 5000)%R -> (-88 <= vy < -70.4)%R ->
  (209.5 <= y + vy)%R -> (y + vy <= 500)%R ->
  onResults (raceIdle now)
    (raceGame c y vy false true 50 locked request 1 timer scheduled inFlight)
  = capture
      (raceGame c (y + vy) (vy * 0.998) false true 50 locked request 1 timer
                scheduled inFlight).
Proof.
  intros Ht Hv Hlow Hin.
  rewrite (onResults_flight _ _ 500 y vy 209.5 5); [| raceFlight ..].
  f_equal. unfold raceGame, applyFriction, FRICTION, GRAVITY, set_ballVel, set_ballPos.
  cbn. f_equal; f_equal; lra.
Qed.

Lemma race_flight_timer (c : BubbleColor) :
  onResults (raceIdle 66) (raceGame c 379 (-80.838) false true 50 false true 1 false 0 0)
  = raceGame c 298.162 (-80.676324) false true 50 false false 1 false 1 0.
Proof.
  rewrite race_flight by lra.
  unfold capture, raceGame. cbn.
  unfold set_analysesScheduled, set_captureRequestRef. cbn. f_equal; f_equal; lra.
Qed.

Lemma race_flight_locked (c : BubbleColor) :
  onResults (raceIdle 83)
    (raceGame c 298.162 (-80.676324) false true 50 true false 1 false 0 1)
  = raceGame c 217.485676 (-80.514971352) false true 50 true false 1 false 0 1.
Proof.
  rewrite race_flight by lra.
  unfold capture, raceGame. cbn.
  unfold set_analysesScheduled, set_captureRequestRef. cbn. f_equal; f_equal; lra.
Qed.

Lemma race_landing (c : BubbleColor) :
  let g := onResults (raceIdle 100)
             (raceGame c 217.485676 (-80.514971352) false true 50 true false 1 false 0 1) in
  analysesScheduled g = 1%nat /\ requestsInFlight g = 1%nat.
Proof.
  cbv zeta.
  destruct (onResults_landing (raceIdle 100)
              (raceGame c 217.485676 (-80.514971352) false true 50 true false 1 false 0 1)
              500 217.485676 (-80.514971352) 5) as [Hs [Hr _]];
    try raceFlight.
  - apply initGrid_hit. lra.
  - rewrite Hs, Hr. split; reflexivity.
Qed.

(** C6, refuted by the code: from the mount, nine tasks lead to a state in
    which two advisory requests are in flight. The ball is released before
    the timer of the mount effect fires; the analysis that the timer requests
    starts, and sets the lock, while the ball flies; the ball lands, the
    placement requests a second analysis, and that analysis starts while the
    first request has not been answered (the run has no [Hint] task). *)
Theorem overlapping_requests :
  exists g,
    run (mount 1000 500 triFill) raceTrace = Some g
    /\ reachable g
    /\ requestsInFlight g = 2%nat.
Proof.
  destruct (mount_mounted 1000 500 triFill) as [c Hc].
  assert (Hrun : exists g, run (mount 1000 500 triFill) raceTrace = Some g
                           /\ requestsInFlight g = 2%nat).
  { rewrite Hc, raceGame_mounted. unfold raceTrace.
    cbn [run step]. rewrite race_pinch, race_drag, race_release.
    change (initTimerPending (raceGame c 379 (-80.838) false true 50 false false 1 true 0 0))
      with true. cbv iota.
    change (set_captureRequestRef true
              (set_initTimerPending false
                 (raceGame c 379 (-80.838) false true 50 false false 1 true 0 0)))
      with (raceGame c 379 (-80.838) false true 50 false true 1 false 0 0).
    rewrite race_flight_timer.
    change (analysesScheduled
              (raceGame c 298.162 (-80.676324) false true 50 false false 1 false 1 0))
      with 1%nat. cbv iota.
    change (performAiAnalysis
              (set_analysesScheduled 0
                 (raceGame c 298.162 (-80.676324) false true 50 false false 1 false 1 0)))
      with (raceGame c 298.162 (-80.676324) false true 50 true false 1 false 0 1).
    rewrite race_flight_locked.
    destruct (race_landing c) as [Hs Hr].
    generalize dependent (onResults (raceIdle 100)
      (raceGame c 217.485676 (-80.514971352) false true 50 true false 1 false 0 1)).
    intros g Hs Hr. rewrite Hs. eexists. split; [reflexivity |].
    cbn. rewrite Hr. reflexivity. }
  destruct Hrun as [g [Hrun Hreq]]. exists g. split; [exact Hrun |]. split; [| exact Hreq].
  exact (reachable_run _ _ _ (reach_mount 1000 500 triFill) Hrun).
Qed.

(* ================================================================== *)
(** * Part III. Further properties of the component and the services  *)
(* ================================================================== *)

(** ** Match detection: what is conserved *)

Lemma activeCount_deactivate (bs : list Bubble) (m : nat) (b : Bubble) :
  nth_error bs m = Some b -> Bubble.active b = true ->
  S (activeCount (updateAt m Bubble.deactivate bs)) = activeCount bs.
Proof.
  unfold activeCount. revert m.
  induction bs as [|a bs IH]; intros [|m] Hm Ha; try discriminate.
  - cbn in Hm. injection Hm as ->. cbn. rewrite Ha. reflexivity.
  - cbn in Hm. cbn. destruct (Bubble.active a); cbn; rewrite <- (IH m Hm Ha); reflexivity.
Qed.

Lemma updateAt_other (i j : nat) (f : Bubble -> Bubble) (bs : list Bubble) :
  i <> j -> nth_error (updateAt i f bs) j = nth_error bs j.
Proof.
  revert i j. induction bs as [|a bs IH]; intros [|i] [|j] H; cbn; try reflexivity.
  - contradiction.
  - apply IH. intros ->. apply H. reflexivity.
Qed.

(** Deactivating references that are distinct and active takes one off the
    count of active bubbles for each. *)
Lemma popMatches_count (basePoints : Z) (matches : list nat) (bs : list Bubble) :
  NoDup matches ->
  (forall m, In m matches -> exists b, nth_error bs m = Some b /\ Bubble.active b = true) ->
  (activeCount (fst (popMatches basePoints matches bs)) + List.length matches
   = activeCount bs)%nat.
Proof.
  unfold popMatches. generalize 0 as pts. revert bs.
  induction matches as [|m matches IH]; intros bs pts Hnd Hact.
  - cbn [fold_left fst List.length]. lia.
  - inversion Hnd as [|x l Hnotin Hnd']. subst.
    destruct (Hact m (or_introl eq_refl)) as [b [Hb Ha]].
    cbn [fold_left fst snd List.length].
    rewrite <- (activeCount_deactivate bs m b Hb Ha).
    rewrite <- (IH (updateAt m Bubble.deactivate bs) (pts + basePoints) Hnd').
    + lia.
    + intros k Hk. destruct (Hact k (or_intror Hk)) as [bk [Hbk Hak]].
      exists bk. split; [| exact Hak].
      rewrite updateAt_other; [exact Hbk |]. intros ->. contradiction.
Qed.

Lemma inCluster_active (bs : list Bubble) (c : BubbleColor) (start : nat) (s0 : Bubble) :
  nth_error bs start = Some s0 -> Bubble.active s0 = true ->
  forall i, inCluster bs c start i ->
  exists b, nth_error bs i = Some b /\ Bubble.active b = true.
Proof.
  intros Hs Ha i H. destruct H as [| i j bi bj _ _ Hj _ Haj _].
  - exists s0. auto.
  - exists bj. auto.
Qed.

Lemma Qfloor_scaled (pts n : Z) :
  0 <= pts -> pts <= Qfloor (inject_Z pts * multiplier n).
Proof.
  intros Hp. unfold multiplier.
  assert (H : (inject_Z pts <= inject_Z pts * (if n >? 3 then 1.5 else 1.0))%Q).
  { destruct (n >? 3).
    - unfold Qle. cbn. lia.
    - unfold Qle. cbn. lia. }
  apply Qfloor_resp_le in H. rewrite Qfloor_Z in H. exact H.
Qed.

(** Match detection from an active bubble of an array with unique ids: the
    active bubbles that disappear from the array are exactly counted by
    [bubblesEliminatedRef]; the score never goes down; a match eliminates 3
    bubbles or more and is worth 300 points or more; without a match nothing
    changes. *)
Theorem checkMatches_conservation
  (bs : list Bubble) (start : nat) (s0 : Bubble) (score eliminated : Z) :
  NoDup (map Bubble.id bs) ->
  nth_error bs start = Some s0 ->
  Bubble.active s0 = true ->
  let r := checkMatches bs start score eliminated in
  Z.of_nat (activeCount (mo_bubbles r)) + mo_eliminated r
  = Z.of_nat (activeCount bs) + eliminated
  /\ List.length (mo_bubbles r) = List.length bs
  /\ (mo_matched r = true ->
        eliminated + 3 <= mo_eliminated r /\ score + 300 <= mo_score r)
  /\ (mo_matched r = false ->
        mo_bubbles r = bs /\ mo_eliminated r = eliminated /\ mo_score r = score).
Proof.
  intros Hids Hstart Hact. cbv zeta.
  destruct (floodFill_total bs (Bubble.color s0) start s0 Hids Hstart eq_refl)
    as [cluster [Hfill [Hnd Hin]]].
  unfold checkMatches. rewrite Hstart, Hfill.
  destruct (Z.of_nat (List.length cluster) >=? 3) eqn:Hsize.
  - destruct (popMatches (points (Bubble.color s0)) cluster bs) as [bs' pts] eqn:Hpop.
    assert (Hspec := popMatches_spec (points (Bubble.color s0)) cluster bs).
    assert (Hcount := popMatches_count (points (Bubble.color s0)) cluster bs Hnd).
    rewrite Hpop in Hspec, Hcount. cbn [fst snd] in Hspec, Hcount.
    destruct Hspec as [Hnth Hpts].
    cbn [mo_bubbles mo_eliminated mo_matched mo_score].
    assert (Hc : (activeCount bs' + List.length cluster = activeCount bs)%nat).
    { apply Hcount. intros m Hm. apply (inCluster_active bs (Bubble.color s0) start s0 Hstart Hact).
      apply Hin. exact Hm. }
    apply Z.geb_le in Hsize.
    split; [lia |]. split.
    + assert (Hl : forall i, (i < List.length bs' <-> i < List.length bs)%nat).
      { intros i. rewrite <- !nth_error_Some, Hnth.
        destruct (existsb (Nat.eqb i) cluster); destruct (nth_error bs i); cbn;
          split; congruence. }
      destruct (Nat.lt_trichotomy (List.length bs') (List.length bs)) as [H|[H|H]];
        [apply Hl in H; lia | exact H | apply Hl in H; lia].
    + split; [| discriminate]. intros _. split; [lia |].
      assert (Hp : 100 <= points (Bubble.color s0))
        by (destruct (Bubble.color s0); cbn; lia).
      assert (Hq := Qfloor_scaled pts (Z.of_nat (List.length cluster))).
      nia.
  - cbn [mo_bubbles mo_eliminated mo_matched mo_score].
    split; [reflexivity |]. split; [reflexivity |]. split; [discriminate | auto].
Qed.

Lemma checkMatches_conservation_witness :
  let r := checkMatches redRow 3 0 0 in
  Z.of_nat (activeCount (mo_bubbles r)) + mo_eliminated r
  = Z.of_nat (activeCount redRow) + 0.
Proof.
  apply (checkMatches_conservation redRow 3
           (Bubble.mk "1-0-1700000000000" 1 0 280 (22 + ROW_HEIGHT) red true) 0 0).
  - repeat constructor; cbn; intuition discriminate.
  - reflexivity.
  - reflexivity.
Defined.

(** ** The hexagonal packing of [getBubblePos] *)

Lemma ROW_HEIGHT_sq : (ROW_HEIGHT * ROW_HEIGHT = 1452)%R.
Proof.
  unfold ROW_HEIGHT, BUBBLE_RADIUS.
  replace (22 * sqrt 3 * (22 * sqrt 3))%R with (484 * (sqrt 3 * sqrt 3))%R by ring.
  rewrite sqrt_sqrt by lra. lra.
Qed.

(** Twice the horizontal offset between two cells, in bubble radii: an
    integer, odd exactly when the rows differ in parity. *)
Lemma cell_offset_sq (width : R) (r1 c1 r2 c2 : Z) :
  let p1 := getBubblePos r1 c1 width in
  let p2 := getBubblePos r2 c2 width in
  let k := 2 * (c1 - c2) + (Z.b2z (Z.odd r1) - Z.b2z (Z.odd r2)) in
  ((Point.x p1 - Point.x p2) ^ 2 + (Point.y p1 - Point.y p2) ^ 2
   = 484 * IZR (k * k + 3 * ((r1 - r2) * (r1 - r2))))%R.
Proof.
  cbv zeta. rewrite !getBubblePos_x, !getBubblePos_y.
  rewrite plus_IZR, !mult_IZR, plus_IZR, !minus_IZR, !mult_IZR, !minus_IZR.
  assert (HR := ROW_HEIGHT_sq).
  replace ((22 + IZR r1 * ROW_HEIGHT - (22 + IZR r2 * ROW_HEIGHT)) ^ 2)%R
    with ((IZR r1 - IZR r2) * (IZR r1 - IZR r2) * (ROW_HEIGHT * ROW_HEIGHT))%R by ring.
  rewrite HR.
  destruct (Z.odd r1), (Z.odd r2); cbn [Z.b2z]; ring.
Qed.

Lemma cell_norm_cases (r1 c1 r2 c2 : Z) :
  let k := 2 * (c1 - c2) + (Z.b2z (Z.odd r1) - Z.b2z (Z.odd r2)) in
  let n := k * k + 3 * ((r1 - r2) * (r1 - r2)) in
  (n = 0 <-> r1 = r2 /\ c1 = c2) /\ (n = 0 \/ 4 <= n).
Proof.
  cbv zeta.
  destruct (Z.eq_dec r1 r2) as [-> | Hr].
  - replace (Z.b2z (Z.odd r2) - Z.b2z (Z.odd r2)) with 0 by lia.
    split; [split; [intros H; split; [reflexivity | nia] | intros [_ ->]; lia] |].
    destruct (Z.eq_dec c1 c2) as [-> | Hc]; [left; lia | right; nia].
  - assert (Hd1 : 1 <= (r1 - r2) * (r1 - r2)) by nia.
    split.
    + split; [| intros [H _]; contradiction].
      intros H. exfalso.
      match type of H with ?k * ?k + _ = 0 => assert (0 <= k * k) by apply Z.square_nonneg end. lia.
    + right.
      assert (Hd : r1 - r2 = 1 \/ r1 - r2 = -1 \/ 4 <= (r1 - r2) * (r1 - r2)) by nia.
      destruct Hd as [Hd | [Hd | Hd]].
      * rewrite (odd_succ_row r2 r1 (or_introl Hd)).
        rewrite Hd.
        destruct (Z.odd r2); cbn [negb Z.b2z];
          match goal with |- 4 <= ?k * ?k + _ =>
            assert (1 <= k * k) by (assert (k <> 0) by lia; nia) end; lia.
      * rewrite (odd_succ_row r2 r1 (or_intror Hd)).
        rewrite Hd.
        destruct (Z.odd r2); cbn [negb Z.b2z];
          match goal with |- 4 <= ?k * ?k + _ =>
            assert (1 <= k * k) by (assert (k <> 0) by lia; nia) end; lia.
      * match goal with |- 4 <= ?k * ?k + _ => assert (0 <= k * k) by apply Z.square_nonneg end. lia.
Qed.

(** The centres of two different cells are at least a bubble diameter
    apart: bubbles drawn at their cells do not overlap. *)
Theorem getBubblePos_spacing (width : R) (r1 c1 r2 c2 : Z) :
  (r1, c1) <> (r2, c2) ->
  let p1 := getBubblePos r1 c1 width in
  let p2 := getBubblePos r2 c2 width in
  (2 * BUBBLE_RADIUS <= distance (Point.x p1) (Point.y p1) (Point.x p2) (Point.y p2))%R.
Proof.
  intros Hne. cbv zeta. apply distance_ge; [unfold BUBBLE_RADIUS; lra |].
  assert (Hsq := cell_offset_sq width r1 c1 r2 c2). cbv zeta in Hsq. rewrite Hsq.
  destruct (cell_norm_cases r1 c1 r2 c2) as [Hz Hn]. cbv zeta in Hz, Hn.
  destruct Hn as [Hn | Hn].
  - apply Hz in Hn. destruct Hn as [-> ->]. contradiction Hne. reflexivity.
  - apply IZR_le in Hn. unfold BUBBLE_RADIUS. lra.
Qed.

Lemma getBubblePos_spacing_witness :
  (2 * BUBBLE_RADIUS
   <= distance (Point.x (getBubblePos 3 5 1000)) (Point.y (getBubblePos 3 5 1000))
               (Point.x (getBubblePos 4 5 1000)) (Point.y (getBubblePos 4 5 1000)))%R.
Proof.
  apply (getBubblePos_spacing 1000 3 5 4 5). intros H. discriminate H.
Defined.

(** Adjacency is contact: two cells are neighbours for [isNeighbor] exactly
    when their centres are one bubble diameter apart. *)
Theorem isNeighbor_touching (width : R) (a b : Bubble) :
  let pa := getBubblePos (Bubble.row a) (Bubble.col a) width in
  let pb := getBubblePos (Bubble.row b) (Bubble.col b) width in
  isNeighbor a b = true
  <-> distance (Point.x pa) (Point.y pa) (Point.x pb) (Point.y pb)
      = (2 * BUBBLE_RADIUS)%R.
Proof.
  cbv zeta. unfold distance.
  assert (Hsq := cell_offset_sq width (Bubble.row a) (Bubble.col a)
                                (Bubble.row b) (Bubble.col b)).
  cbv zeta in Hsq. rewrite Hsq. clear Hsq.
  set (k := 2 * (Bubble.col a - Bubble.col b)
            + (Z.b2z (Z.odd (Bubble.row a)) - Z.b2z (Z.odd (Bubble.row b)))).
  set (n := k * k + 3 * ((Bubble.row a - Bubble.row b) * (Bubble.row a - Bubble.row b))).
  assert (Hn0 : 0 <= n).
  { unfold n.
    assert (0 <= k * k) by apply Z.square_nonneg.
    assert (0 <= (Bubble.row a - Bubble.row b) * (Bubble.row a - Bubble.row b))
      by apply Z.square_nonneg.
    lia. }
  assert (Hiff : sqrt (484 * IZR n) = (2 * BUBBLE_RADIUS)%R <-> n = 4).
  { unfold BUBBLE_RADIUS. split.
    - intros H. assert (H2 : (sqrt (484 * IZR n) * sqrt (484 * IZR n) = 44 * 44)%R)
        by (rewrite H; ring).
      rewrite sqrt_sqrt in H2 by (apply IZR_le in Hn0; lra).
      apply eq_IZR. lra.
    - intros ->. replace (484 * 4)%R with (44 ^ 2)%R by ring.
      rewrite sqrt_pow2 by lra. ring. }
  rewrite Hiff, isNeighbor_cases. cbv zeta. unfold n, k. clear Hiff Hn0 n k.
  set (dr := Bubble.row b - Bubble.row a).
  set (dc := Bubble.col b - Bubble.col a).
  replace (Bubble.row a - Bubble.row b) with (- dr) by (unfold dr; lia).
  replace (Bubble.col a - Bubble.col b) with (- dc) by (unfold dc; lia).
  assert (Hodd : dr = 1 \/ dr = -1 -> Z.odd (Bubble.row b) = negb (Z.odd (Bubble.row a)))
    by (apply odd_succ_row).
  assert (Hsame : dr = 0 -> Z.odd (Bubble.row b) = Z.odd (Bubble.row a))
    by (intros H; f_equal; unfold dr in H; lia).
  clearbody dr dc.
  destruct (Z.odd (Bubble.row a)) eqn:Ea;
    destruct (Z.odd (Bubble.row b)) eqn:Eb; cbn [Z.b2z negb] in *.
  all: split.
  all: try (intros [[Hr Hc] | [Hr Hc]];
            [ subst dr; destruct Hc as [-> | ->]; try reflexivity;
              specialize (Hsame eq_refl); discriminate
            | try (specialize (Hodd Hr); discriminate);
              destruct Hr as [-> | ->]; destruct Hc as [-> | ->]; reflexivity ]).
  all: intros H.
  all: assert (Hdr : dr = 0 \/ dr = 1 \/ dr = -1)
         by (match type of H with ?k * ?k + _ = 4 =>
               assert (0 <= k * k) by apply Z.square_nonneg end; nia).
  all: destruct Hdr as [-> | Hdr];
         [ left; split; [reflexivity |];
           try (specialize (Hsame eq_refl); discriminate); nia
         | right; split; [exact Hdr |];
           try (specialize (Hodd Hdr); discriminate);
           destruct Hdr as [-> | ->]; nia ].
Qed.

(** ** Frames: what each step of [onResults] leaves alone *)

Ltac splitIfs :=
  repeat match goal with
         | |- context [if ?b then _ else _] => destruct b eqn:?
         | |- context [match ?o with Some _ => _ | None => _ end] => destruct o eqn:?
         end.

Lemma resize_keeps (f : FrameInput) (g : Game) :
  bubbles (resize f g) = bubbles g
  /\ scoreRef (resize f g) = scoreRef g
  /\ bubblesEliminatedRef (resize f g) = bubblesEliminatedRef g
  /\ selectedColorRef (resize f g) = selectedColorRef g
  /\ captureRequestRef (resize f g) = captureRequestRef g
  /\ isAiThinkingRef (resize f g) = isAiThinkingRef g
  /\ initTimerPending (resize f g) = initTimerPending g
  /\ analysesScheduled (resize f g) = analysesScheduled g
  /\ requestsInFlight (resize f g) = requestsInFlight g
  /\ flightStartTime (resize f g) = flightStartTime g.
Proof. unfold resize. splitIfs; cbn; repeat split; congruence. Qed.

Lemma slingshot_keeps (f : FrameInput) (g : Game) :
  bubbles (slingshot f g) = bubbles g
  /\ scoreRef (slingshot f g) = scoreRef g
  /\ bubblesEliminatedRef (slingshot f g) = bubblesEliminatedRef g
  /\ selectedColorRef (slingshot f g) = selectedColorRef g
  /\ captureRequestRef (slingshot f g) = captureRequestRef g
  /\ isAiThinkingRef (slingshot f g) = isAiThinkingRef g
  /\ initTimerPending (slingshot f g) = initTimerPending g
  /\ analysesScheduled (slingshot f g) = analysesScheduled g
  /\ requestsInFlight (slingshot f g) = requestsInFlight g
  /\ canvas_width (slingshot f g) = canvas_width g
  /\ canvas_height (slingshot f g) = canvas_height g
  /\ anchorPos (slingshot f g) = anchorPos g.
Proof.
  unfold slingshot, dragTo, release, ease.
  destruct (handPos f g) as [hp |]; cbn [isSome negb andb orb];
    splitIfs; cbn; repeat split; congruence.
Qed.

(** The sub-step loop reports a collision only at a position where the
    collision test holds. *)
Lemma subSteps_hit (n : nat) (steps width : R) (bs : list Bubble) :
  forall pos vel pos' vel',
  subSteps n steps width bs pos vel = (pos', vel', true) ->
  collides bs pos' = true.
Proof.
  induction n as [|n IH]; intros pos vel pos' vel' H.
  - cbn in H. discriminate.
  - cbn [subSteps] in H. cbv zeta in H.
    match type of H with (if collides bs ?p then _ else _) = _ =>
      destruct (collides bs p) eqn:Hc end.
    + injection H as <- _. exact Hc.
    + exact (IH _ _ _ _ H).
Qed.

(** What the physics of one frame does, by cases: nothing; a reset of the
    shot; a move of the ball, with a reset if it left the canvas; or a
    landing at a position where the collision test holds, with the bubble
    placed there. *)
Lemma physics_cases (f : FrameInput) (g : Game) :
  (isFlying g = false /\ physics f g = g)
  \/ (isFlying g = true
      /\ (5000 < performance_now f - flightStartTime g)%R
      /\ physics f g = resetShot g)
  \/ (isFlying g = true
      /\ (performance_now f - flightStartTime g <= 5000)%R
      /\ exists pos vel,
           let g1 := set_ballVel (applyFriction vel) (set_ballPos pos g) in
           (physics f g = g1 /\ (Point.y pos <= canvas_height g)%R)
           \/ (physics f g = resetShot g1 /\ (canvas_height g < Point.y pos)%R)
           \/ (collides (bubbles g) pos = true
               /\ (physics f g = land f g1 \/ physics f g = resetShot (land f g1)))).
Proof.
  unfold physics. destruct (isFlying g); [| left; split; reflexivity]. right.
  destruct (Rltb 5000 (performance_now f - flightStartTime g)) eqn:Ht.
  - left. apply Rltb_true in Ht. auto.
  - right. apply Rltb_false in Ht. split; [reflexivity |]. split; [exact Ht |].
    destruct (subSteps _ _ _ _ _ _) as [[pos vel] hit] eqn:Hs.
    exists pos, vel. cbv zeta. destruct hit.
    + right. right. split; [exact (subSteps_hit _ _ _ _ _ _ _ _ Hs) |].
      destruct (Rltb _ _); [right | left]; reflexivity.
    + cbn [canvas_height ballPos set_ballVel set_ballPos Point.y].
      destruct (Rltb (canvas_height g) (Point.y pos)) eqn:Hy.
      * right. left. apply Rltb_true in Hy. auto.
      * left. apply Rltb_false in Hy. auto.
Qed.

Lemma land_keeps (f : FrameInput) (g : Game) :
  bubbles (land f g)
  = mo_bubbles (placeBubble (canvas_width g) (ballPos g) (selectedColorRef g)
                            (Date_now f) (bubbles g) (scoreRef g)
                            (bubblesEliminatedRef g))
  /\ isAiThinkingRef (land f g) = isAiThinkingRef g
  /\ initTimerPending (land f g) = initTimerPending g
  /\ analysesScheduled (land f g) = analysesScheduled g
  /\ requestsInFlight (land f g) = requestsInFlight g
  /\ canvas_width (land f g) = canvas_width g
  /\ canvas_height (land f g) = canvas_height g
  /\ anchorPos (land f g) = anchorPos g
  /\ flightStartTime (land f g) = flightStartTime g
  /\ captureRequestRef (land f g) = true
  /\ isFlying (land f g) = false.
Proof.
  unfold land.
  match goal with |- context [updateAvailableColors ?x] =>
    destruct (updateAvailableColors_cases x) as [-> | [c ->]] end;
    cbn; repeat split; reflexivity.
Qed.

Lemma physics_keeps (f : FrameInput) (g : Game) :
  isAiThinkingRef (physics f g) = isAiThinkingRef g
  /\ initTimerPending (physics f g) = initTimerPending g
  /\ analysesScheduled (physics f g) = analysesScheduled g
  /\ requestsInFlight (physics f g) = requestsInFlight g
  /\ canvas_width (physics f g) = canvas_width g
  /\ canvas_height (physics f g) = canvas_height g
  /\ anchorPos (physics f g) = anchorPos g
  /\ flightStartTime (physics f g) = flightStartTime g
  /\ (captureRequestRef (physics f g) = captureRequestRef g
      \/ captureRequestRef (physics f g) = true).
Proof.
  destruct (physics_cases f g) as [[_ ->] | [[_ [_ ->]] | [_ [_ [pos [vel H]]]]]].
  - repeat split; auto.
  - cbn. repeat split; auto.
  - cbv zeta in H.
    destruct H as [[-> _] | [[-> _] | [_ [-> | ->]]]];
      try (cbn; repeat split; auto; fail).
    + destruct (land_keeps f (set_ballVel (applyFriction vel) (set_ballPos pos g)))
        as [_ [L1 [L2 [L3 [L4 [L5 [L6 [L7 [L8 [L9 _]]]]]]]]]].
      repeat split;
        [exact L1 | exact L2 | exact L3 | exact L4 | exact L5 | exact L6 | exact L7
        | exact L8 | right; exact L9].
    + destruct (land_keeps f (set_ballVel (applyFriction vel) (set_ballPos pos g)))
        as [_ [L1 [L2 [L3 [L4 [L5 [L6 [L7 [L8 [L9 _]]]]]]]]]].
      generalize dependent (land f (set_ballVel (applyFriction vel) (set_ballPos pos g))).
      intros l L1 L2 L3 L4 L5 L6 L7 L8 L9.
      unfold resetShot. cbn.
      repeat split;
        [exact L1 | exact L2 | exact L3 | exact L4 | exact L5 | exact L6 | exact L7
        | exact L8 | right; exact L9].
Qed.

(** The physics of a frame changes the array only by one placement, at a
    position where the collision test holds, and then requests a capture. *)
Lemma physics_board (f : FrameInput) (g : Game) :
  bubbles (physics f g) = bubbles g
  \/ exists ball,
       collides (bubbles g) ball = true
       /\ bubbles (physics f g)
          = mo_bubbles (placeBubble (canvas_width g) ball (selectedColorRef g)
                                    (Date_now f) (bubbles g) (scoreRef g)
                                    (bubblesEliminatedRef g))
       /\ captureRequestRef (physics f g) = true.
Proof.
  destruct (physics_cases f g) as [[_ ->] | [[_ [_ ->]] | [_ [_ [pos [vel H]]]]]].
  - left. reflexivity.
  - left. reflexivity.
  - cbv zeta in H.
    destruct H as [[-> _] | [[-> _] | [Hc H]]]; [left; reflexivity .. |].
    right. exists pos. split; [exact Hc |].
    destruct (land_keeps f (set_ballVel (applyFriction vel) (set_ballPos pos g)))
      as [Lb [_ [_ [_ [_ [_ [_ [_ [_ [Lc _]]]]]]]]]].
    change (canvas_width (set_ballVel (applyFriction vel) (set_ballPos pos g)))
      with (canvas_width g) in Lb.
    change (ballPos (set_ballVel (applyFriction vel) (set_ballPos pos g)))
      with pos in Lb.
    change (selectedColorRef (set_ballVel (applyFriction vel) (set_ballPos pos g)))
      with (selectedColorRef g) in Lb.
    change (bubbles (set_ballVel (applyFriction vel) (set_ballPos pos g)))
      with (bubbles g) in Lb.
    change (scoreRef (set_ballVel (applyFriction vel) (set_ballPos pos g)))
      with (scoreRef g) in Lb.
    change (bubblesEliminatedRef (set_ballVel (applyFriction vel) (set_ballPos pos g)))
      with (bubblesEliminatedRef g) in Lb.
    generalize dependent (land f (set_ballVel (applyFriction vel) (set_ballPos pos g))).
    intros l [-> | ->] Lb Lc; unfold resetShot;
      cbn [bubbles captureRequestRef set_ballVel set_ballPos set_isFlying];
      rewrite Lb, Lc; auto.
Qed.

(** ** The array of a running game *)

(** In one frame the bubble array either stays as it is, or receives one
    placement: the ball, in the selected colour, at a position where the
    collision test holds; the frame of a placement schedules an analysis. *)
Theorem frame_board (f : FrameInput) (g : Game) :
  bubbles (onResults f g) = bubbles g
  \/ exists ball,
       collides (bubbles g) ball = true
       /\ bubbles (onResults f g)
          = mo_bubbles (placeBubble (clientWidth f) ball (selectedColorRef g)
                                    (Date_now f) (bubbles g) (scoreRef g)
                                    (bubblesEliminatedRef g))
       /\ analysesScheduled (onResults f g) = S (analysesScheduled g).
Proof.
  unfold onResults.
  destruct (resize_keeps f g) as [Rb [Rs [Re [Rc [_ [_ [_ [Ra _]]]]]]]].
  destruct (slingshot_keeps f (resize f g))
    as [Sb [Ss [Se [Sc [_ [_ [_ [Sa [_ [Sw _]]]]]]]]]].
  assert (Hw : canvas_width (resize f g) = clientWidth f).
  { unfold resize.
    destruct (Reqb (canvas_width g) (clientWidth f)) eqn:Ew.
    - unfold Reqb in Ew. destruct (Req_dec_T _ _) as [E |]; [| discriminate].
      cbn [negb orb]. splitIfs; cbn; auto.
    - cbn [negb orb]. splitIfs; reflexivity. }
  destruct (capture_fields (physics f (slingshot f (resize f g))))
    as [_ [_ [_ [_ [_ [_ [_ Cb]]]]]]].
  rewrite Cb.
  destruct (physics_board f (slingshot f (resize f g))) as [Hb | [ball [Hc [Hb Hr]]]].
  - left. rewrite Hb, Sb, Rb. reflexivity.
  - right. exists ball. rewrite Sb, Rb in Hc. split; [exact Hc |].
    rewrite Hb, Sb, Ss, Se, Sc, Sw, Rb, Rs, Re, Rc, Hw. split; [reflexivity |].
    unfold capture. rewrite Hr. cbn.
    destruct (physics_keeps f (slingshot f (resize f g))) as [_ [_ [Pa _]]].
    rewrite Pa, Sa, Ra. reflexivity.
Qed.

(** The array of every state of the running game is the grid as
    initialised followed by placements, each at a position where the
    collision test holds. *)
Theorem reachable_board (g : Game) : reachable g -> boardReachable (bubbles g).
Proof.
  induction 1 as [width height fill | g e g' Hg IH Hstep].
  - destruct (mount_mounted width height fill) as [c ->]. cbn. constructor.
  - destruct e as [f | | | h]; cbn in Hstep.
    + injection Hstep as <-. unfold onResults.
      destruct (capture_fields (physics f (slingshot f (resize f g))))
        as [_ [_ [_ [_ [_ [_ [_ ->]]]]]]].
      destruct (resize_keeps f g) as [Rb _].
      destruct (slingshot_keeps f (resize f g)) as [Sb _].
      destruct (physics_board f (slingshot f (resize f g))) as [Hb | [ball [Hc [Hb _]]]].
      * rewrite Hb, Sb, Rb. exact IH.
      * rewrite Hb, Sb. rewrite Sb in Hc. rewrite Rb in *.
        apply board_place; assumption.
    + destruct (initTimerPending g); [| discriminate].
      injection Hstep as <-. exact IH.
    + destruct (analysesScheduled g); [discriminate |].
      injection Hstep as <-. exact IH.
    + destruct (requestsInFlight g); [discriminate |].
      destruct (onHint_fields h g g' Hstep) as [_ [_ [_ ->]]]. exact IH.
Qed.

(** The landing frame of [onResults_landing] on the array: one placement. *)
Lemma onResults_landing_board (f : FrameInput) (g : Game) (x y vy : R) (steps : Z) :
  clientWidth f = canvas_width g -> clientHeight f = canvas_height g ->
  isFlying g = true -> isPinching g = false ->
  (performance_now f - flightStartTime g <= 5000)%R ->
  ballPos g = Point.mk x y -> ballVel g = Point.mk 0 vy ->
  (vy <= 0)%R -> 1 <= steps ->
  (IZR steps - 1 < - vy / (BUBBLE_RADIUS * 0.8) <= IZR steps)%R ->
  (BUBBLE_RADIUS <= x <= canvas_width g - BUBBLE_RADIUS)%R ->
  collides (bubbles g) (Point.mk x (y + vy)) = true ->
  (List.length (bubbles g) < List.length (bubbles (onResults f g)))%nat.
Proof.
  intros Hw Hh Hf Hp Ht Hpos Hvel Hv Hsteps Hceil Hx Hhit.
  unfold onResults.
  assert (Hr : resize f g = g).
  { unfold resize. rewrite Hw, Hh, !Reqb_refl. reflexivity. }
  rewrite Hr, slingshot_flying by assumption.
  destruct (capture_fields (physics f g)) as [_ [_ [_ [_ [_ [_ [_ ->]]]]]]].
  unfold physics. rewrite Hf.
  rewrite (proj2 (Rltb_false _ _) Ht).
  rewrite Hvel, Hpos. cbn [Point.x Point.y].
  rewrite (vertical_steps vy steps Hv Hceil).
  assert (HI : INR (Z.to_nat steps) = IZR steps)
    by (rewrite INR_IZR_INZ, Z2Nat.id by lia; reflexivity).
  assert (Hs1 : (1 <= IZR steps)%R) by (apply IZR_le; exact Hsteps).
  assert (Hfin : (INR (Z.to_nat steps) * (vy / IZR steps) = vy)%R)
    by (rewrite HI; field; lra).
  assert (Hland := subSteps_lands (IZR steps) (canvas_width g) (bubbles g) x vy
                     (pred (Z.to_nat steps)) Hx y).
  replace (S (pred (Z.to_nat steps))) with (Z.to_nat steps) in Hland by lia.
  rewrite Hfin in Hland. specialize (Hland Hhit).
  destruct (subSteps _ _ _ _ _ _) as [[pos vel] collisionOccurred].
  cbn [snd] in Hland. subst collisionOccurred.
  set (g1 := set_ballVel (applyFriction vel) (set_ballPos pos g)).
  destruct (land_keeps f g1) as [Lb _].
  change (bubbles g1) with (bubbles g) in Lb.
  destruct (placeBubble_new (canvas_width g1) (ballPos g1) (selectedColorRef g1)
              (Date_now f) (bubbles g) (scoreRef g1) (bubblesEliminatedRef g1))
    as [b [Hb _]].
  rewrite <- Lb in Hb.
  assert (Hlen : (List.length (bubbles g) < List.length (bubbles (land f g1)))%nat).
  { apply nth_error_Some. rewrite Hb. discriminate. }
  clearbody g1. generalize dependent (land f g1). intros L _ _ Hlen.
  cbv zeta. destruct (Rltb _ _); exact Hlen.
Qed.

(** The run of [raceTrace]: the board of its last state holds the bubble of
    the landing. *)
Lemma raceTrace_board :
  exists g,
    run (mount 1000 500 triFill) raceTrace = Some g
    /\ (List.length (initGrid 1000 triFill) < List.length (bubbles g))%nat.
Proof.
  destruct (mount_mounted 1000 500 triFill) as [c Hc].
  rewrite Hc, raceGame_mounted. unfold raceTrace.
  cbn [run step]. rewrite race_pinch, race_drag, race_release.
  change (initTimerPending (raceGame c 379 (-80.838) false true 50 false false 1 true 0 0))
    with true. cbv iota.
  change (set_captureRequestRef true
            (set_initTimerPending false
               (raceGame c 379 (-80.838) false true 50 false false 1 true 0 0)))
    with (raceGame c 379 (-80.838) false true 50 false true 1 false 0 0).
  rewrite race_flight_timer.
  change (analysesScheduled
            (raceGame c 298.162 (-80.676324) false true 50 false false 1 false 1 0))
    with 1%nat. cbv iota.
  change (performAiAnalysis
            (set_analysesScheduled 0
               (raceGame c 298.162 (-80.676324) false true 50 false false 1 false 1 0)))
    with (raceGame c 298.162 (-80.676324) false true 50 true false 1 false 0 1).
  rewrite race_flight_locked.
  destruct (race_landing c) as [Hs _].
  assert (Hlen := onResults_landing_board (raceIdle 100)
              (raceGame c 217.485676 (-80.514971352) false true 50 true false 1 false 0 1)
              500 217.485676 (-80.514971352) 5).
  change (bubbles (raceGame c 217.485676 (-80.514971352) false true 50 true false 1
                            false 0 1))
    with (initGrid 1000 triFill) in Hlen.
  assert (Hlen' : (List.length (initGrid 1000 triFill)
                   < List.length (bubbles (onResults (raceIdle 100)
                       (raceGame c 217.485676 (-80.514971352) false true 50 true false 1
                                 false 0 1))))%nat).
  { apply Hlen; try raceFlight. apply initGrid_hit. lra. }
  clear Hlen.
  generalize dependent (onResults (raceIdle 100)
    (raceGame c 217.485676 (-80.514971352) false true 50 true false 1 false 0 1)).
  intros g Hs Hlen. rewrite Hs. eexists. split; [reflexivity |].
  exact Hlen.
Qed.

Lemma reachable_board_witness :
  exists g,
    run (mount 1000 500 triFill) raceTrace = Some g
    /\ (List.length (initGrid 1000 triFill) < List.length (bubbles g))%nat
    /\ boardReachable (bubbles g).
Proof.
  destruct raceTrace_board as [g [Hrun Hlen]]. exists g.
  split; [exact Hrun |]. split; [exact Hlen |].
  apply (reachable_board g).
  exact (reachable_run _ _ _ (reach_mount 1000 500 triFill) Hrun).
Defined.

(** ** Frames: the asynchronous work *)

(** A frame never sends a request, never settles one and never touches the
    lock or the timer; it leaves no capture request pending, and schedules
    at most one analysis, exactly one when a request was pending. *)
Theorem frame_async (f : FrameInput) (g : Game) :
  let g' := onResults f g in
  captureRequestRef g' = false
  /\ requestsInFlight g' = requestsInFlight g
  /\ isAiThinkingRef g' = isAiThinkingRef g
  /\ initTimerPending g' = initTimerPending g
  /\ (analysesScheduled g' = analysesScheduled g
      \/ analysesScheduled g' = S (analysesScheduled g))
  /\ (captureRequestRef g = true -> analysesScheduled g' = S (analysesScheduled g)).
Proof.
  cbv zeta. unfold onResults.
  destruct (resize_keeps f g) as [_ [_ [_ [_ [Rc [Rl [Rt [Ra [Rq _]]]]]]]]].
  destruct (slingshot_keeps f (resize f g)) as [_ [_ [_ [_ [Sc [Sl [St [Sa [Sq _]]]]]]]]].
  destruct (physics_keeps f (slingshot f (resize f g)))
    as [Pl [Pt [Pa [Pq [_ [_ [_ [_ Pc]]]]]]]].
  rewrite Sc, Rc in Pc. rewrite Sl, Rl in Pl. rewrite St, Rt in Pt.
  rewrite Sa, Ra in Pa. rewrite Sq, Rq in Pq.
  generalize dependent (physics f (slingshot f (resize f g))). intros p Pl Pt Pa Pq Pc.
  unfold capture. destruct (captureRequestRef p) eqn:Ec; cbn.
  - rewrite Pl, Pt, Pa, Pq. repeat split; auto.
  - rewrite Ec, Pl, Pt, Pa, Pq. repeat split; auto.
    intros Hreq. destruct Pc as [Pc | Pc]; congruence.
Qed.

(** ** Frames: the end of a flight *)

(** A flight older than 5000 ms is cancelled: the ball is back at the anchor
    with no velocity, and the array, the score and the counters are as they
    were. *)
Theorem flight_timeout (f : FrameInput) (g : Game) :
  isFlying g = true -> isPinching g = false ->
  (5000 < performance_now f - flightStartTime g)%R ->
  let g' := onResults f g in
  isFlying g' = false
  /\ ballPos g' = anchorPos g'
  /\ ballVel g' = Point.mk 0 0
  /\ bubbles g' = bubbles g
  /\ scoreRef g' = scoreRef g
  /\ bubblesEliminatedRef g' = bubblesEliminatedRef g
  /\ shotsFiredRef g' = shotsFiredRef g.
Proof.
  intros Hf Hp Ht. cbv zeta. unfold onResults.
  destruct (resize_flags f g) as [Rp [Rf [_ [_ [Rs Rb]]]]].
  destruct (resize_keeps f g) as [_ [Rsc [Re [_ [_ [_ [_ [_ [_ Rt]]]]]]]]].
  rewrite slingshot_flying by congruence.
  assert (Hphys : physics f (resize f g) = resetShot (resize f g)).
  { unfold physics. rewrite Rf, Hf, Rt.
    rewrite (proj2 (Rltb_true _ _) Ht). reflexivity. }
  rewrite Hphys.
  generalize dependent (resize f g). intros r Rp Rf Rs Rb Rsc Re Rt _.
  unfold capture, resetShot.
  destruct (captureRequestRef _); cbn; rewrite Rs, Rb, Rsc, Re; repeat split; reflexivity.
Qed.

Lemma flight_timeout_witness :
  isFlying (onResults (idleFrame 6000) flightSample) = false.
Proof.
  apply (flight_timeout (idleFrame 6000) flightSample); try reflexivity.
  cbn. lra.
Defined.

(** A ball that is in flight after a frame is not below the canvas, and its
    flight is not older than 5000 ms. *)
Theorem still_flying (f : FrameInput) (g : Game) :
  isFlying (onResults f g) = true ->
  let g' := onResults f g in
  (Point.y (ballPos g') <= canvas_height g')%R
  /\ (performance_now f - flightStartTime g' <= 5000)%R.
Proof.
  cbv zeta. unfold onResults.
  destruct (capture_fields (physics f (slingshot f (resize f g))))
    as [_ [Cf [_ [_ [Cb _]]]]].
  rewrite Cf, Cb.
  assert (Hh : canvas_height (capture (physics f (slingshot f (resize f g))))
               = canvas_height (physics f (slingshot f (resize f g))))
    by (unfold capture; splitIfs; reflexivity).
  assert (Ht : flightStartTime (capture (physics f (slingshot f (resize f g))))
               = flightStartTime (physics f (slingshot f (resize f g))))
    by (unfold capture; splitIfs; reflexivity).
  rewrite Hh, Ht. clear Hh Ht Cf Cb.
  generalize (slingshot f (resize f g)). intros s Hf.
  destruct (physics_cases f s) as [[Hs E] | [[_ [_ E]] | [_ [Hage [pos [vel H]]]]]].
  - rewrite E in Hf. congruence.
  - rewrite E in Hf. cbn in Hf. discriminate.
  - cbv zeta in H. destruct H as [[E Hy] | [[E _] | [_ [E | E]]]].
    + rewrite E. cbn. auto.
    + rewrite E in Hf. cbn in Hf. discriminate.
    + destruct (land_keeps f (set_ballVel (applyFriction vel) (set_ballPos pos s)))
        as [_ [_ [_ [_ [_ [_ [_ [_ [_ [_ Lf]]]]]]]]]].
      rewrite E in Hf. congruence.
    + rewrite E in Hf. cbn in Hf. discriminate.
Qed.

Lemma flightSample_flies :
  isFlying (onResults (idleFrame 16) flightSample) = true.
Proof.
  rewrite (onResults_flight _ _ 500 600 (-10) 22 1);
    [ | first
          [ reflexivity
          | lia
          | cbn; unfold BUBBLE_RADIUS; lra
          | raceSteps
          | intros y' Hy; unfold collides, hitsBubble; cbn;
            rewrite (proj2 (Rltb_false y' BUBBLE_RADIUS))
              by (unfold BUBBLE_RADIUS; lra);
            reflexivity ] .. ].
  destruct (capture_fields
              (set_ballVel (applyFriction (Point.mk 0 (-10)))
                 (set_ballPos (Point.mk 500 (600 + -10)) flightSample)))
    as [_ [-> _]].
  reflexivity.
Qed.

Lemma still_flying_witness :
  (Point.y (ballPos (onResults (idleFrame 16) flightSample))
   <= canvas_height (onResults (idleFrame 16) flightSample))%R.
Proof.
  exact (proj1 (still_flying (idleFrame 16) flightSample flightSample_flies)).
Defined.

(** ** The side walls *)

(** After one sub-step or more, on a canvas at least a bubble wide, the ball
    is between the side walls; the loop changes the velocity by the sign of
    its x component only. *)
Lemma subSteps_walls (steps width : R) (bs : list Bubble) (n : nat) :
  (2 * BUBBLE_RADIUS <= width)%R ->
  forall pos vel,
  (1 <= n)%nat \/ (BUBBLE_RADIUS <= Point.x pos <= width - BUBBLE_RADIUS)%R ->
  (BUBBLE_RADIUS <= Point.x (fst (fst (subSteps n steps width bs pos vel)))
   <= width - BUBBLE_RADIUS)%R.
Proof.
  intros Hw. induction n as [|n IH]; intros pos vel H.
  - destruct H as [H | H]; [lia | exact H].
  - cbn [subSteps]. cbv zeta.
    set (x1 := (Point.x pos + Point.x vel / steps)%R).
    set (y1 := (Point.y pos + Point.y vel / steps)%R).
    assert (Hx2 : (BUBBLE_RADIUS
                   <= (if Rltb x1 BUBBLE_RADIUS || Rltb (width - BUBBLE_RADIUS) x1
                       then Rmax BUBBLE_RADIUS (Rmin (width - BUBBLE_RADIUS) x1)
                       else x1)
                   <= width - BUBBLE_RADIUS)%R).
    { destruct (Rltb x1 BUBBLE_RADIUS) eqn:E1; cbn [orb].
      - apply Rltb_true in E1. rewrite Rmin_right by lra. rewrite Rmax_left by lra. lra.
      - apply Rltb_false in E1.
        destruct (Rltb (width - BUBBLE_RADIUS) x1) eqn:E2.
        + apply Rltb_true in E2. rewrite Rmin_left by lra. rewrite Rmax_right by lra. lra.
        + apply Rltb_false in E2. lra. }
    destruct (collides bs _); [exact Hx2 |].
    apply IH. right. exact Hx2.
Qed.

(** A ball that flies at the start of a frame, on a canvas at least a bubble
    wide, and still flies at its end, is between the side walls. *)
Theorem flight_between_walls (f : FrameInput) (g : Game) :
  isFlying g = true -> isPinching g = false ->
  (0 < speed g)%R ->
  (2 * BUBBLE_RADIUS <= clientWidth f)%R ->
  isFlying (onResults f g) = true ->
  let g' := onResults f g in
  (BUBBLE_RADIUS <= Point.x (ballPos g') <= canvas_width g' - BUBBLE_RADIUS)%R.
Proof.
  intros Hf Hp Hs Hw Hf'. cbv zeta. revert Hf'. unfold onResults.
  destruct (resize_flags f g) as [Rp [Rf [_ [Rv _]]]].
  assert (Hcw : canvas_width (resize f g) = clientWidth f).
  { unfold resize.
    destruct (Reqb (canvas_width g) (clientWidth f)) eqn:Ew.
    - unfold Reqb in Ew. destruct (Req_dec_T _ _) as [E |]; [| discriminate].
      cbn [negb orb]. splitIfs; cbn; auto.
    - cbn [negb orb]. splitIfs; reflexivity. }
  rewrite slingshot_flying by congruence.
  assert (Hspeed : speed (resize f g) = speed g) by (unfold speed; rewrite Rv; reflexivity).
  rewrite <- Hspeed in Hs. rewrite <- Hcw in Hw.
  clear Rv Hcw Hspeed.
  revert Rp Rf Hs Hw. generalize (resize f g). intros r Rp Rf Hs Hw.
  destruct (capture_fields (physics f r)) as [_ [Cf [_ [_ [Cb _]]]]].
  rewrite Cf, Cb.
  assert (Hcap : canvas_width (capture (physics f r)) = canvas_width (physics f r))
    by (unfold capture; splitIfs; reflexivity).
  rewrite Hcap. clear Cf Cb Hcap.
  unfold physics. rewrite Rf, Hf.
  destruct (Rltb 5000 _); [cbn; discriminate |].
  fold (speed r).
  set (steps := Math_ceil (speed r / (BUBBLE_RADIUS * 0.8))%R).
  assert (Hsteps : (1 <= Z.to_nat steps)%nat).
  { assert (H0 : (0 < speed r / (BUBBLE_RADIUS * 0.8))%R).
    { apply Rdiv_lt_0_compat; [exact Hs | unfold BUBBLE_RADIUS; lra]. }
    assert (H1 := Zceil_bound (speed r / (BUBBLE_RADIUS * 0.8))%R).
    fold (Math_ceil (speed r / (BUBBLE_RADIUS * 0.8))%R) in H1. fold steps in H1.
    assert (0 < steps) by (apply lt_IZR; lra). lia. }
  assert (Hwalls := subSteps_walls (IZR steps) (canvas_width r) (bubbles r)
                      (Z.to_nat steps) Hw (ballPos r) (ballVel r) (or_introl Hsteps)).
  destruct (subSteps _ _ _ _ _ _) as [[pos vel] hit]. cbn [fst] in Hwalls.
  destruct hit.
  - intros Hf'. exfalso.
    destruct (land_keeps f (set_ballVel (applyFriction vel) (set_ballPos pos r)))
      as [_ [_ [_ [_ [_ [_ [_ [_ [_ [_ Lf]]]]]]]]]].
    generalize dependent (land f (set_ballVel (applyFriction vel) (set_ballPos pos r))).
    intros l. destruct (Rltb _ _); cbn; intros; congruence.
  - cbn [canvas_height ballPos set_ballVel set_ballPos Point.y].
    destruct (Rltb _ _); cbn; [discriminate |]. intros _. exact Hwalls.
Qed.

Lemma flight_between_walls_witness :
  (BUBBLE_RADIUS <= Point.x (ballPos (onResults (idleFrame 16) flightSample))
   <= canvas_width (onResults (idleFrame 16) flightSample) - BUBBLE_RADIUS)%R.
Proof.
  apply (flight_between_walls (idleFrame 16) flightSample); try reflexivity.
  - unfold speed. cbn. replace (0 ^ 2 + (-10) ^ 2)%R with (10 ^ 2)%R by ring.
    rewrite sqrt_pow2 by lra. lra.
  - cbn. unfold BUBBLE_RADIUS. lra.
  - exact flightSample_flies.
Defined.

(** ** The drag *)

(** The dragged ball is never farther than [MAX_DRAG_DIST] from the anchor:
    at the cursor when the cursor is within reach, and otherwise at exactly
    that distance. *)
Lemma dragTo_within (hp : Point) (g : Game) :
  let a := anchorPos g in
  let b := ballPos (dragTo hp g) in
  (distance (Point.x b) (Point.y b) (Point.x a) (Point.y a) <= MAX_DRAG_DIST)%R
  /\ anchorPos (dragTo hp g) = a.
Proof.
  cbv zeta. unfold dragTo.
  destruct (Rltb MAX_DRAG_DIST _) eqn:E; cbn [ballPos anchorPos set_ballPos Point.x Point.y].
  - split; [| reflexivity]. unfold distance.
    match goal with |- context [cos ?t] => set (angle := t) end.
    replace ((Point.x (anchorPos g) + cos angle * MAX_DRAG_DIST - Point.x (anchorPos g)) ^ 2
             + (Point.y (anchorPos g) + sin angle * MAX_DRAG_DIST - Point.y (anchorPos g)) ^ 2)%R
      with ((Rsqr (sin angle) + Rsqr (cos angle)) * MAX_DRAG_DIST ^ 2)%R
      by (unfold Rsqr; ring).
    rewrite sin2_cos2, Rmult_1_l. rewrite sqrt_pow2 by (unfold MAX_DRAG_DIST; lra). lra.
  - split; [| reflexivity]. apply Rltb_false in E. unfold distance.
    replace ((Point.x hp - Point.x (anchorPos g)) ^ 2
             + (Point.y hp - Point.y (anchorPos g)) ^ 2)%R
      with ((Point.x hp - Point.x (anchorPos g)) * (Point.x hp - Point.x (anchorPos g))
            + (Point.y hp - Point.y (anchorPos g)) * (Point.y hp - Point.y (anchorPos g)))%R
      by ring.
    exact E.
Qed.

(** In the running game, whenever a frame leaves the ball dragged, the ball
    is within [MAX_DRAG_DIST] of the anchor, and not in flight. *)
Theorem drag_within_reach (f : FrameInput) (g : Game) :
  reachable g ->
  isPinching (onResults f g) = true ->
  let g' := onResults f g in
  (distance (Point.x (ballPos g')) (Point.y (ballPos g'))
            (Point.x (anchorPos g')) (Point.y (anchorPos g')) <= MAX_DRAG_DIST)%R
  /\ isFlying g' = false.
Proof.
  intros Hreach. cbv zeta. unfold onResults.
  assert (Hinv : shotInv (resize f g)).
  { destruct (reachable_shotInv g Hreach) as [H1 H2].
    destruct (resize_flags f g) as [Rp [Rf [_ [Rv _]]]].
    split; rewrite ?Rp, ?Rf, ?Rv; assumption. }
  generalize dependent (resize f g). intros r Hinv.
  destruct (capture_fields (physics f (slingshot f r)))
    as [Cp [Cf [_ [_ [Cb [Ca _]]]]]].
  rewrite Cp, Cf, Cb, Ca. clear Cp Cf Cb Ca.
  assert (Hs := slingshot_shotInv f r Hinv).
  destruct (physics_shots f (slingshot f r)) as [_ Pp]. rewrite Pp.
  intros Hp. destruct Hs as [Hs _]. specialize (Hs Hp).
  rewrite physics_idle by exact Hs. split; [| exact Hs].
  clear Pp Hs. revert Hp. unfold slingshot.
  destruct (negb (isAiThinkingRef r) && isSome (handPos f r)
            && Rltb (pinchDist f) PINCH_THRESHOLD && negb (isFlying r)) eqn:E1.
  - destruct (handPos f r) as [hp |]; [| rewrite !andb_false_r in E1; discriminate].
    match goal with |- context [if ?c then set_isPinching true r else r] =>
      set (g1 := if c then set_isPinching true r else r) end.
    assert (Ha : anchorPos g1 = anchorPos r) by (unfold g1; splitIfs; reflexivity).
    destruct (isPinching g1) eqn:Eg1; [| congruence].
    intros _. destruct (dragTo_within hp g1) as [Hd Hda]. cbv zeta in Hd.
    rewrite Hda. exact Hd.
  - destruct (isPinching r && _) eqn:E2.
    + cbn. splitIfs; cbn; unfold release; splitIfs; cbn; discriminate.
    + destruct (negb (isFlying r) && negb (isPinching r)) eqn:E3.
      * unfold ease. cbn. intros Hp. rewrite Hp in E3.
        rewrite andb_false_r in E3. discriminate.
      * intros Hp. exfalso. destruct Hinv as [Hi _]. specialize (Hi Hp).
        rewrite Hp, Hi in *. cbn in E1, E2.
        rewrite andb_true_r in E1.
        destruct (isAiThinkingRef r); cbn in E1, E2;
          [rewrite orb_true_r in E2; discriminate |].
        rewrite orb_false_r in E2.
        destruct (isSome (handPos f r)); cbn in E1, E2; [| discriminate].
        unfold Rltb in E1. unfold Rleb in E2.
        destruct (Rlt_dec _ _); [discriminate |].
        destruct (Rle_dec _ _); [discriminate | lra].
Qed.

Lemma drag_within_reach_witness :
  (distance (Point.x (ballPos draggedGame)) (Point.y (ballPos draggedGame))
            (Point.x (anchorPos draggedGame)) (Point.y (anchorPos draggedGame))
   <= MAX_DRAG_DIST)%R.
Proof.
  unfold draggedGame.
  apply (drag_within_reach (pinchFrame 16) startGame startGame_reachable).
  fold draggedGame. destruct draggedGame_eq as [c ->].
  match goal with |- isPinching (capture ?x) = true =>
    destruct (capture_fields x) as [-> _] end.
  reflexivity.
Defined.

(** ** The ball at rest *)

(** With no hand in view and the canvas unchanged, a ball that is neither
    dragged nor in flight closes 15% of its offset from the anchor in every
    frame: after n frames the offset is 0.85^n times what it was. *)
Theorem ease_frames (fs : list FrameInput) (g : Game) :
  isPinching g = false -> isFlying g = false ->
  Forall (fun f => multiHandLandmarks f = None
                   /\ clientWidth f = canvas_width g
                   /\ clientHeight f = canvas_height g) fs ->
  let g' := frames g fs in
  let n := List.length fs in
  anchorPos g' = anchorPos g
  /\ (Point.x (anchorPos g) - Point.x (ballPos g')
      = 0.85 ^ n * (Point.x (anchorPos g) - Point.x (ballPos g)))%R
  /\ (Point.y (anchorPos g) - Point.y (ballPos g')
      = 0.85 ^ n * (Point.y (anchorPos g) - Point.y (ballPos g)))%R
  /\ isPinching g' = false /\ isFlying g' = false.
Proof.
  cbv zeta. revert g. induction fs as [|f fs IH]; intros g Hp Hf Hall.
  - cbn [frames fold_left List.length]. rewrite pow_O. repeat split; auto; lra.
  - inversion Hall as [|f' fs' [Hhand [Hw Hh]] Hall']. subst.
    cbn [frames fold_left List.length].
    change (fold_left (fun g f => onResults f g) fs (onResults f g))
      with (frames (onResults f g) fs).
    assert (E : onResults f g = capture (ease g))
      by (apply onResults_idle; auto).
    destruct (capture_fields (ease g)) as [Cp [Cf [_ [_ [Cb [Ca _]]]]]].
    assert (Cw : canvas_width (capture (ease g)) = canvas_width g
                 /\ canvas_height (capture (ease g)) = canvas_height g)
      by (unfold capture, ease; splitIfs; cbn; auto).
    assert (Hp' : isPinching (onResults f g) = false) by (rewrite E, Cp; exact Hp).
    assert (Hf' : isFlying (onResults f g) = false) by (rewrite E, Cf; exact Hf).
    assert (Hall'' : Forall (fun f0 => multiHandLandmarks f0 = None
                       /\ clientWidth f0 = canvas_width (onResults f g)
                       /\ clientHeight f0 = canvas_height (onResults f g)) fs)
      by (rewrite E; destruct Cw as [-> ->]; exact Hall').
    destruct (IH (onResults f g) Hp' Hf' Hall'') as [Ia [Ix [Iy [Ip If']]]].
    generalize dependent (frames (onResults f g) fs). intros gN Ia Ix Iy Ip If'.
    rewrite E in Ia, Ix, Iy. rewrite Ca, Cb in Ix, Iy. rewrite Ca in Ia.
    change (anchorPos (ease g)) with (anchorPos g) in *.
    unfold ease in Ix, Iy. cbn [ballPos set_ballPos Point.x Point.y] in Ix, Iy.
    split; [exact Ia |]. split; [| split; [| auto]].
    + rewrite <- tech_pow_Rmult. lra.
    + rewrite <- tech_pow_Rmult. lra.
Qed.

Lemma ease_frames_witness :
  anchorPos (frames draggedBack [idleFrame 16; idleFrame 33]) = anchorPos draggedBack.
Proof.
  apply (ease_frames [idleFrame 16; idleFrame 33] draggedBack); try reflexivity.
  repeat constructor.
Defined.

(** ** The colours in play *)

Lemma addColor_In (c d : BubbleColor) (s : list BubbleColor) :
  In d (addColor c s) <-> d = c \/ In d s.
Proof.
  induction s as [|e s IH]; cbn.
  - intuition.
  - destruct (BubbleColor_eqb e c) eqn:E.
    + apply BubbleColor_eqb_eq in E. subst e. cbn. intuition.
    + cbn. rewrite IH. intuition.
Qed.

(** [activeColors] holds exactly the colours of the active bubbles. *)
Lemma activeColors_In (bs : list Bubble) (c : BubbleColor) :
  In c (activeColors bs)
  <-> exists b, In b bs /\ Bubble.active b = true /\ Bubble.color b = c.
Proof.
  unfold activeColors.
  assert (G : forall s,
    In c (fold_left (fun s b => if Bubble.active b then addColor (Bubble.color b) s else s)
                    bs s)
    <-> In c s \/ exists b, In b bs /\ Bubble.active b = true /\ Bubble.color b = c).
  { induction bs as [|a bs IH]; intros s; cbn [fold_left].
    - split; [auto | intros [H | [b [[] _]]]; exact H].
    - rewrite IH. destruct (Bubble.active a) eqn:Ea.
      + rewrite addColor_In. split.
        * intros [[-> | H] | [b [Hb H]]]; auto.
          -- right. exists a. cbn. auto.
          -- right. exists b. cbn. tauto.
        * intros [H | [b [[<- | Hb] [Hact Hc]]]]; auto.
          right. exists b. auto.
      + split.
        * intros [H | [b [Hb H]]]; auto. right. exists b. cbn. tauto.
        * intros [H | [b [[<- | Hb] [Hact Hc]]]]; auto; [congruence |].
          right. exists b. auto. }
  rewrite G. cbn. intuition.
Qed.

(** The first colour of [activeColors] is the colour of the first active
    bubble of the array. *)
Lemma activeColors_head (bs : list Bubble) :
  hd_error (activeColors bs) = option_map Bubble.color (find Bubble.active bs).
Proof.
  unfold activeColors.
  assert (Hadd : forall c h t, exists t', addColor c (h :: t) = h :: t').
  { intros c h t. cbn. destruct (BubbleColor_eqb h c); eexists; reflexivity. }
  assert (Hkeep : forall l h t,
    exists t', fold_left (fun s b => if Bubble.active b then addColor (Bubble.color b) s
                                     else s) l (h :: t) = h :: t').
  { induction l as [|a l IH]; intros h t; cbn [fold_left].
    - eexists; reflexivity.
    - destruct (Bubble.active a); [| apply IH].
      destruct (Hadd (Bubble.color a) h t) as [t' ->]. apply IH. }
  induction bs as [|a bs IH]; cbn [fold_left find]; [reflexivity |].
  destruct (Bubble.active a); [| exact IH].
  cbn [addColor]. destruct (Hkeep bs (Bubble.color a) []) as [t' ->]. reflexivity.
Qed.

(** [updateAvailableColors] changes nothing but the selected colour, and
    that only when it has to. Either the state is unchanged, or the only
    change is the selected colour, which becomes the colour of the first
    active bubble of the array, and then no active bubble had the colour
    selected before. With no active bubble, or with an active bubble of the
    selected colour, the state is unchanged; and whenever a bubble is active,
    the colour selected afterwards is the colour of an active bubble. *)
Theorem updateAvailableColors_selected (g : Game) :
  let g' := updateAvailableColors g in
  (g' = g
   \/ exists first,
        find Bubble.active (bubbles g) = Some first
        /\ g' = set_selectedColorRef (Bubble.color first) g
        /\ forall b, In b (bubbles g) -> Bubble.active b = true ->
                     Bubble.color b <> selectedColorRef g)
  /\ bubbles g' = bubbles g
  /\ ((forall b, In b (bubbles g) -> Bubble.active b = false) -> g' = g)
  /\ ((exists b, In b (bubbles g) /\ Bubble.active b = true
                 /\ Bubble.color b = selectedColorRef g) -> g' = g)
  /\ ((exists b, In b (bubbles g) /\ Bubble.active b = true) ->
      exists b, In b (bubbles g') /\ Bubble.active b = true
                /\ Bubble.color b = selectedColorRef g').
Proof.
  cbv zeta. unfold updateAvailableColors.
  assert (Hin := activeColors_In (bubbles g)).
  assert (Hhead := activeColors_head (bubbles g)).
  destruct (activeColors (bubbles g)) as [|next rest] eqn:Ea.
  - split; [left; reflexivity |].
    split; [reflexivity |]. split; [reflexivity |]. split; [reflexivity |].
    intros [b [Hb Hact]]. exfalso.
    apply (proj2 (Hin (Bubble.color b))). exists b. auto.
  - assert (Hhas : hasColor (next :: rest) (selectedColorRef g) = true
                   <-> In (selectedColorRef g) (next :: rest)).
    { unfold hasColor. rewrite existsb_exists. split.
      - intros [c [Hc E]]. apply BubbleColor_eqb_eq in E. subst c. exact Hc.
      - intros H. exists (selectedColorRef g). split; [exact H |].
        apply BubbleColor_eqb_eq. reflexivity. }
    destruct (hasColor (next :: rest) (selectedColorRef g)) eqn:Eh; cbn [negb].
    + split; [left; reflexivity |].
      split; [reflexivity |]. split; [reflexivity |]. split; [reflexivity |].
      intros _. apply Hin. apply Hhas. reflexivity.
    + split.
      { right. cbn [hd_error] in Hhead.
        destruct (find Bubble.active (bubbles g)) as [first |]; [| discriminate].
        cbn in Hhead. injection Hhead as ->. exists first.
        split; [reflexivity |]. split; [reflexivity |].
        intros b Hb Hact Hc.
        assert (Hsel : In (selectedColorRef g) (Bubble.color first :: rest))
          by (apply Hin; exists b; auto).
        apply Hhas in Hsel. discriminate. }
      split; [reflexivity |]. split; [| split].
      * intros Hnone. exfalso.
        destruct (proj1 (Hin next) (or_introl eq_refl)) as [b [Hb [Hact _]]].
        rewrite (Hnone b Hb) in Hact. discriminate.
      * intros Hsel. exfalso. apply Hin in Hsel. apply Hhas in Hsel. discriminate.
      * intros _. cbn [bubbles selectedColorRef set_selectedColorRef].
        apply Hin. left. reflexivity.
Qed.

(** ** The grid as initialised *)

Lemma initGrid_ids (width : R) (fill : Z -> Z -> option BubbleColor)
  (cells : list (Z * Z)) :
  let grid := flat_map (fun rc : Z * Z =>
                let '(r, c) := rc in
                match fill r c with
                | Some color =>
                    let p := getBubblePos r c width in
                    [Bubble.mk (showZ r ++ "-" ++ showZ c) r c
                               (Point.x p) (Point.y p) color true]
                | None => []
                end) cells in
  let ids := map (fun rc : Z * Z => showZ (fst rc) ++ "-" ++ showZ (snd rc)) cells in
  (forall s, In s (map Bubble.id grid) -> In s ids)
  /\ (NoDup ids -> NoDup (map Bubble.id grid)).
Proof.
  cbv zeta. induction cells as [|[r c] cells [IHin IHnd]]; cbn [flat_map map].
  - split; [auto | intros _; constructor].
  - destruct (fill r c) as [color |]; cbn [app map Bubble.id fst snd].
    + split.
      * intros s [<- | Hs]; [left; reflexivity | right; apply IHin; exact Hs].
      * intros Hnd. inversion Hnd as [|x l Hnotin Hnd']. subst.
        constructor; [| apply IHnd; exact Hnd'].
        intros Hin. apply Hnotin. apply IHin. exact Hin.
    + split.
      * intros s Hs. right. apply IHin. exact Hs.
      * intros Hnd. inversion Hnd. apply IHnd. assumption.
Qed.

Lemma cellIds_NoDup :
  NoDup (map (fun rc : Z * Z => showZ (fst rc) ++ "-" ++ showZ (snd rc)) (cellsOfRows 5)).
Proof.
  assert (H : nodup string_dec
                (map (fun rc : Z * Z => showZ (fst rc) ++ "-" ++ showZ (snd rc))
                     (cellsOfRows 5))
              = map (fun rc : Z * Z => showZ (fst rc) ++ "-" ++ showZ (snd rc))
                    (cellsOfRows 5)) by (vm_compute; reflexivity).
  rewrite <- H. apply NoDup_nodup.
Qed.

(** Whatever the random draws, the grid as initialised has pairwise
    different ids (the hypothesis of the match detection), and each of its
    bubbles is active, lies in rows 0 to 4 within the columns of its row, is
    centred on its cell and has the colour drawn for its cell; there are 58
    bubbles at most. *)
Theorem initGrid_shape (width : R) (fill : Z -> Z -> option BubbleColor) :
  NoDup (map Bubble.id (initGrid width fill))
  /\ (List.length (initGrid width fill) <= 58)%nat
  /\ forall b, In b (initGrid width fill) ->
       Bubble.active b = true
       /\ 0 <= Bubble.row b < 5
       /\ 0 <= Bubble.col b < colsInRow (Bubble.row b)
       /\ Point.mk (Bubble.x b) (Bubble.y b)
          = getBubblePos (Bubble.row b) (Bubble.col b) width
       /\ fill (Bubble.row b) (Bubble.col b) = Some (Bubble.color b)
       /\ Bubble.id b = showZ (Bubble.row b) ++ "-" ++ showZ (Bubble.col b).
Proof.
  split; [| split].
  - unfold initGrid. apply (initGrid_ids width fill (cellsOfRows 5)). exact cellIds_NoDup.
  - unfold initGrid.
    assert (Hlen : List.length (cellsOfRows 5) = 58%nat) by (vm_compute; reflexivity).
    rewrite <- Hlen. generalize (cellsOfRows 5).
    induction l as [|[r c] l IH]; cbn [flat_map List.length]; [lia |].
    rewrite length_app. destruct (fill r c); cbn [List.length]; lia.
  - intros b Hb. unfold initGrid in Hb. apply in_flat_map in Hb.
    destruct Hb as [[r c] [Hcell Hb]]. apply cellsOfRows_In in Hcell.
    destruct (fill r c) as [color |] eqn:Hfill; [| contradiction].
    destruct Hb as [<- | []]. cbn [Bubble.active Bubble.row Bubble.col Bubble.x
                                   Bubble.y Bubble.color Bubble.id].
    repeat split; try tauto; try lia.
Qed.

(** ** The advisory call and its callback *)

(** Whatever the service does, the hint that [getStrategicHint] resolves
    with has its target row, target column and recommended colour all
    present or all absent; and it reports no error exactly when it passes on
    the answer of the service. *)
Theorem hint_target_complete (ai : bool) (validTargets : list TargetCandidate)
  (outcome : ServiceOutcome) :
  let r := getStrategicHint ai validTargets outcome in
  ((StrategicHint.targetRow (hint r) = None
    /\ StrategicHint.targetCol (hint r) = None
    /\ StrategicHint.recommendedColor (hint r) = None)
   \/ (exists row col color,
         StrategicHint.targetRow (hint r) = Some row
         /\ StrategicHint.targetCol (hint r) = Some col
         /\ StrategicHint.recommendedColor (hint r) = Some color))
  /\ (debug_error r = None ->
      exists json row col color,
        ai = true /\ outcome = Parsed json
        /\ json_targetRow json = Some row /\ json_targetCol json = Some col
        /\ json_recommendedColor json = Str color
        /\ StrategicHint.targetRow (hint r) = Some row
        /\ StrategicHint.targetCol (hint r) = Some col
        /\ StrategicHint.recommendedColor (hint r) = Some (toLowerCase color)).
Proof.
  cbv zeta.
  assert (Hlocal : forall msg,
    (StrategicHint.targetRow (getBestLocalTarget validTargets msg) = None
     /\ StrategicHint.targetCol (getBestLocalTarget validTargets msg) = None
     /\ StrategicHint.recommendedColor (getBestLocalTarget validTargets msg) = None)
    \/ (exists row col color,
          StrategicHint.targetRow (getBestLocalTarget validTargets msg) = Some row
          /\ StrategicHint.targetCol (getBestLocalTarget validTargets msg) = Some col
          /\ StrategicHint.recommendedColor (getBestLocalTarget validTargets msg)
             = Some color)).
  { intros msg. unfold getBestLocalTarget.
    destruct (sortBy compareTargets validTargets) as [|best rest]; cbn.
    - left. auto.
    - right. exists (TargetCandidate.row best), (TargetCandidate.col best),
        (TargetCandidate.color best). auto. }
  unfold getStrategicHint. destruct ai; cbn [negb].
  - destruct outcome as [e | e | json]; cbn [hint debug_error];
      try (split; [apply Hlocal | discriminate]).
    destruct (json_targetRow json) as [row |] eqn:Er;
      destruct (json_targetCol json) as [col |] eqn:Ec;
      destruct (json_recommendedColor json) as [| color |] eqn:Ek;
      cbn [hint debug_error];
      try (split; [apply Hlocal | discriminate]).
    split.
    + right. exists row, col, (toLowerCase color). cbn. auto.
    + intros _. exists json, row, col, color. cbn. auto 10.
  - cbn. split; [left; auto | discriminate].
Qed.

(** ** The advisory round trip with the service the component imports *)

(** The hint of [geminiService.ts] names a target only when [JSON.parse]
    accepted the text between the braces of the answer, and is then the
    object it returned, unchecked. So when the call throws, when the answer
    has no ['{'] with a ['}'] after it, or when [JSON.parse] rejects that
    text, the hint has no target row, column or colour, and the callback of
    [performAiAnalysis] releases the lock, settles the request and changes
    nothing else: the selected colour stays; an error is reported exactly
    when the call threw. *)
Theorem service_failure_unlocks (JSON_parse : string -> option StrategicHint)
  (outcome : GeminiService.CallOutcome) (g : Game) :
  (forall rawResponse jsonText,
     outcome = GeminiService.Returned rawResponse ->
     GeminiService.jsonMatch rawResponse = Some jsonText ->
     JSON_parse jsonText = None) ->
  let r := GeminiService.getStrategicHint JSON_parse outcome in
  StrategicHint.targetRow (hint r) = None
  /\ StrategicHint.targetCol (hint r) = None
  /\ StrategicHint.recommendedColor (hint r) = None
  /\ StrategicHint.message (hint r) <> EmptyString
  /\ (debug_error r <> None <-> exists error, outcome = GeminiService.Threw error)
  /\ exists g',
       onHint (hint r) g = Some g'
       /\ isAiThinkingRef g' = false
       /\ requestsInFlight g' = pred (requestsInFlight g)
       /\ selectedColorRef g' = selectedColorRef g
       /\ bubbles g' = bubbles g
       /\ scoreRef g' = scoreRef g.
Proof.
  intros Hfail. cbv zeta.
  assert (Hcall : forall h,
    StrategicHint.targetRow h = None ->
    exists g',
      onHint h g = Some g'
      /\ isAiThinkingRef g' = false
      /\ requestsInFlight g' = pred (requestsInFlight g)
      /\ selectedColorRef g' = selectedColorRef g
      /\ bubbles g' = bubbles g
      /\ scoreRef g' = scoreRef g).
  { intros h Hrow. unfold onHint. rewrite Hrow. eexists. split; [reflexivity |].
    cbn. repeat split. }
  destruct outcome as [error | rawResponse];
    cbn [GeminiService.getStrategicHint hint debug_error].
  - cbn [StrategicHint.targetRow StrategicHint.targetCol StrategicHint.recommendedColor
         StrategicHint.message].
    split; [reflexivity |]. split; [reflexivity |]. split; [reflexivity |].
    split; [discriminate |]. split; [| apply Hcall; reflexivity].
    split; [intros _; exists error; reflexivity | discriminate].
  - assert (Hfb : GeminiService.parseGeminiResponse JSON_parse rawResponse
                  = StrategicHint.mk
                      (if String.eqb (GeminiService.trim (GeminiService.firstLine rawResponse))
                                     EmptyString
                       then GeminiService.defaultMessage
                       else GeminiService.trim (GeminiService.firstLine rawResponse))
                      (Some "AI analysis completed") None None None).
    { unfold GeminiService.parseGeminiResponse.
      destruct (GeminiService.jsonMatch rawResponse) as [jsonText |] eqn:Em;
        [| reflexivity].
      rewrite (Hfail rawResponse jsonText eq_refl Em). reflexivity. }
    rewrite Hfb.
    cbn [StrategicHint.targetRow StrategicHint.targetCol StrategicHint.recommendedColor
         StrategicHint.message].
    split; [reflexivity |]. split; [reflexivity |]. split; [reflexivity |].
    split.
    { destruct (String.eqb_spec (GeminiService.trim (GeminiService.firstLine rawResponse))
                                EmptyString) as [_ | Hm]; [discriminate | exact Hm]. }
    split; [| apply Hcall; reflexivity].
    split; [intros H; contradiction | intros [error E]; discriminate].
Qed.

(** An answer whose braces hold no JSON, under the lock of [lockedGame]:
    the text [{oops}] is matched and rejected, the hint is the first line of
    the answer, trimmed, with no target; the lock is released and the
    colour selected at the mount stays. *)
Lemma service_failure_unlocks_witness :
  let r := GeminiService.getStrategicHint GeminiService.sampleParse
             (GeminiService.Returned GeminiService.sampleAnswer) in
  GeminiService.jsonMatch GeminiService.sampleAnswer = Some "{oops}"
  /\ StrategicHint.message (hint r) = "Aim left {oops}"
  /\ StrategicHint.recommendedColor (hint r) = None
  /\ isAiThinkingRef lockedGame = true
  /\ exists g',
       onHint (hint r) lockedGame = Some g'
       /\ isAiThinkingRef g' = false
       /\ selectedColorRef g' = selectedColorRef lockedGame.
Proof.
  cbv zeta. split; [reflexivity |]. split; [reflexivity |].
  destruct (service_failure_unlocks GeminiService.sampleParse
              (GeminiService.Returned GeminiService.sampleAnswer) lockedGame)
    as [_ [_ [Hc [_ [_ [g' [Hg [Hl [_ [Hs _]]]]]]]]]].
  - intros rawResponse jsonText E Em. injection E as <-.
    vm_compute in Em. injection Em as <-. reflexivity.
  - split; [exact Hc |]. split; [reflexivity |].
    exists g'. split; [exact Hg |]. split; [exact Hl | exact Hs].
Defined.

(** ** [Array.prototype.sort] with a comparator [key(b) - key(a)] *)

Lemma insertBy_Permutation {A} (compare : A -> A -> Z) (a : A) (l : list A) :
  Permutation (insertBy compare a l) (a :: l).
Proof.
  induction l as [|b t IH]; cbn; [reflexivity |].
  destruct (compare a b <=? 0); [reflexivity |].
  rewrite IH. apply perm_swap.
Qed.

Lemma sortBy_Permutation {A} (compare : A -> A -> Z) (l : list A) :
  Permutation (sortBy compare l) l.
Proof.
  induction l as [|a t IH]; cbn; [reflexivity |].
  rewrite insertBy_Permutation. constructor. exact IH.
Qed.

Lemma sortBy_length {A} (compare : A -> A -> Z) (l : list A) :
  List.length (sortBy compare l) = List.length l.
Proof. apply Permutation_length. apply sortBy_Permutation. Qed.

Lemma insertBy_sorted {A} (key : A -> Z) (a : A) (l : list A) :
  StronglySorted (fun x y => key y <= key x) l ->
  StronglySorted (fun x y => key y <= key x) (insertBy (fun x y => key y - key x) a l).
Proof.
  induction 1 as [|b t Hs IH Hb]; cbn.
  - constructor; constructor.
  - destruct (Z.leb_spec (key b - key a) 0) as [Hle | Hgt].
    + constructor; [constructor; assumption |].
      constructor; [lia |].
      rewrite Forall_forall in *. intros x Hx. specialize (Hb x Hx). lia.
    + constructor; [exact IH |].
      rewrite Forall_forall in *. intros x Hx.
      apply insertBy_In in Hx. destruct Hx as [-> | Hx]; [lia | auto].
Qed.

(** Sorting with the comparator [key(b) - key(a)] leaves the keys in
    non-increasing order. *)
Lemma sortBy_sorted {A} (key : A -> Z) (l : list A) :
  StronglySorted (fun x y => key y <= key x) (sortBy (fun x y => key y - key x) l).
Proof.
  induction l as [|a t IH]; cbn; [constructor |].
  apply insertBy_sorted. exact IH.
Qed.

(** ** [analyzeBubbles] *)

Lemma cellsOfColor_app (c : BubbleColor) (p q : list Bubble) :
  cellsOfColor c (p ++ q) = (cellsOfColor c p ++ cellsOfColor c q)%list.
Proof. unfold cellsOfColor. rewrite filter_app, map_app. reflexivity. Qed.

Lemma activeCount_app (p q : list Bubble) :
  activeCount (p ++ q) = (activeCount p + activeCount q)%nat.
Proof. unfold activeCount. rewrite filter_app, length_app. reflexivity. Qed.

Lemma BubbleColor_eqb_refl (c : BubbleColor) : BubbleColor_eqb c c = true.
Proof. destruct c; reflexivity. Qed.

Lemma BubbleColor_eqb_neq (c d : BubbleColor) : BubbleColor_eqb c d = false <-> c <> d.
Proof.
  split.
  - intros E H. apply BubbleColor_eqb_eq in H. congruence.
  - intros H. destruct (BubbleColor_eqb c d) eqn:E; [| reflexivity].
    apply BubbleColor_eqb_eq in E. contradiction.
Qed.

Lemma countBubble_colors (b : Bubble) (m : list ClusterInfo) :
  (forall c, In c (map ClusterInfo.color (countBubble b m))
             <-> c = Bubble.color b \/ In c (map ClusterInfo.color m))
  /\ (NoDup (map ClusterInfo.color m) -> NoDup (map ClusterInfo.color (countBubble b m)))
  /\ sumCounts (countBubble b m) = sumCounts m + 1.
Proof.
  induction m as [|k m [IH2 [IH3 IH4]]]; cbn [countBubble].
  - split; [| split].
    + intros c. cbn. intuition.
    + intros _. cbn. constructor; [intros [] | constructor].
    + cbn. lia.
  - destruct (BubbleColor_eqb (ClusterInfo.color k) (Bubble.color b)) eqn:E.
    + apply BubbleColor_eqb_eq in E. split; [| split].
      * intros c. cbn. rewrite E. intuition.
      * intros H. exact H.
      * cbn. lia.
    + apply BubbleColor_eqb_neq in E. split; [| split].
      * intros c. cbn. rewrite IH2. intuition.
      * intros H. cbn in H |- *. inversion H as [|x l Hnotin Hnd]. subst.
        constructor; [| apply IH3; exact Hnd].
        rewrite IH2. intros [Hc | Hc]; [congruence | contradiction].
      * unfold sumCounts in *. cbn [fold_right]. rewrite IH4. cbn [fold_right]. lia.
Qed.

Lemma countBubble_entries (b : Bubble) (m : list ClusterInfo) :
  NoDup (map ClusterInfo.color m) ->
  forall k', In k' (countBubble b m) ->
    (In k' m /\ ClusterInfo.color k' <> Bubble.color b)
    \/ (ClusterInfo.color k' = Bubble.color b
        /\ ((exists k, In k m /\ ClusterInfo.color k = Bubble.color b
                       /\ ClusterInfo.count k' = ClusterInfo.count k + 1
                       /\ ClusterInfo.bubbles k'
                          = (ClusterInfo.bubbles k ++ [(Bubble.row b, Bubble.col b)])%list)
            \/ ((forall k, In k m -> ClusterInfo.color k <> Bubble.color b)
                /\ ClusterInfo.count k' = 1
                /\ ClusterInfo.bubbles k' = [(Bubble.row b, Bubble.col b)]))).
Proof.
  induction m as [|k m IH]; intros Hnd k' Hk'; cbn [countBubble] in Hk'.
  - destruct Hk' as [<- | []]. right. split; [reflexivity |]. right.
    split; [intros k [] |]. split; reflexivity.
  - cbn in Hnd. inversion Hnd as [|x l Hnotin Hnd']. subst.
    destruct (BubbleColor_eqb (ClusterInfo.color k) (Bubble.color b)) eqn:E.
    + apply BubbleColor_eqb_eq in E. destruct Hk' as [<- | Hk'].
      * right. split; [exact E |]. left. exists k. cbn. auto.
      * left. split; [right; exact Hk' |]. intros Hc. apply Hnotin.
        rewrite E, <- Hc. apply in_map. exact Hk'.
    + apply BubbleColor_eqb_neq in E. destruct Hk' as [<- | Hk'].
      * left. split; [left; reflexivity | exact E].
      * destruct (IH Hnd' k' Hk') as [[Hin Hne] | [Hc [[k0 [Hk0 H]] | [Hnone H]]]].
        -- left. split; [right; exact Hin | exact Hne].
        -- right. split; [exact Hc |]. left. exists k0. split; [right; exact Hk0 | exact H].
        -- right. split; [exact Hc |]. right. split; [| exact H].
           intros k1 [<- | Hk1]; [exact E | apply Hnone; exact Hk1].
Qed.

Lemma CountInv_step (p : list Bubble) (m : list ClusterInfo) (b : Bubble) :
  CountInv p m ->
  CountInv (p ++ [b]) (if negb (Bubble.active b) then m else countBubble b m).
Proof.
  intros [Hnd Hsum Hentry Hcover].
  assert (Hcells : forall c, cellsOfColor c (p ++ [b])
            = (cellsOfColor c p
               ++ (if Bubble.active b && BubbleColor_eqb (Bubble.color b) c
                   then [(Bubble.row b, Bubble.col b)] else []))%list).
  { intros c. rewrite cellsOfColor_app. f_equal. unfold cellsOfColor. cbn.
    destruct (Bubble.active b && BubbleColor_eqb (Bubble.color b) c); reflexivity. }
  assert (Hact : activeCount (p ++ [b])
                 = (activeCount p + (if Bubble.active b then 1 else 0))%nat).
  { rewrite activeCount_app. f_equal. unfold activeCount. cbn.
    destruct (Bubble.active b); reflexivity. }
  destruct (Bubble.active b) eqn:Eb; cbn [negb].
  - destruct (countBubble_colors b m) as [Hcol [Hnd' Hsum']].
    constructor.
    + apply Hnd'. exact Hnd.
    + rewrite Hsum', Hsum, Hact. lia.
    + intros k' Hk'. rewrite Hcells. cbn [andb].
      destruct (countBubble_entries b m Hnd k' Hk')
        as [[Hin Hne] | [Hc [[k [Hk [Hkc [Hcnt Hbs]]]] | [Hnone [Hcnt Hbs]]]]].
      * destruct (Hentry k' Hin) as [H1 [H2 H3]].
        assert (E : BubbleColor_eqb (Bubble.color b) (ClusterInfo.color k') = false)
          by (apply BubbleColor_eqb_neq; congruence).
        rewrite E, app_nil_r. auto.
      * destruct (Hentry k Hk) as [H1 [H2 H3]].
        rewrite Hc, BubbleColor_eqb_refl. rewrite Hbs, Hcnt, H1, Hkc.
        split; [reflexivity |]. rewrite H2, H1, Hkc, !length_app. cbn [List.length].
        split; lia.
      * rewrite Hc, BubbleColor_eqb_refl, Hbs, Hcnt.
        assert (Hempty : cellsOfColor (Bubble.color b) p = []).
        { unfold cellsOfColor.
          destruct (filter _ p) as [|b' l] eqn:Ef; [reflexivity |]. exfalso.
          assert (Hb' : In b' (filter (fun b0 => Bubble.active b0
                           && BubbleColor_eqb (Bubble.color b0) (Bubble.color b)) p))
            by (rewrite Ef; left; reflexivity).
          apply filter_In in Hb'. destruct Hb' as [Hb' Hp].
          apply andb_true_iff in Hp. destruct Hp as [Ha Hc'].
          apply BubbleColor_eqb_eq in Hc'.
          destruct (Hcover b' Hb' Ha) as [k [Hk Hkc]].
          apply (Hnone k Hk). congruence. }
        rewrite Hempty. cbn. repeat split; lia.
    + intros b' Hb' Ha'. apply in_app_or in Hb'.
      destruct Hb' as [Hb' | [<- | []]].
      * destruct (Hcover b' Hb' Ha') as [k [Hk Hkc]].
        assert (Hc : In (Bubble.color b') (map ClusterInfo.color (countBubble b m))).
        { apply Hcol. right. rewrite <- Hkc. apply in_map. exact Hk. }
        apply in_map_iff in Hc. destruct Hc as [k' [Hk'c Hk']]. exists k'. auto.
      * assert (Hc : In (Bubble.color b) (map ClusterInfo.color (countBubble b m)))
          by (apply Hcol; left; reflexivity).
        apply in_map_iff in Hc. destruct Hc as [k' [Hk'c Hk']]. exists k'. auto.
  - constructor.
    + exact Hnd.
    + rewrite Hsum, Hact. lia.
    + intros k Hk. rewrite Hcells. cbn [andb]. rewrite app_nil_r. apply Hentry. exact Hk.
    + intros b' Hb' Ha'. apply in_app_or in Hb'.
      destruct Hb' as [Hb' | [<- | []]]; [apply Hcover; assumption | congruence].
Qed.

Lemma countLoop_inv (bs p : list Bubble) (m : list ClusterInfo) :
  CountInv p m ->
  CountInv (p ++ bs)
    (fold_left (fun clusters bubble =>
                  if negb (Bubble.active bubble) then clusters
                  else countBubble bubble clusters) bs m).
Proof.
  revert p m. induction bs as [|b bs IH]; intros p m H; cbn [fold_left].
  - rewrite app_nil_r. exact H.
  - replace (p ++ b :: bs)%list with ((p ++ [b]) ++ bs)%list
      by (rewrite <- app_assoc; reflexivity).
    apply IH. apply CountInv_step. exact H.
Qed.

Lemma sumCounts_Permutation (l l' : list ClusterInfo) :
  Permutation l l' -> sumCounts l = sumCounts l'.
Proof. unfold sumCounts. induction 1; cbn [fold_right]; lia. Qed.

(** [analyzeBubbles] groups the active bubbles by colour: one entry for
    each colour that has an active bubble, and no other; the entry lists the
    cells of its colour in array order and counts them; the counts add up to
    the number of active bubbles; and the entries come in non-increasing
    order of count, so that the first holds the largest count and the last
    the smallest. *)
Theorem analyzeBubbles_spec (bubbles : list Bubble) :
  let clusters := analyzeBubbles bubbles in
  NoDup (map ClusterInfo.color clusters)
  /\ (forall k, In k clusters ->
        ClusterInfo.bubbles k = cellsOfColor (ClusterInfo.color k) bubbles
        /\ ClusterInfo.count k = Z.of_nat (List.length (ClusterInfo.bubbles k))
        /\ 1 <= ClusterInfo.count k)
  /\ (forall b, In b bubbles -> Bubble.active b = true ->
        exists k, In k clusters /\ ClusterInfo.color k = Bubble.color b)
  /\ sumCounts clusters = Z.of_nat (activeCount bubbles)
  /\ StronglySorted (fun a b => ClusterInfo.count b <= ClusterInfo.count a) clusters.
Proof.
  cbv zeta. unfold analyzeBubbles.
  assert (H0 : CountInv [] []).
  { constructor; cbn; try constructor; try contradiction. }
  destruct (countLoop_inv bubbles [] [] H0) as [Hnd Hsum Hentry Hcover].
  cbn [app] in *.
  set (m := fold_left _ bubbles []) in *.
  assert (Hperm := sortBy_Permutation
            (fun a b => ClusterInfo.count b - ClusterInfo.count a) m).
  split; [| split; [| split; [| split]]].
  - apply (Permutation_NoDup (l := map ClusterInfo.color m)); [| exact Hnd].
    apply Permutation_map. symmetry. exact Hperm.
  - intros k Hk. apply Hentry. apply sortBy_In in Hk. exact Hk.
  - intros b Hb Ha. destruct (Hcover b Hb Ha) as [k [Hk Hc]].
    exists k. split; [apply sortBy_In; exact Hk | exact Hc].
  - rewrite (sumCounts_Permutation _ _ Hperm). exact Hsum.
  - apply (sortBy_sorted ClusterInfo.count).
Qed.

(** ** Decimal keys *)

Lemma showZ_inj (z z' : Z) : showZ z = showZ z' -> z = z'.
Proof.
  unfold showZ. intros H.
  assert (Hnn : forall n, Z.to_int n <> Decimal.Pos Decimal.Nil
                          /\ Z.to_int n <> Decimal.Neg Decimal.Nil).
  { intros [|p|p]; cbn; split; intros E; try discriminate;
      injection E as E; exact (DecimalPos.Unsigned.to_uint_nonnil p E). }
  assert (H1 := NilZero.isi (Z.to_int z) (proj1 (Hnn z)) (proj2 (Hnn z))).
  assert (H2 := NilZero.isi (Z.to_int z') (proj1 (Hnn z')) (proj2 (Hnn z'))).
  rewrite H in H1. rewrite H1 in H2. injection H2 as H2.
  apply DecimalZ.to_int_inj. exact H2.
Qed.

Lemma digits_no_punctuation (d : Decimal.uint) (c : ascii) :
  In c (list_ascii_of_string (NilEmpty.string_of_uint d)) ->
  c <> ","%char /\ c <> "{"%char /\ c <> "}"%char.
Proof.
  induction d as [| d IH | d IH | d IH | d IH | d IH | d IH | d IH | d IH | d IH | d IH];
    cbn; intros H; try contradiction;
    (destruct H as [<- | H]; [repeat split; discriminate | exact (IH H)]).
Qed.

Lemma string_of_uint_digits (d : Decimal.uint) (c : ascii) :
  In c (list_ascii_of_string (NilZero.string_of_uint d)) ->
  c <> ","%char /\ c <> "{"%char /\ c <> "}"%char.
Proof.
  destruct d; try apply digits_no_punctuation.
  cbn. intros [<- | []]. repeat split; discriminate.
Qed.

(** A number in decimal holds no comma. *)
Lemma showZ_no_comma (z : Z) :
  ~ In ","%char (list_ascii_of_string (showZ z)).
Proof.
  unfold showZ. intros H.
  destruct (Z.to_int z) as [d | d]; cbn in H.
  - apply string_of_uint_digits in H. destruct H as [H _]. contradiction H. reflexivity.
  - destruct H as [H | H]; [discriminate |].
    apply string_of_uint_digits in H. destruct H as [H _]. contradiction H. reflexivity.
Qed.

Lemma comma_split (s1 s2 t1 t2 : string) :
  ~ In ","%char (list_ascii_of_string s1) ->
  ~ In ","%char (list_ascii_of_string s2) ->
  s1 ++ String "," t1 = s2 ++ String "," t2 -> s1 = s2 /\ t1 = t2.
Proof.
  revert s2. induction s1 as [|a s1 IH]; intros [|b s2] H1 H2 E; cbn in *.
  - injection E as ->. auto.
  - injection E as <- _. contradiction H2. left. reflexivity.
  - injection E as -> _. contradiction H1. left. reflexivity.
  - injection E as -> E. destruct (IH s2) as [-> ->]; auto.
Qed.

(** The key of a cell names the cell. *)
Lemma cellKey_inj (a b : Bubble) :
  cellKey a = cellKey b -> Bubble.row a = Bubble.row b /\ Bubble.col a = Bubble.col b.
Proof.
  unfold cellKey. intros H.
  apply comma_split in H; try apply showZ_no_comma.
  destruct H as [H1 H2]. split; apply showZ_inj; assumption.
Qed.

(** ** [getTargetCandidates] *)

Lemma boxNeighbors_self (allBubbles : list Bubble) (b : Bubble) :
  In b allBubbles -> Bubble.active b = true ->
  1 <= Z.of_nat (List.length (boxNeighbors allBubbles b)).
Proof.
  intros Hin Ha.
  assert (H : In b (boxNeighbors allBubbles b)).
  { unfold boxNeighbors. apply filter_In. split; [exact Hin |].
    rewrite Ha, BubbleColor_eqb_refl, !Z.sub_diag. reflexivity. }
  destruct (boxNeighbors allBubbles b); [contradiction | cbn [List.length]; lia].
Qed.

Lemma candidatesLoop_inv (allBubbles : list Bubble) :
  forall rest p processed candidates,
  (forall s, setHas processed s = true
             <-> exists k, In k candidates
                           /\ s = showZ (Candidate.row k) ++ "," ++ showZ (Candidate.col k)) ->
  NoDup (map (fun k => (Candidate.row k, Candidate.col k)) candidates) ->
  (forall k, In k candidates ->
     exists b, In b allBubbles /\ Bubble.active b = true
               /\ Candidate.row k = Bubble.row b /\ Candidate.col k = Bubble.col b
               /\ Candidate.color k = Bubble.color b
               /\ Candidate.clusterSize k
                  = Z.of_nat (List.length (boxNeighbors allBubbles b))) ->
  (forall b, In b p -> Bubble.active b = true ->
     exists k, In k candidates
               /\ Candidate.row k = Bubble.row b /\ Candidate.col k = Bubble.col b) ->
  (forall b, In b rest -> In b allBubbles) ->
  let out := candidatesLoop allBubbles rest processed candidates in
  NoDup (map (fun k => (Candidate.row k, Candidate.col k)) out)
  /\ (forall k, In k out ->
        exists b, In b allBubbles /\ Bubble.active b = true
                  /\ Candidate.row k = Bubble.row b /\ Candidate.col k = Bubble.col b
                  /\ Candidate.color k = Bubble.color b
                  /\ Candidate.clusterSize k
                     = Z.of_nat (List.length (boxNeighbors allBubbles b)))
  /\ (forall b, In b (p ++ rest) -> Bubble.active b = true ->
        exists k, In k out
                  /\ Candidate.row k = Bubble.row b /\ Candidate.col k = Bubble.col b).
Proof.
  induction rest as [|bubble rest IH]; intros p processed candidates Hset Hnd Hfrom Hcov Hall;
    cbv zeta; cbn [candidatesLoop].
  - rewrite app_nil_r. auto.
  - assert (Hall' : forall b, In b rest -> In b allBubbles)
      by (intros b Hb; apply Hall; right; exact Hb).
    replace (p ++ bubble :: rest)%list with ((p ++ [bubble]) ++ rest)%list
      by (rewrite <- app_assoc; reflexivity).
    destruct (Bubble.active bubble) eqn:Ea; cbn [negb].
    + cbv zeta. destruct (setHas processed (cellKey bubble)) eqn:Ek.
      * apply IH; auto.
        intros b Hb Hact. apply in_app_or in Hb. destruct Hb as [Hb | [<- | []]]; [auto |].
        apply Hset in Ek. destruct Ek as [k [Hk Hkey]]. exists k. split; [exact Hk |].
        unfold cellKey in Hkey.
        apply comma_split in Hkey; try apply showZ_no_comma.
        destruct Hkey as [H1 H2]. apply showZ_inj in H1, H2. auto.
      * apply IH; auto.
        -- intros s. cbn [setHas existsb].
           change (existsb (String.eqb s) processed) with (setHas processed s).
           rewrite orb_true_iff, Hset, String.eqb_eq. split.
           ++ intros [-> | [k [Hk Hs]]].
              ** eexists. split; [apply in_or_app; right; left; reflexivity |]. reflexivity.
              ** exists k. split; [apply in_or_app; left; exact Hk | exact Hs].
           ++ intros [k [Hk Hs]]. apply in_app_or in Hk. destruct Hk as [Hk | [<- | []]].
              ** right. exists k. auto.
              ** left. exact Hs.
        -- rewrite map_app. cbn [map Candidate.row Candidate.col].
           apply NoDup_app; [exact Hnd | constructor; [intros [] | constructor] |].
           intros cell Hcell [<- | []].
           apply in_map_iff in Hcell. destruct Hcell as [k [Hkc Hk]].
           injection Hkc as Hr Hc.
           assert (Hin : setHas processed (cellKey bubble) = true).
           { apply Hset. exists k. split; [exact Hk |]. unfold cellKey. rewrite Hr, Hc.
             reflexivity. }
           congruence.
        -- intros k Hk. apply in_app_or in Hk. destruct Hk as [Hk | [<- | []]]; [auto |].
           exists bubble. cbn. repeat split; auto. apply Hall. left. reflexivity.
        -- intros b Hb Hact. apply in_app_or in Hb. destruct Hb as [Hb | [<- | []]].
           ++ destruct (Hcov b Hb Hact) as [k [Hk H]]. exists k.
              split; [apply in_or_app; left; exact Hk | exact H].
           ++ eexists. split; [apply in_or_app; right; left; reflexivity |].
              cbn. auto.
    + apply IH; auto.
      intros b Hb Hact. apply in_app_or in Hb.
      destruct Hb as [Hb | [<- | []]]; [auto | congruence].
Qed.

(** [getTargetCandidates] returns one candidate for each cell that holds an
    active bubble, and no other: candidates have pairwise different cells;
    each carries the cell and the colour of an active bubble, and as cluster
    size the number of active bubbles of that colour in the 3 by 3 box of
    cells around it, the bubble itself included, hence 1 at least; every
    active bubble has the candidate of its cell; and the candidates come in
    non-increasing order of cluster size. *)
Theorem getTargetCandidates_spec (allBubbles : list Bubble) :
  let candidates := getTargetCandidates allBubbles in
  NoDup (map (fun k => (Candidate.row k, Candidate.col k)) candidates)
  /\ (forall k, In k candidates ->
        1 <= Candidate.clusterSize k
        /\ exists b, In b allBubbles /\ Bubble.active b = true
                     /\ Candidate.row k = Bubble.row b /\ Candidate.col k = Bubble.col b
                     /\ Candidate.color k = Bubble.color b
                     /\ Candidate.clusterSize k
                        = Z.of_nat (List.length (boxNeighbors allBubbles b)))
  /\ (forall b, In b allBubbles -> Bubble.active b = true ->
        exists k, In k candidates
                  /\ Candidate.row k = Bubble.row b /\ Candidate.col k = Bubble.col b)
  /\ StronglySorted (fun a b => Candidate.clusterSize b <= Candidate.clusterSize a)
                    candidates.
Proof.
  cbv zeta. unfold getTargetCandidates.
  destruct (candidatesLoop_inv allBubbles allBubbles [] [] []) as [Hnd [Hfrom Hcov]].
  - intros s. cbn. split; [discriminate | intros [k [[] _]]].
  - constructor.
  - intros k [].
  - intros b [].
  - auto.
  - cbn [app] in Hcov.
    set (loop := candidatesLoop allBubbles allBubbles [] []) in *.
    assert (Hperm := sortBy_Permutation
              (fun a b => Candidate.clusterSize b - Candidate.clusterSize a) loop).
    split; [| split; [| split]].
    + apply (Permutation_NoDup
               (l := map (fun k => (Candidate.row k, Candidate.col k)) loop));
        [| exact Hnd].
      apply Permutation_map. symmetry. exact Hperm.
    + intros k Hk. apply sortBy_In in Hk.
      destruct (Hfrom k Hk) as [b [Hb [Ha [Hr [Hc [Hcol Hsize]]]]]].
      split; [rewrite Hsize; apply boxNeighbors_self; assumption |].
      exists b. auto 10.
    + intros b Hb Ha. destruct (Hcov b Hb Ha) as [k [Hk H]].
      exists k. split; [apply sortBy_In; exact Hk | exact H].
    + apply (sortBy_sorted Candidate.clusterSize).
Qed.

(** ** [adjustColor] *)

Lemma hexDigitValue_range (c : ascii) (d : Z) :
  hexDigitValue c = Some d ->
  0 <= d < 16
  /\ isWhiteSpace c = false
  /\ Ascii.eqb c "-" = false /\ Ascii.eqb c "+" = false
  /\ Ascii.eqb c "x" = false /\ Ascii.eqb c "X" = false.
Proof.
  destruct c as [[] [] [] [] [] [] [] []]; vm_compute; intros H;
    try discriminate; injection H as <-; repeat split; try reflexivity; discriminate.
Qed.

Lemma hexChar_value (d : Z) :
  0 <= d < 16 -> hexDigitValue (hexChar d) = Some d.
Proof.
  intros H.
  assert (Hd : d = 0 \/ d = 1 \/ d = 2 \/ d = 3 \/ d = 4 \/ d = 5 \/ d = 6 \/ d = 7
               \/ d = 8 \/ d = 9 \/ d = 10 \/ d = 11 \/ d = 12 \/ d = 13 \/ d = 14
               \/ d = 15) by lia.
  repeat (destruct Hd as [-> | Hd]; [reflexivity |]). subst. reflexivity.
Qed.

(** Two hexadecimal digits read as 16 times the first plus the second. *)
Lemma parseInt16_pair (c1 c2 : ascii) (d1 d2 : Z) :
  hexDigitValue c1 = Some d1 -> hexDigitValue c2 = Some d2 ->
  parseInt16 (String c1 (String c2 EmptyString)) = Some (16 * d1 + d2).
Proof.
  intros H1 H2.
  destruct (hexDigitValue_range c1 d1 H1) as [_ [W1 [M1 [P1 _]]]].
  destruct (hexDigitValue_range c2 d2 H2) as [_ [_ [_ [_ [X2 X2']]]]].
  unfold parseInt16. cbn [trimStart]. rewrite W1, M1, P1, X2, X2'.
  rewrite andb_false_r. cbn [hexPrefix]. rewrite H1, H2. f_equal. lia.
Qed.

(** A channel value prints as two lower-case digits. *)
Lemma componentToHex_pair (v : Z) :
  0 <= v <= 255 ->
  componentToHex (Some v)
  = String (hexChar (v / 16)) (String (hexChar (v mod 16)) EmptyString).
Proof.
  intros Hv. unfold componentToHex, toString16.
  destruct (Z.ltb_spec v 16) as [Hlt | Hge].
  - cbn. rewrite Z.div_small, Z.mod_small by lia. reflexivity.
  - reflexivity.
Qed.

Lemma clamp_range (v amount : Z) : 0 <= Z.max 0 (Z.min 255 (v + amount)) <= 255.
Proof. lia. Qed.

(** [adjustColor] on a colour of six digits, channel by channel. *)
Lemma adjustColor_digits (c1 c2 c3 c4 c5 c6 : ascii) (d1 d2 d3 d4 d5 d6 amount : Z) :
  hexDigitValue c1 = Some d1 -> hexDigitValue c2 = Some d2 ->
  hexDigitValue c3 = Some d3 -> hexDigitValue c4 = Some d4 ->
  hexDigitValue c5 = Some d5 -> hexDigitValue c6 = Some d6 ->
  let color := String "#" (String c1 (String c2 (String c3 (String c4 (String c5
                 (String c6 EmptyString)))))) in
  let r := Z.max 0 (Z.min 255 (16 * d1 + d2 + amount)) in
  let g := Z.max 0 (Z.min 255 (16 * d3 + d4 + amount)) in
  let b := Z.max 0 (Z.min 255 (16 * d5 + d6 + amount)) in
  channel 0 color = Some (16 * d1 + d2)
  /\ channel 2 color = Some (16 * d3 + d4)
  /\ channel 4 color = Some (16 * d5 + d6)
  /\ adjustColor color amount
     = String "#" (String (hexChar (r / 16)) (String (hexChar (r mod 16))
         (String (hexChar (g / 16)) (String (hexChar (g mod 16))
           (String (hexChar (b / 16)) (String (hexChar (b mod 16)) EmptyString)))))).
Proof.
  intros H1 H2 H3 H4 H5 H6. cbv zeta.
  unfold channel, adjustColor, jsSubstring.
  cbn [removeFirstHash Ascii.eqb Bool.eqb Nat.add Nat.sub String.substring].
  change (Ascii.eqb "#" "#") with true. cbv iota.
  cbn [String.substring Nat.sub].
  rewrite (parseInt16_pair c1 c2 d1 d2 H1 H2), (parseInt16_pair c3 c4 d3 d4 H3 H4),
    (parseInt16_pair c5 c6 d5 d6 H5 H6).
  repeat split; try reflexivity.
  unfold clampChannel. rewrite !componentToHex_pair by apply clamp_range.
  reflexivity.
Qed.

Lemma isHexColor_inv (s : string) :
  isHexColor s = true ->
  exists c1 c2 c3 c4 c5 c6 d1 d2 d3 d4 d5 d6,
    s = String "#" (String c1 (String c2 (String c3 (String c4 (String c5
          (String c6 EmptyString))))))
    /\ hexDigitValue c1 = Some d1 /\ hexDigitValue c2 = Some d2
    /\ hexDigitValue c3 = Some d3 /\ hexDigitValue c4 = Some d4
    /\ hexDigitValue c5 = Some d5 /\ hexDigitValue c6 = Some d6.
Proof.
  destruct s as [|h [|c1 [|c2 [|c3 [|c4 [|c5 [|c6 [|c7 s]]]]]]]]; try discriminate.
  cbn [isHexColor forallb]. intros H.
  apply andb_true_iff in H. destruct H as [Hh H].
  apply Ascii.eqb_eq in Hh. subst h.
  destruct (hexDigitValue c1) as [d1 |] eqn:E1; [| discriminate].
  destruct (hexDigitValue c2) as [d2 |] eqn:E2; [| discriminate].
  destruct (hexDigitValue c3) as [d3 |] eqn:E3; [| discriminate].
  destruct (hexDigitValue c4) as [d4 |] eqn:E4; [| discriminate].
  destruct (hexDigitValue c5) as [d5 |] eqn:E5; [| discriminate].
  destruct (hexDigitValue c6) as [d6 |] eqn:E6; [| discriminate].
  exists c1, c2, c3, c4, c5, c6, d1, d2, d3, d4, d5, d6. auto 10.
Qed.

Lemma hexChar_pair (v : Z) :
  0 <= v <= 255 ->
  hexDigitValue (hexChar (v / 16)) = Some (v / 16)
  /\ hexDigitValue (hexChar (v mod 16)) = Some (v mod 16).
Proof.
  intros Hv. split; apply hexChar_value.
  - split; [apply Z.div_pos; lia | apply Z.div_lt_upper_bound; lia].
  - apply Z.mod_pos_bound. lia.
Qed.

(** On a colour written as ['#'] and six hexadecimal digits, [adjustColor]
    returns a colour written the same way, in lower case; read back, each
    channel is the channel of the argument plus [amount], clamped to 0..255. *)
Theorem adjustColor_roundtrip (color : string) (amount : Z) :
  isHexColor color = true ->
  isHexColor (adjustColor color amount) = true
  /\ forall a, a = 0%nat \/ a = 2%nat \/ a = 4%nat ->
       exists v, channel a color = Some v /\ 0 <= v <= 255
                 /\ channel a (adjustColor color amount)
                    = Some (Z.max 0 (Z.min 255 (v + amount))).
Proof.
  intros Hc.
  destruct (isHexColor_inv color Hc)
    as [c1 [c2 [c3 [c4 [c5 [c6 [d1 [d2 [d3 [d4 [d5 [d6 [-> [H1 [H2 [H3 [H4 [H5 H6]]]]]]]]]]]]]]]]]].
  destruct (adjustColor_digits c1 c2 c3 c4 c5 c6 d1 d2 d3 d4 d5 d6 amount H1 H2 H3 H4 H5 H6)
    as [Cr [Cg [Cb Hadj]]].
  cbv zeta in Hadj. rewrite Hadj.
  set (r := Z.max 0 (Z.min 255 (16 * d1 + d2 + amount))) in *.
  set (g := Z.max 0 (Z.min 255 (16 * d3 + d4 + amount))) in *.
  set (b := Z.max 0 (Z.min 255 (16 * d5 + d6 + amount))) in *.
  assert (Hr : 0 <= r <= 255) by apply clamp_range.
  assert (Hg : 0 <= g <= 255) by apply clamp_range.
  assert (Hb : 0 <= b <= 255) by apply clamp_range.
  destruct (hexChar_pair r Hr) as [Hr1 Hr2].
  destruct (hexChar_pair g Hg) as [Hg1 Hg2].
  destruct (hexChar_pair b Hb) as [Hb1 Hb2].
  destruct (adjustColor_digits _ _ _ _ _ _ _ _ _ _ _ _ 0 Hr1 Hr2 Hg1 Hg2 Hb1 Hb2)
    as [Dr [Dg [Db _]]].
  destruct (hexDigitValue_range c1 d1 H1) as [R1 _].
  destruct (hexDigitValue_range c2 d2 H2) as [R2 _].
  destruct (hexDigitValue_range c3 d3 H3) as [R3 _].
  destruct (hexDigitValue_range c4 d4 H4) as [R4 _].
  destruct (hexDigitValue_range c5 d5 H5) as [R5 _].
  destruct (hexDigitValue_range c6 d6 H6) as [R6 _].
  split.
  - cbn [isHexColor forallb]. rewrite Hr1, Hr2, Hg1, Hg2, Hb1, Hb2. reflexivity.
  - intros a [-> | [-> | ->]].
    + exists (16 * d1 + d2). split; [exact Cr |]. split; [lia |].
      rewrite Dr. f_equal. fold r. rewrite (Z.div_mod r 16) at 3 by lia. lia.
    + exists (16 * d3 + d4). split; [exact Cg |]. split; [lia |].
      rewrite Dg. f_equal. fold g. rewrite (Z.div_mod g 16) at 3 by lia. lia.
    + exists (16 * d5 + d6). split; [exact Cb |]. split; [lia |].
      rewrite Db. f_equal. fold b. rewrite (Z.div_mod b 16) at 3 by lia. lia.
Qed.

Lemma adjustColor_roundtrip_witness :
  isHexColor (adjustColor (hexOf orange) (-60)) = true.
Proof.
  apply (adjustColor_roundtrip (hexOf orange) (-60)). reflexivity.
Defined.

Lemma clamp_clamp (v a b : Z) :
  0 <= v <= 255 ->
  (0 <= a /\ 0 <= b) \/ (a <= 0 /\ b <= 0) ->
  Z.max 0 (Z.min 255 (Z.max 0 (Z.min 255 (v + a)) + b))
  = Z.max 0 (Z.min 255 (v + (a + b))).
Proof.
  intros Hv Hs. lia.
Qed.

(** Darkening twice, or brightening twice, is darkening or brightening once
    by the sum: the clamp loses nothing as long as the amounts have the same
    sign. *)
Theorem adjustColor_compose (color : string) (a b : Z) :
  isHexColor color = true ->
  (0 <= a /\ 0 <= b) \/ (a <= 0 /\ b <= 0) ->
  adjustColor (adjustColor color a) b = adjustColor color (a + b).
Proof.
  intros Hc Hsign.
  destruct (isHexColor_inv color Hc)
    as [c1 [c2 [c3 [c4 [c5 [c6 [d1 [d2 [d3 [d4 [d5 [d6 [-> [H1 [H2 [H3 [H4 [H5 H6]]]]]]]]]]]]]]]]]].
  destruct (adjustColor_digits c1 c2 c3 c4 c5 c6 d1 d2 d3 d4 d5 d6 a H1 H2 H3 H4 H5 H6)
    as [_ [_ [_ Ha]]].
  destruct (adjustColor_digits c1 c2 c3 c4 c5 c6 d1 d2 d3 d4 d5 d6 (a + b)
              H1 H2 H3 H4 H5 H6) as [_ [_ [_ Hab]]].
  cbv zeta in Ha, Hab. rewrite Ha, Hab.
  set (r := Z.max 0 (Z.min 255 (16 * d1 + d2 + a))) in *.
  set (g := Z.max 0 (Z.min 255 (16 * d3 + d4 + a))) in *.
  set (bl := Z.max 0 (Z.min 255 (16 * d5 + d6 + a))) in *.
  assert (Hr : 0 <= r <= 255) by apply clamp_range.
  assert (Hg : 0 <= g <= 255) by apply clamp_range.
  assert (Hb : 0 <= bl <= 255) by apply clamp_range.
  destruct (hexChar_pair r Hr) as [Hr1 Hr2].
  destruct (hexChar_pair g Hg) as [Hg1 Hg2].
  destruct (hexChar_pair bl Hb) as [Hb1 Hb2].
  destruct (adjustColor_digits _ _ _ _ _ _ _ _ _ _ _ _ b Hr1 Hr2 Hg1 Hg2 Hb1 Hb2)
    as [_ [_ [_ Hfin]]].
  cbv zeta in Hfin. rewrite Hfin.
  destruct (hexDigitValue_range c1 d1 H1) as [R1 _].
  destruct (hexDigitValue_range c2 d2 H2) as [R2 _].
  destruct (hexDigitValue_range c3 d3 H3) as [R3 _].
  destruct (hexDigitValue_range c4 d4 H4) as [R4 _].
  destruct (hexDigitValue_range c5 d5 H5) as [R5 _].
  destruct (hexDigitValue_range c6 d6 H6) as [R6 _].
  replace (16 * (r / 16) + r mod 16) with r by (first [apply Z.div_mod | symmetry; apply Z.div_mod]; discriminate).
  replace (16 * (g / 16) + g mod 16) with g by (first [apply Z.div_mod | symmetry; apply Z.div_mod]; discriminate).
  replace (16 * (bl / 16) + bl mod 16) with bl by (first [apply Z.div_mod | symmetry; apply Z.div_mod]; discriminate).
  assert (V1 : 0 <= 16 * d1 + d2 <= 255) by (clear - R1 R2; lia).
  assert (V2 : 0 <= 16 * d3 + d4 <= 255) by (clear - R3 R4; lia).
  assert (V3 : 0 <= 16 * d5 + d6 <= 255) by (clear - R5 R6; lia).
  unfold r, g, bl.
  rewrite (clamp_clamp _ a b V1 Hsign), (clamp_clamp _ a b V2 Hsign),
    (clamp_clamp _ a b V3 Hsign).
  reflexivity.
Qed.

Lemma adjustColor_compose_witness :
  adjustColor (adjustColor (hexOf red) (-60)) (-20) = adjustColor (hexOf red) (-60 + -20).
Proof.
  apply (adjustColor_compose (hexOf red) (-60) (-20)); [reflexivity | right; lia].
Defined.

Lemma hexChar_lower (c : ascii) (d : Z) :
  hexDigitValue c = Some d -> hexChar d = lowerAscii c.
Proof.
  destruct c as [[] [] [] [] [] [] [] []]; vm_compute; intros H;
    try discriminate; injection H as <-; reflexivity.
Qed.

(** With the amount 0, [adjustColor] returns the colour, in lower case. *)
Lemma adjustColor_zero (color : string) :
  isHexColor color = true -> adjustColor color 0 = toLowerCase color.
Proof.
  intros Hc.
  destruct (isHexColor_inv color Hc)
    as [c1 [c2 [c3 [c4 [c5 [c6 [d1 [d2 [d3 [d4 [d5 [d6 [-> [H1 [H2 [H3 [H4 [H5 H6]]]]]]]]]]]]]]]]]].
  destruct (adjustColor_digits c1 c2 c3 c4 c5 c6 d1 d2 d3 d4 d5 d6 0 H1 H2 H3 H4 H5 H6)
    as [_ [_ [_ Ha]]].
  cbv zeta in Ha. rewrite Ha.
  destruct (hexDigitValue_range c1 d1 H1) as [R1 _].
  destruct (hexDigitValue_range c2 d2 H2) as [R2 _].
  destruct (hexDigitValue_range c3 d3 H3) as [R3 _].
  destruct (hexDigitValue_range c4 d4 H4) as [R4 _].
  destruct (hexDigitValue_range c5 d5 H5) as [R5 _].
  destruct (hexDigitValue_range c6 d6 H6) as [R6 _].
  replace (Z.max 0 (Z.min 255 (16 * d1 + d2 + 0))) with (d2 + d1 * 16) by lia.
  replace (Z.max 0 (Z.min 255 (16 * d3 + d4 + 0))) with (d4 + d3 * 16) by lia.
  replace (Z.max 0 (Z.min 255 (16 * d5 + d6 + 0))) with (d6 + d5 * 16) by lia.
  rewrite !Z.div_add, !Z.mod_add, !Z.div_small, !Z.mod_small by lia. cbn [Z.add].
  rewrite (hexChar_lower c1 d1 H1), (hexChar_lower c2 d2 H2), (hexChar_lower c3 d3 H3),
    (hexChar_lower c4 d4 H4), (hexChar_lower c5 d5 H5), (hexChar_lower c6 d6 H6).
  reflexivity.
Qed.

Lemma string_append_assoc (s t u : string) : (s ++ t) ++ u = s ++ (t ++ u).
Proof. induction s as [|c s IH]; cbn; [reflexivity | rewrite IH; reflexivity]. Qed.

Lemma substring_past (n m : nat) (s : string) :
  (String.length s <= n)%nat -> String.substring n m s = EmptyString.
Proof.
  revert n. induction s as [|c s IH]; intros [|n] H; cbn in *.
  - destruct m; reflexivity.
  - reflexivity.
  - lia.
  - apply IH. lia.
Qed.

(** A colour with fewer than five characters after the ['#'] is removed (the
    shorthand [#abc], say) has no blue channel: the result ends in [NaN] and
    is no colour. *)
Theorem adjustColor_short (color : string) (amount : Z) :
  (String.length (removeFirstHash color) <= 4)%nat ->
  exists prefix, adjustColor color amount = prefix ++ "NaN".
Proof.
  intros Hlen. unfold adjustColor. cbv zeta. unfold jsSubstring at 3.
  rewrite (substring_past 4 (6 - 4) _ Hlen).
  change (clampChannel (parseInt16 EmptyString) amount) with (@None Z).
  cbn [componentToHex].
  match goal with
  | |- exists prefix, ?h ++ ?a ++ ?b ++ "NaN" = _ => exists (h ++ a ++ b)
  end.
  rewrite !string_append_assoc. reflexivity.
Qed.

Lemma adjustColor_short_witness :
  exists prefix, adjustColor "#abc" (-60) = prefix ++ "NaN".
Proof. apply (adjustColor_short "#abc" (-60)). cbn. lia. Defined.

(** ** [isPathClear] *)

Lemma upto_nonpos (n : Z) : n <= 0 -> upto n = [].
Proof.
  intros H. unfold upto. replace (Z.to_nat n) with 0%nat by lia. reflexivity.
Qed.

(** A target within three sampling steps (33 px) of the anchor is always
    reported clear: the loop has no sample to test, whatever lies between. *)
Theorem isPathClear_near (g : Game) (target : Bubble) :
  (distance (Bubble.x target) (Bubble.y target)
            (Point.x (anchorPos g)) (Point.y (anchorPos g))
   <= 3 * (BUBBLE_RADIUS / 2))%R ->
  isPathClear g target = true.
Proof.
  intros Hd. unfold isPathClear. cbv zeta.
  set (dx := (Bubble.x target - Point.x (anchorPos g))%R).
  set (dy := (Bubble.y target - Point.y (anchorPos g))%R).
  assert (Hsteps : Math_ceil (sqrt (dx * dx + dy * dy) / (BUBBLE_RADIUS / 2)) <= 3).
  { unfold distance in Hd. fold dx dy in Hd.
    replace (dx ^ 2 + dy ^ 2)%R with (dx * dx + dy * dy)%R in Hd by ring.
    unfold Math_ceil.
    assert (H3 : (sqrt (dx * dx + dy * dy) / (BUBBLE_RADIUS / 2) <= 3)%R).
    { unfold BUBBLE_RADIUS in *. apply (Rmult_le_reg_r (22 / 2)); [lra |].
      unfold Rdiv at 1. rewrite Rmult_assoc, Rinv_l by lra. lra. }
    apply Zceil_le in H3. rewrite (Zceil_eq 3 3) in H3 by lra. exact H3. }
  rewrite upto_nonpos by lia. reflexivity.
Qed.

(** The target is 30 px above the anchor, and an active bubble lies between
    the two, 15 px from each. *)
Lemma isPathClear_near_witness :
  isPathClear nearWall (Bubble.mk "9-9" 9 9 500 750 red true) = true.
Proof.
  apply isPathClear_near.
  cbn [Bubble.x Bubble.y anchorPos nearWall set_bubbles draggedBack Point.x Point.y].
  rewrite distance_sym, distance_vertical by lra. unfold BUBBLE_RADIUS. lra.
Defined.

Lemma samples_deactivated (bs bs' : list Bubble) (p : Bubble -> bool) :
  (forall b, Bubble.active b = false -> p b = true) ->
  (forall i, nth_error bs' i = nth_error bs i
             \/ nth_error bs' i = option_map Bubble.deactivate (nth_error bs i)) ->
  (forall b, p (Bubble.deactivate b) = true) ->
  forallb p bs = true -> forallb p bs' = true.
Proof.
  intros Hinactive Hnth Hdeact Hall.
  rewrite forallb_forall in *. intros b' Hb'.
  apply In_nth_error in Hb'. destruct Hb' as [i Hi].
  destruct (Hnth i) as [E | E]; rewrite E in Hi.
  - apply Hall. exact (nth_error_In _ _ Hi).
  - destruct (nth_error bs i) as [b |]; [| discriminate].
    cbn in Hi. injection Hi as <-. apply Hdeact.
Qed.

(** Popping bubbles never blocks a path: a target whose path is clear
    before match detection has a clear path after it. *)
Theorem isPathClear_after_match (g : Game) (target : Bubble) (start : nat) :
  isPathClear g target = true ->
  let r := checkMatches (bubbles g) start (scoreRef g) (bubblesEliminatedRef g) in
  isPathClear (set_bubbles (mo_bubbles r) g) target = true.
Proof.
  intros Hclear. cbv zeta. unfold isPathClear in *. cbv zeta in *.
  cbn [anchorPos bubbles set_bubbles].
  rewrite forallb_forall in *. intros i Hi. specialize (Hclear i Hi).
  revert Hclear. apply samples_deactivated.
  - intros b Hb. rewrite Hb. reflexivity.
  - intros k. apply checkMatches_nth.
  - intros b. reflexivity.
Qed.

(** A target 40 px above the anchor, under [redRow]: the path has one
    sample, at (500, 770), far from the four bubbles. *)
Lemma redGame_clear :
  isPathClear redGame (Bubble.mk "9-9" 9 9 500 740 red true) = true.
Proof.
  unfold isPathClear. cbv zeta.
  cbn [Bubble.x Bubble.y Bubble.id anchorPos bubbles redGame set_bubbles draggedBack
       Point.x Point.y].
  rewrite (sqrt_sq_vertical _ _ 40) by lra.
  assert (Hsteps : Math_ceil (40 / (BUBBLE_RADIUS / 2)) = 4).
  { unfold Math_ceil, BUBBLE_RADIUS. apply Zceil_eq. lra. }
  rewrite Hsteps.
  change (map (fun k => 1 + k) (upto (4 - 3))) with [1].
  assert (HR := ROW_HEIGHT_bounds).
  unfold redRow. cbn [forallb Bubble.active Bubble.id Bubble.x Bubble.y negb orb
                         String.eqb Ascii.eqb Bool.eqb andb].
  unfold BUBBLE_RADIUS.
  repeat rewrite (proj2 (Rltb_false _ _)) by nra.
  reflexivity.
Qed.

Lemma isPathClear_after_match_witness :
  map Bubble.active
      (mo_bubbles (checkMatches (bubbles redGame) 3 (scoreRef redGame)
                                (bubblesEliminatedRef redGame)))
  = [false; false; false; false]
  /\ isPathClear
       (set_bubbles
          (mo_bubbles (checkMatches (bubbles redGame) 3 (scoreRef redGame)
                                    (bubblesEliminatedRef redGame)))
          redGame)
       (Bubble.mk "9-9" 9 9 500 740 red true) = true.
Proof.
  split; [vm_compute; reflexivity |].
  apply (isPathClear_after_match redGame (Bubble.mk "9-9" 9 9 500 740 red true) 3).
  exact redGame_clear.
Defined.

(** ** [getAllReachableClusters] *)

Lemma insertByR_In {A} (compare : A -> A -> R) (a x : A) (l : list A) :
  In x (insertByR compare a l) <-> x = a \/ In x l.
Proof.
  induction l as [|b t IH]; cbn.
  - intuition congruence.
  - destruct (Rleb (compare a b) 0); cbn; [intuition congruence |].
    rewrite IH. intuition congruence.
Qed.

Lemma sortByR_In {A} (compare : A -> A -> R) (x : A) (l : list A) :
  In x (sortByR compare l) <-> In x l.
Proof.
  induction l as [|a t IH]; cbn; [tauto |].
  rewrite insertByR_In, IH. intuition congruence.
Qed.

Lemma filter_split_length {A} (p1 p2 p3 : A -> bool) (l : list A) :
  (forall x, In x l -> p3 x = true -> p1 x = true /\ p2 x = false) ->
  (forall x, In x l -> p2 x = true -> p1 x = true) ->
  (List.length (filter p2 l) + List.length (filter p3 l)
   <= List.length (filter p1 l))%nat.
Proof.
  induction l as [|a l IH]; intros H3 H2; cbn; [lia |].
  assert (IH' := IH (fun x Hx => H3 x (or_intror Hx)) (fun x Hx => H2 x (or_intror Hx))).
  assert (Ha3 := H3 a (or_introl eq_refl)). assert (Ha2 := H2 a (or_introl eq_refl)).
  destruct (p3 a); [destruct (Ha3 eq_refl) as [-> ->]; cbn; lia |].
  destruct (p2 a); [rewrite (Ha2 eq_refl); cbn; lia |].
  destruct (p1 a); cbn; lia.
Qed.

Lemma setHas_fold (ns : list Bubble) (v : list string) (s : string) :
  setHas (fold_left (fun v n => Bubble.id n :: v) ns v) s = true
  <-> setHas v s = true \/ exists n, In n ns /\ Bubble.id n = s.
Proof.
  revert v. induction ns as [|n ns IH]; intros v; cbn [fold_left].
  - split; [auto | intros [H | [n [[] _]]]; exact H].
  - rewrite IH, setHas_cons, orb_true_iff, String.eqb_eq. split.
    + intros [[-> | H] | [m [Hm E]]]; auto.
      * right. exists n. split; [left |]; reflexivity.
      * right. exists m. split; [right |]; assumption.
    + intros [H | [m [[<- | Hm] E]]]; auto.
      right. exists m. auto.
Qed.

(** The flood fill of one cluster returns within its fuel; it keeps to the
    bubbles of the colour, forgets no member and no visited id, and every
    member it adds was unvisited. *)
Lemma bfsCluster_total (ab : list Bubble) (color : BubbleColor) :
  forall fuel queue visited members,
  (List.length queue
   + List.length (filter (fun n => negb (setHas visited (Bubble.id n))) ab) < fuel)%nat ->
  (forall n, In n queue -> In n ab /\ Bubble.color n = color) ->
  (forall n, In n members -> In n ab /\ Bubble.color n = color) ->
  exists members' visited',
    bfsCluster fuel ab color queue visited members = Some (members', visited')
    /\ (forall n, In n members' -> In n ab /\ Bubble.color n = color)
    /\ (List.length members + List.length queue <= List.length members')%nat
    /\ (forall s, setHas visited s = true -> setHas visited' s = true)
    /\ (List.length members'
        + List.length (filter (fun n => negb (setHas visited' (Bubble.id n))) ab)
        <= List.length members + List.length queue
           + List.length (filter (fun n => negb (setHas visited (Bubble.id n))) ab))%nat.
Proof.
  induction fuel as [|fuel IH]; intros queue visited members Hfuel Hq Hm; [lia |].
  cbn [bfsCluster]. destruct queue as [|curr rest].
  - exists members, visited. split; [reflexivity |]. split; [exact Hm |].
    cbn [List.length]. split; [lia |]. split; [auto | lia].
  - cbv zeta.
    set (neighbors := filter (fun n => negb (setHas visited (Bubble.id n))
                                       && BubbleColor_eqb (Bubble.color n) color
                                       && isNeighbor curr n) ab).
    set (visited1 := fold_left (fun v n => Bubble.id n :: v) neighbors visited).
    assert (Hsplit : (List.length (filter (fun n => negb (setHas visited1 (Bubble.id n))) ab)
                      + List.length neighbors
                      <= List.length (filter (fun n => negb (setHas visited (Bubble.id n))) ab))%nat).
    { apply filter_split_length.
      - intros x Hx H3. assert (H3' := H3).
        apply andb_true_iff in H3. destruct H3 as [H3 _].
        apply andb_true_iff in H3. destruct H3 as [Hu _]. split; [exact Hu |].
        apply negb_false_iff. apply setHas_fold. right. exists x. split; [| reflexivity].
        unfold neighbors. apply filter_In. split; [exact Hx | exact H3'].
      - intros x Hx H2. apply negb_true_iff in H2. apply negb_true_iff.
        destruct (setHas visited (Bubble.id x)) eqn:E; [| reflexivity].
        assert (H : setHas visited1 (Bubble.id x) = true)
          by (apply setHas_fold; left; exact E).
        congruence. }
    destruct (IH (rest ++ neighbors)%list visited1 (members ++ [curr])%list)
      as [members' [visited' [Hrun [Hin [Hlen [Hvis Hmeasure]]]]]].
    + rewrite length_app. cbn [List.length] in Hfuel. lia.
    + intros n Hn. apply in_app_or in Hn. destruct Hn as [Hn | Hn].
      * apply Hq. right. exact Hn.
      * unfold neighbors in Hn. apply filter_In in Hn. destruct Hn as [Hn Hp].
        split; [exact Hn |].
        apply andb_true_iff in Hp. destruct Hp as [Hp _].
        apply andb_true_iff in Hp. destruct Hp as [_ Hc].
        apply BubbleColor_eqb_eq. exact Hc.
    + intros n Hn. apply in_app_or in Hn. destruct Hn as [Hn | [<- | []]].
      * apply Hm. exact Hn.
      * apply Hq. left. reflexivity.
    + exists members', visited'. split; [exact Hrun |]. split; [exact Hin |].
      rewrite !length_app in *. cbn [List.length] in *.
      split; [lia |]. split; [| lia].
      intros s Hs. apply Hvis. apply setHas_fold. left. exact Hs.
Qed.

Lemma filter_all_length {A} (l : list A) :
  List.length (filter (fun _ => true) l) = List.length l.
Proof. induction l as [|a l IH]; cbn; [reflexivity | rewrite IH; reflexivity]. Qed.

Lemma describeX_cases (xPct : R) :
  describeX xPct = "Left" \/ describeX xPct = "Center" \/ describeX xPct = "Right".
Proof. unfold describeX. destruct (Rltb xPct 0.33), (Rltb 0.66 xPct); auto. Qed.

(** The loop for one colour returns, and adds candidates of the state
    only. *)
Lemma clustersOfColor_total (g : Game) (containerWidth : R) (color : BubbleColor) :
  let ab := filter Bubble.active (bubbles g) in
  forall rest visited allClusters,
  (forall b, In b rest -> In b ab) ->
  Forall (candidateOf g) allClusters ->
  exists out,
    clustersOfColor g containerWidth ab color rest visited allClusters = Some out
    /\ Forall (candidateOf g) out.
Proof.
  cbv zeta. set (ab := filter Bubble.active (bubbles g)).
  induction rest as [|b rest IH]; intros visited allClusters Hrest Hall;
    cbn [clustersOfColor].
  - exists allClusters. auto.
  - assert (Hrest' : forall x, In x rest -> In x ab)
      by (intros x Hx; apply Hrest; right; exact Hx).
    destruct (negb (BubbleColor_eqb (Bubble.color b) color)
              || setHas visited (Bubble.id b)) eqn:Eskip; [apply IH; assumption |].
    apply orb_false_iff in Eskip. destruct Eskip as [Ecol _].
    apply negb_false_iff in Ecol. apply BubbleColor_eqb_eq in Ecol.
    assert (Hb : In b ab) by (apply Hrest; left; reflexivity).
    assert (Hunv : (List.length (filter (fun n => negb (setHas (Bubble.id b :: visited)
                                                          (Bubble.id n))) ab)
                    < List.length ab)%nat).
    { assert (H := filter_length_lt (fun _ : Bubble => true)
                     (fun n => negb (setHas (Bubble.id b :: visited) (Bubble.id n)))
                     ab b (fun _ _ _ => eq_refl) Hb eq_refl).
      rewrite filter_all_length in H. apply H.
      rewrite setHas_cons, String.eqb_refl. reflexivity. }
    destruct (bfsCluster_total ab color (S (List.length ab)) [b]
                (Bubble.id b :: visited) [])
      as [members [visited' [Hrun [Hin [Hlen [_ Hmeasure]]]]]].
    + cbn [List.length]. lia.
    + intros n [<- | []]. auto.
    + intros n [].
    + rewrite Hrun. cbv zeta.
      destruct (find (isPathClear g)
                  (sortByR (fun a b0 => (Bubble.y b0 - Bubble.y a)%R) members))
        as [hit |] eqn:Efind; [| apply IH; assumption].
      apply IH; [assumption |].
      apply Forall_app. split; [exact Hall |]. constructor; [| constructor].
      apply find_some in Efind. destruct Efind as [Hhit Hclear].
      apply sortByR_In in Hhit. destruct (Hin hit Hhit) as [Hab Hc].
      unfold ab in Hab. apply filter_In in Hab. destruct Hab as [Hbs Hact].
      exists hit. cbn [TargetCandidate.id TargetCandidate.row TargetCandidate.col
                       TargetCandidate.color TargetCandidate.pointsPerBubble
                       TargetCandidate.size TargetCandidate.description].
      rewrite Hc. repeat split; auto.
      * cbn [List.length] in Hlen. lia.
      * cbn [List.length] in Hmeasure. fold (activeCount (bubbles g)).
        unfold activeCount. fold ab. lia.
      * apply describeX_cases.
Qed.

(** The loop over the colours returns, and adds candidates of the state
    only. *)
Lemma clustersLoop_total (g : Game) (containerWidth : R) :
  let ab := filter Bubble.active (bubbles g) in
  forall colors acc,
  Forall (candidateOf g) acc ->
  exists out,
    fold_left (fun acc color =>
                 match acc with
                 | Some allClusters =>
                     clustersOfColor g containerWidth ab color ab [] allClusters
                 | None => None
                 end) colors (Some acc) = Some out
    /\ Forall (candidateOf g) out
    /\ (colors = [] -> out = acc).
Proof.
  cbv zeta. induction colors as [|c colors IH]; intros acc Hacc; cbn [fold_left].
  - exists acc. auto.
  - destruct (clustersOfColor_total g containerWidth c
                (filter Bubble.active (bubbles g)) [] acc) as [out [-> Hout]]; auto.
    destruct (IH out Hout) as [out' [Hrun [Hall _]]].
    exists out'. split; [exact Hrun |]. split; [exact Hall | discriminate].
Qed.

(** [getAllReachableClusters] returns (no flood fill runs out of
    iterations), and every candidate it returns names an active bubble of
    the array whose path from the anchor is clear, with the key and the
    point value of that bubble's colour and a cluster size between 1 and
    the number of active bubbles; with no active bubble there is no
    candidate. *)
Theorem getAllReachableClusters_spec (g : Game) (containerWidth : R) :
  exists allClusters,
    getAllReachableClusters g containerWidth = Some allClusters
    /\ Forall (candidateOf g) allClusters
    /\ (activeCount (bubbles g) = 0%nat -> allClusters = []).
Proof.
  unfold getAllReachableClusters. cbv zeta.
  destruct (clustersLoop_total g containerWidth
              (activeColors (filter Bubble.active (bubbles g))) [] (Forall_nil _))
    as [out [Hrun [Hall Hnil]]].
  exists out. split; [exact Hrun |]. split; [exact Hall |].
  intros Hzero. apply Hnil.
  unfold activeCount in Hzero.
  destruct (filter Bubble.active (bubbles g)); [reflexivity | discriminate].
Qed.

(** ** The text handed to [JSON.parse] *)

Lemma indexOf_split (c : ascii) (s : string) (i : nat) :
  indexOf c s = Some i ->
  exists pre rest, s = pre ++ String c rest /\ String.length pre = i
                   /\ indexOf c pre = None.
Proof.
  revert i. induction s as [|a s IH]; intros i H; cbn in H; [discriminate |].
  destruct (Ascii.eqb a c) eqn:E.
  - apply Ascii.eqb_eq in E. subst a. injection H as <-.
    exists EmptyString, s. auto.
  - destruct (indexOf c s) as [k |]; [| discriminate]. cbn in H. injection H as <-.
    destruct (IH k eq_refl) as [pre [rest [-> [Hlen Hnone]]]].
    exists (String a pre), rest. cbn. rewrite E, Hnone, Hlen. auto.
Qed.

Lemma lastIndexOf_split (c : ascii) (s : string) (j : nat) :
  lastIndexOf c s = Some j ->
  exists pre post, s = pre ++ String c post /\ String.length pre = j
                   /\ lastIndexOf c post = None.
Proof.
  revert j. induction s as [|a s IH]; intros j H; cbn in H; [discriminate |].
  destruct (lastIndexOf c s) as [k |] eqn:Ek.
  - injection H as <-. destruct (IH k eq_refl) as [pre [post [-> [Hlen Hnone]]]].
    exists (String a pre), post. cbn. rewrite Hlen. auto.
  - destruct (Ascii.eqb a c) eqn:E; [| discriminate].
    apply Ascii.eqb_eq in E. subst a. injection H as <-.
    exists EmptyString, s. auto.
Qed.

Lemma append_split (a b a' b' : string) :
  a ++ b = a' ++ b' -> (String.length a <= String.length a')%nat ->
  exists m, a' = a ++ m /\ b = m ++ b'.
Proof.
  revert a'. induction a as [|x a IH]; intros a' H Hlen; cbn in *.
  - exists a'. auto.
  - destruct a' as [|y a']; cbn in *; [lia |].
    injection H as -> H. destruct (IH a' H) as [m [-> ->]]; [lia |].
    exists m. auto.
Qed.

Lemma substring_middle (pre mid post : string) :
  String.substring (String.length pre) (String.length mid) (pre ++ mid ++ post) = mid.
Proof.
  induction pre as [|x pre IH]; cbn [String.length String.append].
  - induction mid as [|y mid IHm]; cbn.
    + destruct post; reflexivity.
    + rewrite IHm. reflexivity.
  - cbn. exact IH.
Qed.

Lemma string_length_append (s t : string) :
  String.length (s ++ t) = (String.length s + String.length t)%nat.
Proof. induction s as [|c s IH]; cbn; [reflexivity | rewrite IH; reflexivity]. Qed.

Lemma indexOf_head (c : ascii) (s : string) : indexOf c (String c s) = Some O.
Proof. cbn. rewrite Ascii.eqb_refl. reflexivity. Qed.

Lemma lastIndexOf_last (c : ascii) (s post : string) :
  lastIndexOf c post = None ->
  lastIndexOf c (s ++ String c post) = Some (String.length s).
Proof.
  intros Hpost. induction s as [|a s IH]; cbn.
  - rewrite Hpost, Ascii.eqb_refl. reflexivity.
  - rewrite IH. reflexivity.
Qed.

(** The slice of lines 157-162 on a text: the text itself, or its part from
    the first ['{'] to the last ['}']. *)
Lemma jsonSlice_cases (text : string) :
  let out :=
    match indexOf "{" text, lastIndexOf "}" text with
    | Some firstBrace, Some lastBrace =>
        if (firstBrace <? lastBrace)%nat
        then jsSubstring firstBrace (lastBrace + 1) text
        else text
    | _, _ => text
    end in
  out = text
  \/ exists pre body post,
       text = pre ++ String "{" (body ++ String "}" post)
       /\ indexOf "{" pre = None /\ lastIndexOf "}" post = None
       /\ out = String "{" (body ++ String "}" EmptyString).
Proof.
  cbv zeta.
  destruct (indexOf "{" text) as [i |] eqn:Ei; [| left; reflexivity].
  destruct (lastIndexOf "}" text) as [j |] eqn:Ej; [| left; reflexivity].
  destruct (Nat.ltb_spec i j) as [Hlt | Hge]; [| left; reflexivity].
  right.
  destruct (indexOf_split _ _ _ Ei) as [pre [rest [Hpre [Hprelen Hprenone]]]].
  destruct (lastIndexOf_split _ _ _ Ej) as [pre' [post [Hpost [Hpostlen Hpostnone]]]].
  assert (Heq : pre ++ String "{" rest = pre' ++ String "}" post) by congruence.
  destruct (append_split pre (String "{" rest) pre' (String "}" post) Heq)
    as [m [Hm Hrest]]; [lia |].
  destruct m as [|x body].
  - exfalso. rewrite Hm in Hpostlen. rewrite string_length_append in Hpostlen.
    cbn in Hpostlen. lia.
  - cbn in Hrest. injection Hrest as <- Hrest.
    exists pre, body, post. subst rest. split; [exact Hpre |].
    split; [exact Hprenone |]. split; [exact Hpostnone |].
    unfold jsSubstring. rewrite Hpre.
    replace (j + 1 - i)%nat
      with (String.length (String "{" (body ++ String "}" EmptyString))).
    + rewrite <- Hprelen.
      replace (pre ++ String "{" (body ++ String "}" post))
        with (pre ++ String "{" (body ++ String "}" EmptyString) ++ post).
      * apply substring_middle.
      * cbn. rewrite string_append_assoc. reflexivity.
    + rewrite <- Hpostlen, Hm, <- Hprelen. cbn.
      rewrite !string_length_append. cbn. lia.
Qed.

Lemma indexOf_first (c : ascii) (pre rest : string) :
  indexOf c pre = None ->
  indexOf c (pre ++ String c rest) = Some (String.length pre).
Proof.
  induction pre as [|a pre IH]; cbn; intros H.
  - rewrite Ascii.eqb_refl. reflexivity.
  - destruct (Ascii.eqb a c); [discriminate |].
    destruct (indexOf c pre); [discriminate |].
    rewrite IH by reflexivity. reflexivity.
Qed.

(** What [JSON.parse] is given. When the answer has a ['{'] with a ['}']
    after it, it is the part from the first ['{'] to the last ['}'], with
    the text before and after dropped; when it has not, it is the answer as
    it is. An answer that is missing or empty is read as ["{}"]; the text is
    never empty; and extracting again changes nothing. *)
Theorem extractJson_spec (responseText : option string) :
  let text := match responseText with
              | Some t => if String.eqb t "" then "{}" else t
              | None => "{}"
              end in
  (forall pre body post,
     text = pre ++ String "{" (body ++ String "}" post) ->
     indexOf "{" pre = None -> lastIndexOf "}" post = None ->
     extractJson responseText = String "{" (body ++ String "}" EmptyString))
  /\ ((forall pre body post, text <> pre ++ String "{" (body ++ String "}" post)) ->
      extractJson responseText = text)
  /\ extractJson responseText <> ""
  /\ extractJson (Some (extractJson responseText)) = extractJson responseText.
Proof.
  cbv zeta.
  set (text := match responseText with
               | Some t => if String.eqb t "" then "{}" else t
               | None => "{}"
               end).
  assert (Hne : text <> "").
  { unfold text. destruct responseText as [t |]; [| discriminate].
    destruct (String.eqb_spec t ""); [discriminate | assumption]. }
  assert (Hdef : extractJson responseText
                 = match indexOf "{" text, lastIndexOf "}" text with
                   | Some firstBrace, Some lastBrace =>
                       if (firstBrace <? lastBrace)%nat
                       then jsSubstring firstBrace (lastBrace + 1) text
                       else text
                   | _, _ => text
                   end) by reflexivity.
  assert (Hslice : forall pre body post,
     text = pre ++ String "{" (body ++ String "}" post) ->
     indexOf "{" pre = None -> lastIndexOf "}" post = None ->
     extractJson responseText = String "{" (body ++ String "}" EmptyString)).
  { intros pre body post Htext Hpre Hpost. rewrite Hdef, Htext.
    rewrite (indexOf_first _ pre _ Hpre).
    replace (pre ++ String "{" (body ++ String "}" post))
      with ((pre ++ String "{" body) ++ String "}" post) at 1
      by (rewrite string_append_assoc; reflexivity).
    rewrite (lastIndexOf_last _ _ _ Hpost).
    rewrite string_length_append. cbn [String.length].
    destruct (Nat.ltb_spec (String.length pre)
                           (String.length pre + S (String.length body))) as [_ | Hge];
      [| lia].
    unfold jsSubstring.
    replace (String.length pre + S (String.length body) + 1 - String.length pre)%nat
      with (String.length (String "{" (body ++ String "}" EmptyString)))
      by (cbn; rewrite string_length_append; cbn; lia).
    replace (pre ++ String "{" (body ++ String "}" post))
      with (pre ++ String "{" (body ++ String "}" EmptyString) ++ post)
      by (cbn; rewrite string_append_assoc; reflexivity).
    apply substring_middle. }
  assert (Hcases := jsonSlice_cases text). cbv zeta in Hcases. rewrite <- Hdef in Hcases.
  split; [exact Hslice |].
  split.
  { intros Hnone. destruct Hcases as [E | [pre [body [post [Htext _]]]]]; [exact E |].
    exfalso. exact (Hnone pre body post Htext). }
  clear Hslice. revert Hdef Hcases. generalize (extractJson responseText).
  intros out Hdef Hcases.
  assert (Hout : out <> "").
  { destruct Hcases as [-> | [pre [body [post [_ [_ [_ ->]]]]]]]; [exact Hne | discriminate]. }
  split; [exact Hout |].
  unfold extractJson.
  destruct (String.eqb_spec out "") as [E | _]; [contradiction |].
  destruct Hcases as [Hsame | [pre [body [post [Htext [Hpre [Hpost Hbody]]]]]]].
  - rewrite Hsame. rewrite <- Hdef. exact Hsame.
  - rewrite Hbody. rewrite indexOf_head.
    change (String "{" (body ++ String "}" EmptyString))
      with ((String "{" body) ++ String "}" EmptyString) at 1.
    rewrite lastIndexOf_last by reflexivity.
    cbn [String.length Nat.ltb Nat.leb]. unfold jsSubstring.
    replace (S (String.length body) + 1 - 0)%nat
      with (String.length (String "{" (body ++ String "}" EmptyString)))
      by (cbn; rewrite string_length_append; cbn; lia).
    assert (H := substring_middle EmptyString
                   (String "{" (body ++ String "}" EmptyString)) EmptyString).
    cbn [String.length String.append] in H.
    replace ((body ++ String "}" EmptyString) ++ EmptyString)
      with (body ++ String "}" EmptyString) in H
      by (rewrite string_append_assoc; reflexivity).
    exact H.
Qed.

(** ** The row reported to the service *)

(** [maxRow], the row that [performAiAnalysis] hands to the service, is the
    largest row index of an active bubble, and 0 when no active bubble has a
    positive row index: it is never negative, no active bubble lies in a row
    after it, it is 0 or the row of an active bubble, and it reaches a
    positive row [k] exactly when an active bubble lies in row [k] or after
    it. Bubbles that are no longer active do not count. *)
Theorem maxRow_spec (bs : list Bubble) :
  0 <= maxRow bs
  /\ (forall b, In b bs -> Bubble.active b = true -> Bubble.row b <= maxRow bs)
  /\ (maxRow bs = 0
      \/ exists b, In b bs /\ Bubble.active b = true /\ Bubble.row b = maxRow bs)
  /\ (forall k, 0 < k ->
        (k <= maxRow bs
         <-> exists b, In b bs /\ Bubble.active b = true /\ k <= Bubble.row b)).
Proof.
  unfold maxRow.
  assert (G : forall m0,
    let m := fold_left (fun max b => if Bubble.active b then Z.max max (Bubble.row b)
                                     else max) bs m0 in
    m0 <= m
    /\ (forall b, In b bs -> Bubble.active b = true -> Bubble.row b <= m)
    /\ (m = m0 \/ exists b, In b bs /\ Bubble.active b = true /\ Bubble.row b = m)).
  { induction bs as [|a bs IH]; intros m0; cbv zeta; cbn [fold_left].
    - split; [lia |]. split; [intros b [] | left; reflexivity].
    - destruct (Bubble.active a) eqn:Ea.
      + destruct (IH (Z.max m0 (Bubble.row a))) as [H1 [H2 H3]]. cbv zeta in H1, H2, H3.
        split; [lia |]. split.
        * intros b [<- | Hb] Hact; [lia | apply H2; assumption].
        * destruct H3 as [H3 | [b [Hb [Hact Hrow]]]].
          -- destruct (Z.le_gt_cases m0 (Bubble.row a)) as [Hle | Hgt].
             ++ right. exists a. split; [left; reflexivity |]. split; [exact Ea | lia].
             ++ left. lia.
          -- right. exists b. split; [right; exact Hb |]. auto.
      + destruct (IH m0) as [H1 [H2 H3]]. cbv zeta in H1, H2, H3.
        split; [exact H1 |]. split.
        * intros b [<- | Hb] Hact; [congruence | apply H2; assumption].
        * destruct H3 as [H3 | [b [Hb H]]]; [left; exact H3 |].
          right. exists b. split; [right; exact Hb | exact H]. }
  destruct (G 0) as [H1 [H2 H3]]. cbv zeta in H1, H2, H3.
  split; [exact H1 |]. split; [exact H2 |]. split; [exact H3 |].
  intros k Hk. split.
  - intros Hle. destruct H3 as [E | [b [Hb [Hact Hrow]]]]; [lia |].
    exists b. split; [exact Hb |]. split; [exact Hact | lia].
  - intros [b [Hb [Hact Hrow]]]. specialize (H2 b Hb Hact). lia.
Qed.

(** ** The lock and a ball at rest *)

Lemma locked_rest_frame (f : FrameInput) (g : Game) :
  isAiThinkingRef g = true -> isFlying g = false -> captureRequestRef g = false ->
  let g' := onResults f g in
  isAiThinkingRef g' = true /\ isFlying g' = false /\ captureRequestRef g' = false
  /\ isPinching g' = false
  /\ bubbles g' = bubbles g /\ scoreRef g' = scoreRef g
  /\ shotsFiredRef g' = shotsFiredRef g
  /\ analysesScheduled g' = analysesScheduled g
  /\ requestsInFlight g' = requestsInFlight g.
Proof.
  intros Hl Hf Hc. cbv zeta. unfold onResults.
  destruct (resize_flags f g) as [_ [Rf [Rl [_ [Rs Rb]]]]].
  destruct (resize_keeps f g) as [_ [Rsc [_ [_ [Rc [_ [_ [Ra [Rq _]]]]]]]]].
  rewrite <- Rf in Hf. rewrite <- Rl in Hl. rewrite <- Rc in Hc.
  rewrite <- Rs, <- Rb, <- Rsc, <- Ra, <- Rq.
  generalize (resize f g) Hl Hf Hc. clear. intros r Hl Hf Hc.
  rewrite (slingshot_locked f r Hl).
  destruct (isPinching r) eqn:Hp.
  - rewrite physics_idle by (cbn; exact Hf).
    unfold capture. cbn. rewrite Hc. cbn. rewrite Hl, Hf, Hc. repeat split; reflexivity.
  - rewrite Hf. cbn [negb]. rewrite physics_idle by (cbn; exact Hf).
    unfold capture, ease. cbn. rewrite Hc. cbn. rewrite Hl, Hf, Hc, Hp.
    repeat split; reflexivity.
Qed.

(** With the lock set, no ball in flight and no capture requested, frames
    change neither the array nor the score, fire no shot, schedule no
    analysis and send no request, whatever the hand does, for as long as the
    lock stays: a new analysis under the lock needs a ball in flight. *)
Theorem locked_rest_quiet (fs : list FrameInput) (g : Game) :
  isAiThinkingRef g = true -> isFlying g = false -> captureRequestRef g = false ->
  let g' := frames g fs in
  isAiThinkingRef g' = true /\ isFlying g' = false /\ captureRequestRef g' = false
  /\ bubbles g' = bubbles g /\ scoreRef g' = scoreRef g
  /\ shotsFiredRef g' = shotsFiredRef g
  /\ analysesScheduled g' = analysesScheduled g
  /\ requestsInFlight g' = requestsInFlight g
  /\ (fs <> [] -> isPinching g' = false).
Proof.
  cbv zeta. revert g. induction fs as [|f fs IH]; intros g Hl Hf Hc.
  - cbn. repeat split; auto. intros H. contradiction H. reflexivity.
  - cbn [frames fold_left].
    change (fold_left (fun g f => onResults f g) fs (onResults f g))
      with (frames (onResults f g) fs).
    destruct (locked_rest_frame f g Hl Hf Hc)
      as [Hl' [Hf' [Hc' [Hp' [Hb [Hs [Hsh [Ha Hq]]]]]]]].
    cbv zeta in *.
    destruct (IH (onResults f g) Hl' Hf' Hc')
      as [Il [If' [Ic [Ib [Is [Ish [Ia [Iq Ip]]]]]]]].
    rewrite Ib, Is, Ish, Ia, Iq, Hb, Hs, Hsh, Ha, Hq.
    repeat split; auto.
    intros _. destruct fs as [|f' fs'].
    + cbn. exact Hp'.
    + apply Ip. discriminate.
Qed.

Lemma lockedGame_flags :
  isAiThinkingRef lockedGame = true /\ isFlying lockedGame = false
  /\ captureRequestRef lockedGame = false.
Proof.
  unfold lockedGame.
  assert (E : onResults (idleFrame 16)
                (set_captureRequestRef true (set_initTimerPending false startGame))
              = capture (ease (set_captureRequestRef true
                                 (set_initTimerPending false startGame)))).
  { unfold startGame. destruct (mount_mounted 1000 1000 allRed) as [c ->].
    apply onResults_idle; reflexivity. }
  rewrite E. unfold startGame. destruct (mount_mounted 1000 1000 allRed) as [c ->].
  repeat split; reflexivity.
Qed.

Lemma locked_rest_quiet_witness :
  bubbles (frames lockedGame [pinchFrame 33; idleFrame 50]) = bubbles lockedGame.
Proof.
  destruct lockedGame_flags as [Hl [Hf Hc]].
  apply (locked_rest_quiet [pinchFrame 33; idleFrame 50] lockedGame Hl Hf Hc).
Defined.

(** ** The grid on the canvas *)

(** On a canvas at least as wide as a full row (528 px), every cell of the
    grid has its bubble between the side walls and below the top line; the
    rows are centred: a cell and its mirror image in the row are at the same
    distance from the two walls. *)
Theorem getBubblePos_inside (width : R) (r c : Z) :
  (IZR GRID_COLS * (2 * BUBBLE_RADIUS) <= width)%R ->
  0 <= r -> 0 <= c < colsInRow r ->
  let p := getBubblePos r c width in
  let q := getBubblePos r (colsInRow r - 1 - c) width in
  (BUBBLE_RADIUS <= Point.x p <= width - BUBBLE_RADIUS)%R
  /\ (BUBBLE_RADIUS <= Point.y p)%R
  /\ (Point.x p + Point.x q = width)%R.
Proof.
  intros Hw Hr Hc. cbv zeta.
  rewrite !getBubblePos_x, getBubblePos_y. rewrite colsInRow_odd in *.
  unfold GRID_COLS, BUBBLE_RADIUS in *.
  assert (HR := ROW_HEIGHT_bounds).
  assert (Hr' : (0 <= IZR r)%R) by (apply IZR_le; exact Hr).
  assert (Hc0 : (0 <= IZR c)%R) by (apply IZR_le; lia).
  destruct (Z.odd r).
  - assert (Hc1 : (IZR c <= 10)%R) by (apply IZR_le; lia).
    rewrite !minus_IZR. repeat split; try lra; nra.
  - assert (Hc1 : (IZR c <= 11)%R) by (apply IZR_le; lia).
    rewrite !minus_IZR. repeat split; try lra; nra.
Qed.

Lemma getBubblePos_inside_witness :
  (BUBBLE_RADIUS <= Point.x (getBubblePos 3 10 1000) <= 1000 - BUBBLE_RADIUS)%R.
Proof.
  apply (getBubblePos_inside 1000 3 10).
  - unfold GRID_COLS, BUBBLE_RADIUS. lra.
  - lia.
  - rewrite colsInRow_odd. cbn. lia.
Defined.
